(** * Cross-venue arbitrage monitor (Kalshi + Polymarket): a shallow embedding

    The development follows the TypeScript sources:
    - [config.ts]             the environment-derived constants,
    - [arb.ts]                [inRange], [checkArbAndPlaceOrders],
    - [bot.ts]                [placeOrder],
    - [polymarket-order.ts]   [placePolymarketOrder] and the cached client,
    - [polymarket-monitor.ts] the token-id cache and the Polymarket reader,
    - [monitor.ts]            the Kalshi reader, [getDualPrices] and the
                              self-pacing poll loop.

    JavaScript numbers are IEEE 754 binary64 values; they are modelled by the
    executable specification of floating-point arithmetic of the standard
    library ([spec_float] at precision 53 and maximal exponent 1024), so that
    every arithmetic operation of the source rounds here as it does there.

    Functions with effects are computations over the module-level state
    (the two done-sets, the token-id cache and the cached CLOB client) that
    return a value or throw,
    and that list in a trace what they print, log and send.  What a venue
    answers is an argument of the function that calls it, so that the
    theorems quantify over every answer, failures included.  The poll loop is
    the transition system of its runs between two [await]s.

    Layout: the program; the vocabulary of the statements and the concrete
    inputs; the proofs. *)

From Stdlib Require Import ZArith Bool List Ascii String Lia.
From Stdlib Require Import Floats.SpecFloat.
From stdpp Require Import gmap strings list pretty.

Local Open Scope Z_scope.

(* ===================================================================== *)
(** * JavaScript numbers and the built-ins the sources use *)
(* ===================================================================== *)

Module JS.

Abbreviation number := spec_float.

Definition prec : Z := 53.
Definition emax : Z := 1024.

Definition NaN : number := S754_nan.
Definition Infinity : number := S754_infinity false.
Definition NegInfinity : number := S754_infinity true.

(** An integer as a number (rounded to nearest-even beyond 2^53). *)
Definition of_Z (z : Z) : number := binary_normalize prec emax z 0 false.

Definition add (x y : number) : number := SFadd prec emax x y.
Definition mul (x y : number) : number := SFmul prec emax x y.
Definition div (x y : number) : number := SFdiv prec emax x y.

(** [x < y], [x <= y], [x >= y], [x === y] on numbers: all false on NaN. *)
Definition lt (x y : number) : bool := SFltb x y.
Definition le (x y : number) : bool := SFleb x y.
Definition ge (x y : number) : bool := SFleb y x.
Definition eq (x y : number) : bool := SFeqb x y.

(** [Number.isFinite]. *)
Definition isFinite (x : number) : bool :=
  match x with
  | S754_zero _ | S754_finite _ _ _ => true
  | S754_infinity _ | S754_nan => false
  end.

(** [Math.max] and [Math.min] of two numbers: NaN is contagious and
    [+0] is larger than [-0]. *)
Definition Math_max (a b : number) : number :=
  match SFcompare a b with
  | None => NaN
  | Some Lt => b
  | Some Gt => a
  | Some Eq => match a with S754_zero true => b | _ => a end
  end.

Definition Math_min (a b : number) : number :=
  match SFcompare a b with
  | None => NaN
  | Some Lt => a
  | Some Gt => b
  | Some Eq => match a with S754_zero false => b | _ => a end
  end.

(** [Math.round]: the integer nearest to [x], ties towards +infinity, that
    is [floor (x + 1/2)] computed exactly; the sign of a zero result is the
    sign of [x]. *)
Definition Math_round (x : number) : number :=
  match x with
  | S754_finite s m e =>
      if 0 <=? e then x
      else
        let z := if s then Zneg m else Zpos m in
        let n := Z.shiftr (2 * z + 2 ^ (- e)) (- e + 1) in
        match n with
        | Z0 => S754_zero s
        | _ => of_Z n
        end
  | _ => x
  end.

(** Truthiness of a string: only the empty string is falsy. *)
Definition truthy (s : string) : bool :=
  match s with EmptyString => false | _ => true end.

(** ** [parseFloat]

    The longest prefix of the trimmed input that is a [StrDecimalLiteral]
    (sign, then [Infinity] or digits with an optional fraction and an
    optional exponent) is converted to the nearest binary64 value; when
    there is no such prefix the result is NaN.  White space is the ASCII
    white space (tab, LF, VT, FF, CR, space). *)

Definition is_space (c : ascii) : bool :=
  let n := nat_of_ascii c in
  ((9 <=? n)%nat && (n <=? 13)%nat) || (n =? 32)%nat.

Definition digit_of (c : ascii) : option Z :=
  let n := nat_of_ascii c in
  if ((48 <=? n)%nat && (n <=? 57)%nat) then Some (Z.of_nat (n - 48)) else None.

Fixpoint trim_start (s : string) : string :=
  match s with
  | String c r => if is_space c then trim_start r else s
  | EmptyString => s
  end.

(** [span_digits acc n s]: reads the leading decimal digits of [s] into the
    accumulator; returns the value, the number of digits read and the rest. *)
Fixpoint span_digits (acc : Z) (n : Z) (s : string) : Z * Z * string :=
  match s with
  | String c r =>
      match digit_of c with
      | Some d => span_digits (10 * acc + d) (n + 1) r
      | None => (acc, n, s)
      end
  | EmptyString => (acc, n, s)
  end.

Definition read_sign (s : string) : bool * string :=
  match s with
  | String "-" r => (true, r)
  | String "+" r => (false, r)
  | _ => (false, s)
  end.

(** The exponent part, consumed only when it is complete. *)
Definition read_exponent (s : string) : Z :=
  match s with
  | String c r =>
      if (Ascii.eqb c "e" || Ascii.eqb c "E")%bool then
        let '(neg, r') := read_sign r in
        let '(v, n, _) := span_digits 0 0 r' in
        if n =? 0 then 0 else if neg then - v else v
      else 0
  | EmptyString => 0
  end.

(** [m * 10^e10] with sign [s], correctly rounded. *)
Definition of_decimal (s : bool) (m : Z) (e10 : Z) : number :=
  match m with
  | Zpos p =>
      if 0 <=? e10 then
        binary_normalize prec emax ((if s then Zneg p else Zpos p) * 10 ^ e10) 0 false
      else
        SFdiv prec emax (S754_finite s p 0)
              (S754_finite false (Z.to_pos (10 ^ (- e10))) 0)
  | _ => S754_zero s
  end.

Definition parseFloat (input : string) : number :=
  let '(neg, s) := read_sign (trim_start input) in
  if String.prefix "Infinity" s then S754_infinity neg
  else
    let '(ip, ni, r1) := span_digits 0 0 s in
    match r1 with
    | String "." r2 =>
        let '(m, nf, r3) := span_digits ip 0 r2 in
        if (ni =? 0) && (nf =? 0) then NaN
        else of_decimal neg m (read_exponent r3 - nf)
    | _ =>
        if ni =? 0 then NaN
        else of_decimal neg ip (read_exponent r1)
    end.

End JS.

(* ===================================================================== *)
(** * Dates and local time *)
(* ===================================================================== *)

(** The zone of the host, as ECMAScript reads it: the offset of local time
    from UTC, in milliseconds, in force at a UTC time ([LocalTZA(t, true)]),
    and the offset for a local time ([LocalTZA(t, false)]); at a local time
    that a transition repeats or skips, the latter is the offset in force
    before the transition. *)
Record TimeZone := {
  offsetAtUTC : Z -> Z;
  offsetAtLocal : Z -> Z
}.

Module Date.

(** A [Date]: its time value in epoch milliseconds, and the zone that its
    local-time methods read.  The time values of the program are far from
    the bounds at which [TimeClip] yields NaN. *)
Record t := { getTime : Z; zone : TimeZone }.

(** [LocalTime(t)] and [UTC(t)]. *)
Definition LocalTime (d : t) : Z := getTime d + offsetAtUTC (zone d) (getTime d).

Definition UTC (z : TimeZone) (tlocal : Z) : Z := tlocal - offsetAtLocal z tlocal.

Definition msPerSecond : Z := 1000.
Definition msPerMinute : Z := 60000.
Definition msPerHour : Z := 3600000.

(** [d.getMinutes()]. *)
Definition getMinutes (d : t) : Z := (LocalTime d / msPerMinute) mod 60.

(** [d.setSeconds(sec, ms)]: the local time with its seconds and
    milliseconds replaced, read back as a UTC time. *)
Definition setSeconds (d : t) (sec ms : Z) : t :=
  let tl := LocalTime d in
  {| getTime := UTC (zone d) (tl / msPerMinute * msPerMinute + sec * msPerSecond + ms);
     zone := zone d |}.

(** [d.setMilliseconds(ms)]. *)
Definition setMilliseconds (d : t) (ms : Z) : t :=
  let tl := LocalTime d in
  {| getTime := UTC (zone d) (tl / msPerSecond * msPerSecond + ms);
     zone := zone d |}.

(** [d.setMinutes(min, sec, ms)]. *)
Definition setMinutes (d : t) (min sec ms : Z) : t :=
  let tl := LocalTime d in
  {| getTime :=
       UTC (zone d) (tl / msPerHour * msPerHour + min * msPerMinute + sec * msPerSecond + ms);
     zone := zone d |}.

End Date.

Import JS.

(* ===================================================================== *)
(** * config.ts: constants read from the process environment *)
(* ===================================================================== *)

Record Config := {
  ARB_SUM_THRESHOLD : number;
  ARB_SUM_LOW : number;
  ARB_PRICE_BUFFER : number;
  ARB_SIZE : number;
  ARB_DRY_RUN : bool;
  BOT_DRY_RUN : bool;
  POLYMARKET_MIN_USD : number;
  POLYMARKET_PRIVATE_KEY : string;
  POLYMARKET_PROXY : string;
  POLYMARKET_TICK_SIZE : string;
  POLYMARKET_NEG_RISK : bool;
  POLYMARKET_CLOB_URL : string;
  POLYMARKET_CHAIN_ID : option Z;
  POLYMARKET_CREDENTIAL_PATH : string;
  POLYMARKET_SIGNATURE_TYPE : Z
}.

(** [parseInt(input, 10)]: leading white space, a sign, then decimal digits;
    [None] is NaN.  The value is the integer read; what the conversion to a
    number does to integers beyond 2^53 plays no part in the uses that
    follow (comparisons with array lengths, and the chain id). *)
Definition parseInt10 (input : string) : option Z :=
  let '(neg, s) := read_sign (trim_start input) in
  let '(v, n, _) := span_digits 0 0 s in
  if n =? 0 then None else Some (if neg then - v else v).

(** Kalshi and Polymarket minimum order sizes (platform requirements). *)
Definition ARB_KALSHI_MIN : number := of_Z 1.
Definition ARB_POLY_MIN : number := of_Z 1.

(** [a ?? b] on an optional value. *)
Definition nullish {A} (a : option A) (b : A) : A :=
  match a with Some x => x | None => b end.

(** [process.env.K === s]. *)
Definition env_is (env : gmap string string) (k s : string) : bool :=
  match env !! k with Some v => String.eqb v s | None => false end.

(** The module initialiser of [config.ts], as a function of [process.env]. *)
Definition load_config (env : gmap string string) : Config := {|
  ARB_SUM_THRESHOLD := parseFloat (nullish (env !! "ARB_SUM_THRESHOLD"%string) "0.92"%string);
  ARB_SUM_LOW := parseFloat (nullish (env !! "ARB_SUM_LOW"%string) "0.75"%string);
  ARB_PRICE_BUFFER := parseFloat (nullish (env !! "ARB_PRICE_BUFFER"%string) "0.01"%string);
  ARB_SIZE :=
    parseFloat
      (match env !! "ARB_SIZE"%string with
       | Some v => v
       | None =>
           match env !! "ARB_KALSHI_CONTRACTS"%string with
           | Some v => v
           | None => nullish (env !! "ARB_POLY_SIZE"%string) "1"%string
           end
       end);
  ARB_DRY_RUN := env_is env "ARB_DRY_RUN" "true";
  BOT_DRY_RUN := env_is env "KALSHI_BOT_DRY_RUN" "true";
  POLYMARKET_MIN_USD := parseFloat (nullish (env !! "POLYMARKET_MIN_USD"%string) "1"%string);
  POLYMARKET_PRIVATE_KEY := nullish (env !! "POLYMARKET_PRIVATE_KEY"%string) ""%string;
  POLYMARKET_PROXY := nullish (env !! "POLYMARKET_PROXY"%string) ""%string;
  POLYMARKET_TICK_SIZE :=
    match env !! "POLYMARKET_TICK_SIZE"%string with
    | Some v => v
    | None => nullish (env !! "COPYTRADE_TICK_SIZE"%string) "0.01"%string
    end;
  POLYMARKET_NEG_RISK :=
    env_is env "POLYMARKET_NEG_RISK" "true" || env_is env "COPYTRADE_NEG_RISK" "true";
  POLYMARKET_CLOB_URL :=
    match env !! "POLYMARKET_CLOB_URL"%string with
    | Some v => v
    | None => nullish (env !! "CLOB_API_URL"%string) "https://clob.polymarket.com"%string
    end;
  POLYMARKET_CHAIN_ID :=
    parseInt10
      (match env !! "POLYMARKET_CHAIN_ID"%string with
       | Some v => v
       | None => nullish (env !! "CHAIN_ID"%string) "137"%string
       end);
  POLYMARKET_CREDENTIAL_PATH := nullish (env !! "POLYMARKET_CREDENTIAL_PATH"%string) ""%string;
  POLYMARKET_SIGNATURE_TYPE :=
    let raw := nullish (env !! "POLYMARKET_SIGNATURE_TYPE"%string) ""%string in
    if String.eqb raw "0" then 0
    else if String.eqb raw "1" then 1
    else if String.eqb raw "2" then 2
    else if truthy (nullish (env !! "POLYMARKET_PROXY"%string) ""%string) then 2 else 1
|}.

(* ===================================================================== *)
(** * Data model *)
(* ===================================================================== *)

(** The two arbitrage directions: Kalshi UP + Polymarket DOWN, and the
    reverse. *)
Inductive leg := UpLeg | DownLeg.

Inductive side := yes | no.

#[global] Instance leg_eq_dec : EqDecision leg := ltac:(solve_decision).

#[global] Instance side_eq_dec : EqDecision side := ltac:(solve_decision).

(** monitor.ts, [MarketPrices]: ask prices in cents; dates are epoch
    milliseconds. *)
Record MarketPrices := {
  ticker : string;
  upAskCents : number;
  downAskCents : number;
  lastPriceCents : number;
  mp_fetchedAt : Z
}.

(** polymarket-monitor.ts, [PolymarketPrices]. *)
Record PolymarketPrices := {
  slug : string;
  upAsk : number;
  downAsk : number;
  pp_fetchedAt : Z
}.

(** monitor.ts, [DualMarketPrices]. *)
Record DualMarketPrices := {
  kalshiTicker : string;
  kalshi : option MarketPrices;
  polymarket : option PolymarketPrices;
  fetchedAt : Z
}.

Record TokenIds := { upTokenId : string; downTokenId : string }.

(** The single-entry token-id cache of polymarket-monitor.ts. *)
Record CacheEntry := { c_slug : string; c_upTokenId : string; c_downTokenId : string }.

(** The module-level mutable state that outlives a tick: the two done-sets of
    arb.ts, the token-id cache of polymarket-monitor.ts, and the cached CLOB
    client of polymarket-order.ts ([cachedClient] tells whether the variable
    holds a client) with the key it was built for. *)
Record Mem := {
  upArbDoneTickers : gset string;
  downArbDoneTickers : gset string;
  tokenIdsCache : option CacheEntry;
  cachedClient : bool;
  cachedClientKey : string
}.

Definition mem0 : Mem :=
  {| upArbDoneTickers := ∅; downArbDoneTickers := ∅; tokenIdsCache := None;
     cachedClient := false; cachedClientKey := "" |}.

Definition doneTickers (l : leg) (m : Mem) : gset string :=
  match l with UpLeg => upArbDoneTickers m | DownLeg => downArbDoneTickers m end.

(** [{ orderId } | { error }]. *)
Inductive OrderResult :=
| OrderId (orderId : string)
| OrderError (error : string).

(** polymarket-order.ts, [PlacePolyResult] without its [null].  The error
    text of an order below the minimum is made of the price, the size and
    the minimum; [PolyBelowMin] keeps the three numbers. *)
Inductive PolyResult :=
| PolyOrderId (orderId : string)
| PolyError (error : string)
| PolyBelowMin (price size minUsd : number).

(** Exceptions. *)
Inductive Error :=
| ErrExternal (msg : string)
| ErrGammaStatus (status statusText slug : string)
| ErrMissingOutcomes (slug : string) (outcomes : list string)
| ErrMissingTokenIds (slug : string).

(** The lines written to the console and to the monitor log; the numbers are
    kept as numbers (their [toFixed] rendering is not modelled). *)
Inductive LogMsg :=
| MsgArbOpportunity (l : leg) (sum kalshiAsk polyAsk : number) (dry : bool)
                    (kalshiPriceCents polyPrice : number)
| MsgArbKalshiFailed (error : string)
| MsgArbPolyFailed (error : string)
| MsgArbPolyBelowMin (price size minUsd : number)
| MsgDryRunWouldPlace (ticker : string) (s : side) (count priceCents : number)
| MsgOrderPlaced (orderId ticker : string) (s : side) (count price : number)
| MsgOrderFailed (ticker msg : string)
| MsgPolyNotConfigured (tokenId : string) (price size : number)
| MsgPolyBelowMin (price size minUsd : number)
| MsgPolyFailed (error : string)
| MsgPolyPlaced (orderId tokenId : string) (roundedPrice size : number).

(** Observable actions, in program order.  [EvMarkDone] records the
    [Set.add] on a done-set; the others are console output, log-file appends
    and requests sent to the venues. *)
Inductive Event :=
| EvConsole (m : LogMsg)
| EvLogFile (m : LogMsg)
| EvMarkDone (l : leg) (ticker : string)
| EvKalshiGetMarket (ticker : string)
| EvKalshiCreateOrder (ticker : string) (s : side) (count price : number)
| EvGammaFetch (slug : string)
| EvClobBook (tokenId : string)
| EvClobDeriveApiKey
| EvClobPost (tokenId : string) (price size : number) (tickSize : string) (negRisk : bool).

(** A trace entry: the event, and the (ticker, leg) block of
    [checkArbAndPlaceOrders] it was issued from, if any. *)
Record Entry := { e_ctx : option (string * leg); e_ev : Event }.

(* ===================================================================== *)
(** * Effects: module state, trace and exceptions *)
(* ===================================================================== *)

Inductive Result (A : Type) :=
| Ok (a : A)
| Throw (e : Error).
Arguments Ok {A} a.
Arguments Throw {A} e.

Definition M (A : Type) : Type := Mem -> Result A * Mem * list Entry.

Definition ret {A} (a : A) : M A := fun m => (Ok a, m, []).

Definition bind {A B} (c : M A) (k : A -> M B) : M B :=
  fun m =>
    match c m with
    | (Ok a, m1, t1) =>
        let '(r, m2, t2) := k a m1 in (r, m2, t1 ++ t2)
    | (Throw e, m1, t1) => (Throw e, m1, t1)
    end.

Notation "x <- c ;; k" := (bind c (fun x => k))
  (at level 100, c at next level, right associativity).
Notation "c ;; k" := (bind c (fun _ => k))
  (at level 100, right associativity).

Definition throw {A} (e : Error) : M A := fun m => (Throw e, m, []).

Definition emit (e : Event) : M unit :=
  fun m => (Ok tt, m, [ {| e_ctx := None; e_ev := e |} ]).

Definition get : M Mem := fun m => (Ok m, m, []).
Definition put (m' : Mem) : M unit := fun _ => (Ok tt, m', []).

(** [try { c } catch { h }]. *)
Definition try_catch {A} (c : M A) (h : Error -> M A) : M A :=
  fun m =>
    match c m with
    | (Ok a, m1, t1) => (Ok a, m1, t1)
    | (Throw e, m1, t1) =>
        let '(r, m2, t2) := h e m1 in (r, m2, t1 ++ t2)
    end.

(** [await Promise.all([a, b])]: both computations are started, so the
    effects of [b] happen even when [a] fails; the result is the pair, or the
    first failure.  The trace lists the events of [a] before those of [b]:
    the pairs the sources run this way work on disjoint parts of the module
    state, so the order in which their requests settle does not show in the
    results. *)
Definition promise_all2 {A B} (a : M A) (b : M B) : M (A * B) :=
  fun m =>
    let '(ra, m1, t1) := a m in
    let '(rb, m2, t2) := b m1 in
    (match ra, rb with
     | Ok x, Ok y => Ok (x, y)
     | Throw e, _ => Throw e
     | _, Throw e => Throw e
     end, m2, t1 ++ t2).

(** The events of [c] are attributed to the block handling leg [l] of
    market [t]. *)
Definition tag (t : string) (l : leg) (tr : list Entry) : list Entry :=
  map (fun e => {| e_ctx := Some (t, l); e_ev := e_ev e |}) tr.

Definition in_leg {A} (t : string) (l : leg) (c : M A) : M A :=
  fun m =>
    let '(r, m1, tr) := c m in (r, m1, tag t l tr).

(** [console.log(msg); appendMonitorLogWithTimestamp(msg)]. *)
Definition say (msg : LogMsg) : M unit :=
  emit (EvConsole msg) ;; emit (EvLogFile msg).

Definition appendMonitorLogWithTimestamp (msg : LogMsg) : M unit :=
  emit (EvLogFile msg).

(* ===================================================================== *)
(** * Outcomes of the external calls *)
(* ===================================================================== *)

(** [ordersApi.createOrder]: it throws, or answers with an order whose id may
    be missing. *)
Inductive CreateOrderOutcome :=
| CreateOrderThrows (msg : string)
| CreateOrderResp (order_id : option string).

(** The CLOB library and the order request: the import of the library in
    [placePolymarketOrder] throws; [createAndPostOrder] throws; or it answers
    with the fields [orderID], [orderId] and [error].  An exception comes
    with its message and, if it carries response data, the data stringified. *)
Inductive ClobOutcome :=
| ClobClientThrows (msg : string) (detail : option string)
| ClobPostThrows (msg : string) (detail : option string)
| ClobResp (orderID orderId error : option string).

(** What [buildClobClient] meets: an exception (message and stringified
    response data) of the imports or of [new Wallet]; whether the credential
    file exists; an exception of reading the file and taking the credentials
    from its JSON; an exception of [createOrDeriveApiKey].  The two
    [new ClobClient(...)] only store their arguments. *)
Record BuildOracle := {
  b_setup : option (string * option string);
  b_fileExists : bool;
  b_readFile : option (string * option string);
  b_derive : option (string * option string)
}.

(** A Gamma API field: an array, a string (with the result of [JSON.parse]
    when that is an array) or anything else. *)
Inductive Raw :=
| RawArray (l : list string)
| RawString (parsed : option (list string))
| RawOther.

(** [fetch(gamma url)] and [res.json()]. *)
Inductive GammaOutcome :=
| GammaFetchThrows (msg : string)
| GammaNotOk (status statusText : string)
| GammaJsonThrows (msg : string)
| GammaData (outcomes clobTokenIds : Raw) (conditionId : option string).

(** What one call of [checkArbAndPlaceOrders] meets outside the process. *)
Record ArbOracle := {
  o_createOrder : CreateOrderOutcome;
  o_gamma : GammaOutcome;
  o_build : BuildOracle;
  o_clob : ClobOutcome
}.

(** polymarket-order.ts, [PlacePolymarketOrderOptions]. *)
Record PlacePolymarketOrderOptions := {
  opt_tickSize : option string;
  opt_negRisk : option bool;
  opt_forcePlace : bool
}.

Record FreshIds := {
  f_upTokenId : string;
  f_downTokenId : string;
  f_conditionId : string
}.

(** A market of the Kalshi API: the integer-cent fields may be missing, and so
    may their dollar-string companions. *)
Record KalshiMarket := {
  m_ticker : string;
  yes_ask : option number;
  yes_ask_dollars : option string;
  no_ask : option number;
  no_ask_dollars : option string;
  last_price : option number;
  last_price_dollars : option string
}.

(** [marketApi.getMarket] together with the reads of [res.data.market]. *)
Inductive GetMarketOutcome :=
| GetMarketThrows (msg : string)
| GetMarketResp (market : option KalshiMarket).

(** [fetch(book url)] and [res.json()]; [asks] is [None] when the field is
    not an array, and otherwise lists the [price] strings of the levels. *)
Inductive BookOutcome :=
| BookFetchThrows (msg : string)
| BookNotOk
| BookJsonThrows (msg : string)
| BookData (asks : option (list string)).

(** What one call of [getDualPrices] meets outside the process: the clock
    readings (the one of [slugForCurrent15m] as a date, for its local time)
    and the answers of the venues. *)
Record FetchOracle := {
  f_startAt : Z;
  f_kalshiDoneAt : Z;
  f_polyStartAt : Date.t;
  f_polyDoneAt : Z;
  f_getMarket : GetMarketOutcome;
  f_gamma : GammaOutcome;
  f_bookUp : BookOutcome;
  f_bookDown : BookOutcome
}.

(* ===================================================================== *)
(** * The program *)
(* ===================================================================== *)

Section Program.

Variable cfg : Config.

(** ** arb.ts *)

Definition inRange (sum : number) : bool :=
  isFinite sum && ge sum (ARB_SUM_LOW cfg) && lt sum (ARB_SUM_THRESHOLD cfg).

(** ** bot.ts *)

(** [placeOrder(ticker, side, count, priceCents, options)]; [arbLive] is
    the truthiness of [options?.arbLive]. *)
Definition placeOrder (ticker : string) (s : side) (count priceCents : number)
           (arbLive : bool) (net : CreateOrderOutcome) : M OrderResult :=
  let dryRun := if arbLive then false else BOT_DRY_RUN cfg in
  if dryRun then
    say (MsgDryRunWouldPlace ticker s count priceCents) ;;
    ret (OrderId "dry-run")
  else
    let price := Math_max (of_Z 1) (Math_min (of_Z 99) priceCents) in
    emit (EvKalshiCreateOrder ticker s count price) ;;
    match net with
    | CreateOrderResp order_id =>
        let orderId := nullish order_id "unknown"%string in
        say (MsgOrderPlaced orderId ticker s count price) ;;
        ret (OrderId orderId)
    | CreateOrderThrows msg =>
        say (MsgOrderFailed ticker msg) ;;
        ret (OrderError msg)
    end.

(** ** polymarket-order.ts *)

(** Round a price to the decimal places of the tick size. *)
Definition roundPriceToTickSize (price : number) (tickSize : string) : number :=
  let decimals :=
    if String.eqb tickSize "0.01" then 2
    else if String.eqb tickSize "0.001" then 3
    else if String.eqb tickSize "0.0001" then 4
    else 4 in
  let mult := of_Z (10 ^ decimals) in
  div (Math_round (mul price mult)) mult.

Definition set_client (b : bool) (key : string) (m : Mem) : Mem :=
  {| upArbDoneTickers := upArbDoneTickers m;
     downArbDoneTickers := downArbDoneTickers m;
     tokenIdsCache := tokenIdsCache m;
     cachedClient := b;
     cachedClientKey := key |}.

(** [getClientKey()].  The chain id is rendered as the decimal digits of the
    integer that [parseInt] read, which is what the template literal gives
    below 10^21. *)
Definition getClientKey : string :=
  (POLYMARKET_CLOB_URL cfg ++ "|"
   ++ match POLYMARKET_CHAIN_ID cfg with Some z => pretty z | None => "NaN" end ++ "|"
   ++ (if truthy (POLYMARKET_CREDENTIAL_PATH cfg) then POLYMARKET_CREDENTIAL_PATH cfg
       else "derive") ++ "|"
   ++ pretty (POLYMARKET_SIGNATURE_TYPE cfg))%string.

(** [clearPolymarketClientCache()]. *)
Definition clearPolymarketClientCache : M unit :=
  m <- get ;; put (set_client false "" m).

(** [buildClobClient()]: the credentials come from the file, when a path is
    set and the file exists, and from a [createOrDeriveApiKey] request
    otherwise.  [Some] is the exception of a build that fails. *)
Definition buildClobClient (b : BuildOracle) : M (option (string * option string)) :=
  match b_setup b with
  | Some e => ret (Some e)
  | None =>
      if truthy (POLYMARKET_CREDENTIAL_PATH cfg) && b_fileExists b then
        ret (b_readFile b)
      else
        emit EvClobDeriveApiKey ;;
        ret (b_derive b)
  end.

(** [getClobClient()]: the cached client, when there is one and it was built
    for the current key; otherwise a new client, which is stored with the
    key once it is built.  [Some] is the exception of a build that fails. *)
Definition getClobClient (b : BuildOracle) : M (option (string * option string)) :=
  let key := getClientKey in
  m <- get ;;
  if cachedClient m && String.eqb (cachedClientKey m) key then ret None
  else
    r <- buildClobClient b ;;
    match r with
    | Some e => ret (Some e)
    | None =>
        m' <- get ;;
        put (set_client true key m') ;;
        ret None
    end.

(** [placePolymarketOrder(tokenId, price, size, options)]: [None] is the
    [null] of "not configured" and of the dry run; the order is posted at the
    price rounded to the tick. *)
Definition placePolymarketOrder (tokenId : string) (price size : number)
           (options : option PlacePolymarketOrderOptions)
           (build : BuildOracle) (net : ClobOutcome)
  : M (option PolyResult) :=
  if negb (truthy (POLYMARKET_PRIVATE_KEY cfg)) || negb (truthy (POLYMARKET_PROXY cfg)) then
    say (MsgPolyNotConfigured tokenId price size) ;;
    ret None
  else if ARB_DRY_RUN cfg && negb (match options with Some o => opt_forcePlace o | None => false end) then
    ret None
  else
    let minUsd :=
      if lt (of_Z 0) (POLYMARKET_MIN_USD cfg) then POLYMARKET_MIN_USD cfg else of_Z 1 in
    if lt (mul price size) minUsd then
      say (MsgPolyBelowMin price size minUsd) ;;
      ret (Some (PolyBelowMin price size minUsd))
    else
      let catch (msg : string) (detail : option string) : M (option PolyResult) :=
        let error := match detail with Some d => (msg ++ d)%string | None => msg end in
        say (MsgPolyFailed error) ;;
        ret (Some (PolyError error)) in
      match net with
      | ClobClientThrows msg detail => catch msg detail
      | _ =>
          failed <- getClobClient build ;;
          match failed with
          | Some (msg, detail) => catch msg detail
          | None =>
              let tickSize :=
                nullish (match options with Some o => opt_tickSize o | None => None end)
                        (POLYMARKET_TICK_SIZE cfg) in
              let negRisk :=
                nullish (match options with Some o => opt_negRisk o | None => None end)
                        (POLYMARKET_NEG_RISK cfg) in
              let roundedPrice := roundPriceToTickSize price tickSize in
              emit (EvClobPost tokenId roundedPrice size tickSize negRisk) ;;
              match net with
              | ClobResp orderID orderId' error =>
                  let orderId := match orderID with Some i => Some i | None => orderId' end in
                  if (match error with Some e => truthy e | None => false end)
                     || negb (match orderId with Some i => truthy i | None => false end)
                  then
                    let errMsg := nullish error "No order ID in response"%string in
                    say (MsgPolyFailed errMsg) ;;
                    ret (Some (PolyError errMsg))
                  else
                    let i := nullish orderId ""%string in
                    say (MsgPolyPlaced i tokenId roundedPrice size) ;;
                    ret (Some (PolyOrderId i))
              | ClobPostThrows msg detail => catch msg detail
              | ClobClientThrows msg detail => catch msg detail
              end
          end
      end.

(** ** polymarket-monitor.ts: token ids and their one-entry cache *)

Definition parseJsonArray (raw : Raw) : list string :=
  match raw with
  | RawArray l => l
  | RawString (Some l) => l
  | RawString None => []
  | RawOther => []
  end.

(** [Array.prototype.indexOf]: the first index, or -1. *)
Fixpoint indexOf_from (l : list string) (x : string) (i : Z) : Z :=
  match l with
  | [] => -1
  | y :: r => if String.eqb y x then i else indexOf_from r x (i + 1)
  end.

Definition indexOf (l : list string) (x : string) : Z := indexOf_from l x 0.

(** [!tokenIds[i]]: the element is missing or the empty string. *)
Definition elem_truthy (l : list string) (i : Z) : bool :=
  match l !! Z.to_nat i with Some s => truthy s | None => false end.

Definition fetchTokenIdsForSlug (slug : string) (net : GammaOutcome) : M FreshIds :=
  emit (EvGammaFetch slug) ;;
  match net with
  | GammaFetchThrows msg => throw (ErrExternal msg)
  | GammaNotOk status statusText => throw (ErrGammaStatus status statusText slug)
  | GammaJsonThrows msg => throw (ErrExternal msg)
  | GammaData outcomes_raw ids_raw conditionId =>
      let outcomes := parseJsonArray outcomes_raw in
      let tokenIds := parseJsonArray ids_raw in
      let conditionId := nullish conditionId ""%string in
      let upIdx := indexOf outcomes "Up" in
      let downIdx := indexOf outcomes "Down" in
      if (upIdx <? 0) || (downIdx <? 0) then throw (ErrMissingOutcomes slug outcomes)
      else if negb (elem_truthy tokenIds upIdx) || negb (elem_truthy tokenIds downIdx)
      then throw (ErrMissingTokenIds slug)
      else
        ret {| f_upTokenId := nullish (tokenIds !! Z.to_nat upIdx) ""%string;
               f_downTokenId := nullish (tokenIds !! Z.to_nat downIdx) ""%string;
               f_conditionId := conditionId |}
  end.

Definition set_tokenIdsCache (c : option CacheEntry) (m : Mem) : Mem :=
  {| upArbDoneTickers := upArbDoneTickers m;
     downArbDoneTickers := downArbDoneTickers m;
     tokenIdsCache := c;
     cachedClient := cachedClient m;
     cachedClientKey := cachedClientKey m |}.

(** [c && c.slug === slug]: the entry that the call can answer from. *)
Definition cache_hit (c : option CacheEntry) (slug : string) : option CacheEntry :=
  match c with
  | Some e => if String.eqb (c_slug e) slug then Some e else None
  | None => None
  end.

Definition getTokenIdsForSlugCached (slug : string) (net : GammaOutcome) : M TokenIds :=
  m <- get ;;
  match cache_hit (tokenIdsCache m) slug with
  | Some c => ret {| upTokenId := c_upTokenId c; downTokenId := c_downTokenId c |}
  | None =>
      fresh <- fetchTokenIdsForSlug slug net ;;
      m' <- get ;;
      put (set_tokenIdsCache
             (Some {| c_slug := slug; c_upTokenId := f_upTokenId fresh;
                      c_downTokenId := f_downTokenId fresh |}) m') ;;
      ret {| upTokenId := f_upTokenId fresh; downTokenId := f_downTokenId fresh |}
  end.

(** ** arb.ts: the detector and executor *)

Definition markDone (l : leg) (t : string) (m : Mem) : Mem :=
  match l with
  | UpLeg =>
      {| upArbDoneTickers := {[ t ]} ∪ upArbDoneTickers m;
         downArbDoneTickers := downArbDoneTickers m;
         tokenIdsCache := tokenIdsCache m;
         cachedClient := cachedClient m;
         cachedClientKey := cachedClientKey m |}
  | DownLeg =>
      {| upArbDoneTickers := upArbDoneTickers m;
         downArbDoneTickers := {[ t ]} ∪ downArbDoneTickers m;
         tokenIdsCache := tokenIdsCache m;
         cachedClient := cachedClient m;
         cachedClientKey := cachedClientKey m |}
  end.

Definition legSide (l : leg) : side :=
  match l with UpLeg => yes | DownLeg => no end.

Definition legToken (l : leg) (ids : TokenIds) : string :=
  match l with UpLeg => downTokenId ids | DownLeg => upTokenId ids end.

(** The body of one leg block of [checkArbAndPlaceOrders], entered when the
    leg's sum is in range.  The source writes the block twice: for the UP
    leg with [upArbDoneTickers], side "yes", [kUp], [polyDown] and the
    DOWN token; for the DOWN leg with [downArbDoneTickers], side "no",
    [kDown], [polyUp] and the UP token.  [arbLegOrders] is the part of the
    block that follows the [add] on the done-set. *)
Definition arbLegOrders (l : leg) (kalshiTicker : string) (sum kAsk polyAsk : number)
           (polySlug : string) (kalshiContracts polySize : number)
           (o : ArbOracle) : M unit :=
  let kalshiPriceCents :=
    Math_round (mul (add kAsk (ARB_PRICE_BUFFER cfg)) (of_Z 100)) in
  let polyPrice := Math_min (of_Z 1) (add polyAsk (ARB_PRICE_BUFFER cfg)) in
  say (MsgArbOpportunity l sum kAsk polyAsk (ARB_DRY_RUN cfg)
                         kalshiPriceCents polyPrice) ;;
  if negb (ARB_DRY_RUN cfg) then
    r <- promise_all2
           (placeOrder kalshiTicker (legSide l) kalshiContracts
                       kalshiPriceCents true (o_createOrder o))
           (getTokenIdsForSlugCached polySlug (o_gamma o)) ;;
    let '(kalshiResult, tokenIds) := r in
    match kalshiResult with
    | OrderError e => appendMonitorLogWithTimestamp (MsgArbKalshiFailed e)
    | OrderId _ => ret tt
    end ;;
    polyResult <- placePolymarketOrder (legToken l tokenIds) polyPrice polySize
                                       None (o_build o) (o_clob o) ;;
    match polyResult with
    | Some (PolyError e) => appendMonitorLogWithTimestamp (MsgArbPolyFailed e)
    | Some (PolyBelowMin price size minUsd) =>
        appendMonitorLogWithTimestamp (MsgArbPolyBelowMin price size minUsd)
    | _ => ret tt
    end
  else ret tt.

Definition arbLeg (l : leg) (kalshiTicker : string) (sum kAsk polyAsk : number)
           (polySlug : string) (kalshiContracts polySize : number)
           (o : ArbOracle) : M unit :=
  m <- get ;;
  if bool_decide (kalshiTicker ∈ doneTickers l m) then ret tt
  else
    in_leg kalshiTicker l
      (put (markDone l kalshiTicker m) ;;
       emit (EvMarkDone l kalshiTicker) ;;
       arbLegOrders l kalshiTicker sum kAsk polyAsk polySlug
                    kalshiContracts polySize o).

Definition checkArbAndPlaceOrders (p : DualMarketPrices) (o : ArbOracle) : M unit :=
  match kalshi p, polymarket p with
  | Some k, Some pm =>
      let kalshiTicker := kalshiTicker p in
      let kUp := div (upAskCents k) (of_Z 100) in
      let kDown := div (downAskCents k) (of_Z 100) in
      let polyUp := upAsk pm in
      let polyDown := downAsk pm in
      let sumUp := add kUp polyDown in
      let sumDown := add kDown polyUp in
      let kalshiContracts := Math_max ARB_KALSHI_MIN (Math_round (ARB_SIZE cfg)) in
      let polySize := Math_max ARB_POLY_MIN (ARB_SIZE cfg) in
      if inRange sumUp then
        arbLeg UpLeg kalshiTicker sumUp kUp polyDown (slug pm) kalshiContracts polySize o
      else if inRange sumDown then
        arbLeg DownLeg kalshiTicker sumDown kDown polyUp (slug pm) kalshiContracts polySize o
      else ret tt
  | _, _ => ret tt
  end.

(** ** monitor.ts: the Kalshi reader *)

Definition dollarsToCents (dollars : option string) : number :=
  match dollars with
  | None => of_Z 0
  | Some d =>
      if String.eqb d "" then of_Z 0
      else
        let n := parseFloat d in
        if isFinite n then Math_round (mul n (of_Z 100)) else of_Z 0
  end.

(** [getMarketPrices(ticker)]; [now] is the [new Date()] of the snapshot.
    The [MarketApi] client, built once and reused, is not part of the model. *)
Definition getMarketPrices (ticker : string) (now : Z) (net : GetMarketOutcome)
  : M (option MarketPrices) :=
  try_catch
    (emit (EvKalshiGetMarket ticker) ;;
     match net with
     | GetMarketThrows msg => throw (ErrExternal msg)
     | GetMarketResp None => ret None
     | GetMarketResp (Some m) =>
         ret (Some {| ticker := m_ticker m;
                      upAskCents :=
                        match yes_ask m with
                        | Some a => a
                        | None => dollarsToCents (yes_ask_dollars m)
                        end;
                      downAskCents :=
                        match no_ask m with
                        | Some a => a
                        | None => dollarsToCents (no_ask_dollars m)
                        end;
                      lastPriceCents :=
                        match last_price m with
                        | Some a => a
                        | None => dollarsToCents (last_price_dollars m)
                        end;
                      mp_fetchedAt := now |})
     end)
    (fun _ => ret None).

(** ** polymarket-monitor.ts: the Polymarket reader *)

(** [slugForCurrent15m(market)]; [now] is its [new Date()].  The slot is
    found by rewriting the seconds, the milliseconds and the minutes of the
    local time of the date. *)
Definition slugForCurrent15m (market : string) (now : Date.t) : string :=
  let d := now in
  let d := Date.setSeconds d 0 0 in
  let d := Date.setMilliseconds d 0 in
  let m := Date.getMinutes d in
  let slotMin := (m / 15) * 15 in
  let d := Date.setMinutes d slotMin 0 0 in
  let timestamp := Date.getTime d / 1000 in
  (market ++ "-updown-15m-" ++ pretty timestamp)%string.

Definition getBestAskForToken (tokenId : string) (net : BookOutcome)
  : M (option number) :=
  emit (EvClobBook tokenId) ;;
  match net with
  | BookFetchThrows msg => throw (ErrExternal msg)
  | BookNotOk => ret None
  | BookJsonThrows msg => throw (ErrExternal msg)
  | BookData None => ret None
  | BookData (Some []) => ret None
  | BookData (Some asks) =>
      let best :=
        fold_left
          (fun best price =>
             let p := parseFloat price in
             if isFinite p && lt p best then p else best)
          asks Infinity in
      ret (if eq best Infinity then None else Some best)
  end.

Definition getPolymarketAskPrices (market : string) (startAt : Date.t) (doneAt : Z)
           (gamma : GammaOutcome) (bookUp bookDown : BookOutcome)
  : M (option PolymarketPrices) :=
  let slug := slugForCurrent15m market startAt in
  try_catch
    (ids <- getTokenIdsForSlugCached slug gamma ;;
     r <- promise_all2 (getBestAskForToken (upTokenId ids) bookUp)
                       (getBestAskForToken (downTokenId ids) bookDown) ;;
     match r with
     | (Some upAsk, Some downAsk) =>
         ret (Some {| slug := slug; upAsk := upAsk; downAsk := downAsk;
                      pp_fetchedAt := doneAt |})
     | _ => ret None
     end)
    (fun _ => ret None).

(** ** monitor.ts: both venues at once *)

Definition getDualPrices (kalshiTicker : string) (polymarketMarket : option string)
           (o : FetchOracle) : M DualMarketPrices :=
  let fetchedAt := f_startAt o in
  r <- promise_all2
         (getMarketPrices kalshiTicker (f_kalshiDoneAt o) (f_getMarket o))
         (getPolymarketAskPrices (nullish polymarketMarket "btc"%string)
                                 (f_polyStartAt o) (f_polyDoneAt o)
                                 (f_gamma o) (f_bookUp o) (f_bookDown o)) ;;
  let '(kalshiResult, polymarketResult) := r in
  ret {| kalshiTicker := kalshiTicker;
         kalshi := kalshiResult;
         polymarket := polymarketResult;
         fetchedAt := fetchedAt |}.

End Program.

(* ===================================================================== *)
(** * monitor.ts: the self-pacing poll loop *)
(* ===================================================================== *)

(** The loop is single-threaded and cooperative: [poll] runs until it
    suspends at an [await] or returns, and it is resumed when the awaited
    promise settles.  The model is the transition system of these atomic
    runs.  Times are integer milliseconds ([Date.now()]); the interval is the
    integer that [parseInt] read from the environment. *)

Module Monitor.

Record Options := {
  opt_kalshiTicker : option string;
  opt_polymarketMarket : option string;
  opt_intervalMs : option Z;
  opt_restartProcessOnQuarterHour : option bool
}.

Definition DEFAULT_POLL_MS : Z := 2000.

(** The constants of the closure of [startDualPriceMonitor]. *)
Record Consts := {
  intervalMs : Z;
  useAutoRefresh : bool;
  restartOnQuarterHour : bool;
  polymarketMarket : string
}.

(** A suspended activation of [poll] and the [startedAt] it holds. *)
Inductive Await :=
| AwaitMarkets (startedAt : Z)
| AwaitDual (startedAt : Z).

(** The variables of the closure, the pending [setTimeout(poll, delay)]
    calls, the suspended activations of [poll], and whether
    [process.exit] was called. *)
Record State := {
  kalshiTicker : option string;
  lastSlot : string;
  stopped : bool;
  pollInProgress : bool;
  timers : list Z;
  awaiting : list Await;
  exited : bool
}.

Inductive Ev :=
| SetTimeout (delay : Z)
| FetchStart (ticker : string) (market : string)
| OnPrices (dual : DualMarketPrices)
| OnError
| RefreshMarkets
| SpawnAndExit
| Skipped.

Definition set_kalshiTicker (t : option string) (s : State) : State :=
  {| kalshiTicker := t; lastSlot := lastSlot s; stopped := stopped s;
     pollInProgress := pollInProgress s; timers := timers s;
     awaiting := awaiting s; exited := exited s |}.

Definition set_lastSlot (x : string) (s : State) : State :=
  {| kalshiTicker := kalshiTicker s; lastSlot := x; stopped := stopped s;
     pollInProgress := pollInProgress s; timers := timers s;
     awaiting := awaiting s; exited := exited s |}.

Definition set_stopped (b : bool) (s : State) : State :=
  {| kalshiTicker := kalshiTicker s; lastSlot := lastSlot s; stopped := b;
     pollInProgress := pollInProgress s; timers := timers s;
     awaiting := awaiting s; exited := exited s |}.

Definition set_pollInProgress (b : bool) (s : State) : State :=
  {| kalshiTicker := kalshiTicker s; lastSlot := lastSlot s; stopped := stopped s;
     pollInProgress := b; timers := timers s;
     awaiting := awaiting s; exited := exited s |}.

Definition set_timers (l : list Z) (s : State) : State :=
  {| kalshiTicker := kalshiTicker s; lastSlot := lastSlot s; stopped := stopped s;
     pollInProgress := pollInProgress s; timers := l;
     awaiting := awaiting s; exited := exited s |}.

Definition set_awaiting (l : list Await) (s : State) : State :=
  {| kalshiTicker := kalshiTicker s; lastSlot := lastSlot s; stopped := stopped s;
     pollInProgress := pollInProgress s; timers := timers s;
     awaiting := l; exited := exited s |}.

Definition set_exited (b : bool) (s : State) : State :=
  {| kalshiTicker := kalshiTicker s; lastSlot := lastSlot s; stopped := stopped s;
     pollInProgress := pollInProgress s; timers := timers s;
     awaiting := awaiting s; exited := b |}.

(** [!kalshiTicker]. *)
Definition ticker_falsy (t : option string) : bool :=
  match t with Some x => negb (truthy x) | None => true end.

Section Loop.

Variable c : Consts.

(** [scheduleNext(startedAt)], with [now] the value of [Date.now()]. *)
Definition scheduleNext (startedAt now : Z) (s : State) : State * list Ev :=
  if stopped s then (s, [])
  else
    let elapsed := now - startedAt in
    let delay := Z.max 0 (intervalMs c - elapsed) in
    (set_timers (timers s ++ [delay]) s, [SetTimeout delay]).

(** The [finally] block of [poll]. *)
Definition poll_finally (r : State * list Ev) : State * list Ev :=
  (set_pollInProgress false (fst r), snd r).

(** [poll] from the test [stopped || !kalshiTicker] up to the
    [await getDualPrices(...)]. *)
Definition poll_fetch (startedAt now : Z) (s : State) : State * list Ev :=
  if stopped s || ticker_falsy (kalshiTicker s) then
    poll_finally (scheduleNext startedAt now s)
  else
    (set_awaiting (awaiting s ++ [AwaitDual startedAt]) s,
     [FetchStart (nullish (kalshiTicker s) ""%string) (polymarketMarket c)]).

(** [poll] from its entry to its first suspension or its return; [now]
    is the [Date.now()] stored in [startedAt], [slot] the value of
    [current15mSlot()], [now'] the later [Date.now()] of [scheduleNext]. *)
Definition poll_enter (now : Z) (slot : string) (now' : Z) (s : State)
  : State * list Ev :=
  if pollInProgress s then (s, [Skipped])
  else
    let s := set_pollInProgress true s in
    let startedAt := now in
    if stopped s then poll_finally (s, [])
    else if useAutoRefresh c && negb (String.eqb slot (lastSlot s)) then
      let s := set_lastSlot slot s in
      if restartOnQuarterHour c then (set_exited true s, [SpawnAndExit])
      else (set_awaiting (awaiting s ++ [AwaitMarkets startedAt]) s, [RefreshMarkets])
    else poll_fetch startedAt now' s.

(** [poll] resumed after [await getBitcoinUpDownMarkets()]: the call
    failed ([None]) or returned the tickers of the open markets. *)
Definition poll_resume_markets (startedAt : Z) (res : option (list string))
           (now : Z) (s : State) : State * list Ev :=
  match res with
  | None => poll_finally (s, [])
  | Some markets =>
      let s := match markets with
               | t :: _ => set_kalshiTicker (Some t) s
               | [] => s
               end in
      poll_fetch startedAt now s
  end.

(** How [try { options.onPrices(dual) } catch (e) { options.onError?.(e) }]
    ends: [onPrices] returns; it throws and the error is handled ([onError]
    is absent, or it returns); or it throws and [onError] throws in its turn,
    so that the exception leaves [poll] through its [finally] block. *)
Inductive Callback := CbReturns | CbHandled | CbEscapes.

(** [poll] resumed after [await getDualPrices(...)]: the callback runs
    (it may call the stop function), then [scheduleNext], unless an
    exception leaves the callback part. *)
Definition poll_resume_dual (startedAt : Z) (dual : DualMarketPrices)
           (cb : Callback) (cb_stops : bool) (now : Z) (s : State) : State * list Ev :=
  if stopped s then poll_finally (s, [])
  else
    let s := if cb_stops then set_stopped true s else s in
    match cb with
    | CbReturns =>
        let '(s', ev) := scheduleNext startedAt now s in
        poll_finally (s', OnPrices dual :: ev)
    | CbHandled =>
        let '(s', ev) := scheduleNext startedAt now s in
        poll_finally (s', OnPrices dual :: OnError :: ev)
    | CbEscapes => poll_finally (s, [OnPrices dual; OnError])
    end.

(** What the event loop can run next. [DirectPoll] is a call of [poll]
    that no timer of the loop asked for. *)
Inductive Label :=
| TimerFires (i : nat) (now : Z) (slot : string) (now' : Z)
| DirectPoll (now : Z) (slot : string) (now' : Z)
| MarketsSettle (i : nat) (res : option (list string)) (now : Z)
| DualSettles (i : nat) (dual : DualMarketPrices) (cb : Callback) (cb_stops : bool) (now : Z)
| StopCalled.

Definition step (l : Label) (s : State) : State * list Ev :=
  if exited s then (s, [])
  else
    match l with
    | TimerFires i now slot now' =>
        match timers s !! i with
        | Some _ => poll_enter now slot now' (set_timers (delete i (timers s)) s)
        | None => (s, [])
        end
    | DirectPoll now slot now' => poll_enter now slot now' s
    | MarketsSettle i res now =>
        match awaiting s !! i with
        | Some (AwaitMarkets startedAt) =>
            poll_resume_markets startedAt res now
                                (set_awaiting (delete i (awaiting s)) s)
        | _ => (s, [])
        end
    | DualSettles i dual cb cb_stops now =>
        match awaiting s !! i with
        | Some (AwaitDual startedAt) =>
            poll_resume_dual startedAt dual cb cb_stops now
                             (set_awaiting (delete i (awaiting s)) s)
        | _ => (s, [])
        end
    | StopCalled => (set_stopped true s, [])
    end.

Fixpoint run (ls : list Label) (s : State) : State * list Ev :=
  match ls with
  | [] => (s, [])
  | l :: ls' =>
      let '(s1, e1) := step l s in
      let '(s2, e2) := run ls' s1 in
      (s2, e1 ++ e2)
  end.

(** Number of [getDualPrices] calls in flight. *)
Definition is_dual (a : Await) : bool :=
  match a with AwaitDual _ => true | AwaitMarkets _ => false end.

Definition inFlight (s : State) : nat := length (filter (fun a => is_dual a = true) (awaiting s)).

(** The labels the program itself gives rise to. *)
Definition scheduled (l : Label) : bool :=
  match l with DirectPoll _ _ _ => false | _ => true end.

(** The delay the specification asks for: [max(0, interval - elapsed)], with
    the elapsed time counted from the start of the tick. *)
Definition tick_delay (startedAt now : Z) : Z :=
  Z.max 0 (intervalMs c - (now - startedAt)).

Definition startedAt_of (a : Await) : Z :=
  match a with AwaitMarkets t | AwaitDual t => t end.

(** The start time of the tick that a label begins or continues. *)
Definition tick_start (l : Label) (s : State) : option Z :=
  match l with
  | TimerFires _ t0 _ _ | DirectPoll t0 _ _ => Some t0
  | MarketsSettle i _ _ | DualSettles i _ _ _ _ =>
      match awaiting s !! i with Some a => Some (startedAt_of a) | None => None end
  | StopCalled => None
  end.

(** The [Date.now()] that [scheduleNext] reads when the label runs it. *)
Definition label_now (l : Label) : Z :=
  match l with
  | TimerFires _ _ _ now' | DirectPoll _ _ now' => now'
  | MarketsSettle _ _ now | DualSettles _ _ _ _ now => now
  | StopCalled => 0
  end.

(** The delays of the [setTimeout] calls among the events. *)
Fixpoint timersSet (ev : list Ev) : list Z :=
  match ev with
  | [] => []
  | SetTimeout d :: r => d :: timersSet r
  | _ :: r => timersSet r
  end.

(** At most one activation of [poll] is suspended, and only while the
    in-flight flag is set. *)
Definition guarded (s : State) : Prop :=
  (length (awaiting s) <= 1)%nat /\ (pollInProgress s = false -> awaiting s = []).

(** The loop is a chain: a pending timer or a running tick, never both and
    never two. *)
Definition chained (s : State) : Prop :=
  (length (timers s) + length (awaiting s) <= 1)%nat.

End Loop.

(** [startDualPriceMonitor(options)] up to its [setTimeout(poll, 0)];
    [slot] is [current15mSlot()] and [markets] the outcome of
    [getBitcoinUpDownMarkets()] when it is called.  [None] when the
    function throws. *)
Definition startDualPriceMonitor (options : Options) (slot : string)
           (markets : option (list string)) : option (Consts * State) :=
  let useAuto := ticker_falsy (opt_kalshiTicker options) in
  let ticker :=
    if useAuto then
      match markets with
      | Some (t :: _) => Some (Some t)
      | _ => None
      end
    else Some (opt_kalshiTicker options) in
  match ticker with
  | None => None
  | Some t =>
      Some ({| intervalMs := nullish (opt_intervalMs options) DEFAULT_POLL_MS;
               useAutoRefresh := useAuto;
               restartOnQuarterHour :=
                 nullish (opt_restartProcessOnQuarterHour options) useAuto;
               polymarketMarket := nullish (opt_polymarketMarket options) "btc"%string |},
            {| kalshiTicker := t; lastSlot := slot; stopped := false;
               pollInProgress := false; timers := [0]; awaiting := [];
               exited := false |})
  end.

End Monitor.


(* ===================================================================== *)
(** * bot.ts: the market listing and the one-order bot *)
(* ===================================================================== *)

(** The integer read by [parseInt] as a number; ["-0"] reads as [-0]. *)
Definition parseInt10_number (input : string) : number :=
  match parseInt10 input with
  | None => NaN
  | Some 0 => S754_zero (fst (read_sign (trim_start input)))
  | Some z => of_Z z
  end.

(** The constants of [config.ts] that the bot reads.  [BOT_SIDE] is the
    environment value cast to ["yes" | "no"]; the model covers the
    environments in which it is one of the two. *)
Record BotConfig := {
  BOT_MAX_MARKETS : option Z;
  BOT_SIDE : side;
  BOT_PRICE_CENTS : number;
  BOT_CONTRACTS : number
}.

Definition BTC_SERIES_TICKER : string := "KXBTC15M".

Definition load_bot_config (env : gmap string string) : BotConfig := {|
  BOT_MAX_MARKETS := parseInt10 (nullish (env !! "KALSHI_BOT_MAX_MARKETS"%string) "1"%string);
  BOT_SIDE := if env_is env "KALSHI_BOT_SIDE" "no" then no else yes;
  BOT_PRICE_CENTS :=
    parseInt10_number (nullish (env !! "KALSHI_BOT_PRICE_CENTS"%string) "50"%string);
  BOT_CONTRACTS :=
    parseInt10_number (nullish (env !! "KALSHI_BOT_CONTRACTS"%string) "1"%string)
|}.

(** One page of [marketApi.getMarkets]: the markets (the field may be
    missing) and the cursor of the next page. *)
Record MarketsPage := {
  pg_markets : option (list KalshiMarket);
  pg_cursor : option string
}.

Inductive GetMarketsOutcome :=
| GetMarketsThrows (msg : string)
| GetMarketsResp (page : MarketsPage).

(** The lines of the bot. *)
Inductive BotMsg :=
| MsgRefreshingMarkets
| MsgBotConfig
| MsgNoOpenMarkets
| MsgFoundMarkets (n : nat) (ticker : string)
| MsgRunOrderFailed (error : string).

(** What the bot does, in program order: its own lines, the listing
    requests with their cursor, what [placeOrder] does, and the exit code
    it sets. *)
Inductive BotEvent :=
| BotConsole (msg : BotMsg)
| BotLogFile (msg : BotMsg)
| BotGetMarkets (limit : Z) (cursor : option string) (series status : string)
| BotOrder (e : Entry)
| BotExitCode (code : Z).

(** How an asynchronous function of the bot ends: it returns, it throws, or
    it is still waiting for an answer that the run does not contain. *)
Inductive Outcome (A : Type) :=
| Returned (a : A)
| Thrown (e : Error)
| Pending.
Arguments Returned {A} a.
Arguments Thrown {A} e.
Arguments Pending {A}.

(** [all.slice(0, end)] with [end] a result of [parseInt]: NaN counts as 0
    and a negative end counts from the end of the array. *)
Definition slice0 {A} (l : list A) (end_ : option Z) : list A :=
  match end_ with
  | None => []
  | Some e =>
      let len := Z.of_nat (length l) in
      let k := if e <? 0 then Z.max (len + e) 0 else Z.min e len in
      take (Z.to_nat k) l
  end.

(** [all.length >= BOT_MAX_MARKETS]: false on NaN. *)
Definition reached (len : nat) (max : option Z) : bool :=
  match max with
  | None => false
  | Some n => n <=? Z.of_nat len
  end.

(** [!cursor]. *)
Definition cursor_falsy (cursor : option string) : bool :=
  match cursor with Some s => negb (truthy s) | None => true end.

(** The [do ... while] loop of [getBitcoinUpDownMarkets], from a request
    on: [answers] are the answers of the server to the successive requests. *)
Fixpoint getMarketsLoop (max : option Z) (all : list KalshiMarket) (cursor : option string)
         (answers : list GetMarketsOutcome)
  : Outcome (list KalshiMarket) * list BotEvent :=
  let request := BotGetMarkets 200 cursor BTC_SERIES_TICKER "open" in
  match answers with
  | [] => (Pending, [request])
  | GetMarketsThrows msg :: _ => (Thrown (ErrExternal msg), [request])
  | GetMarketsResp page :: rest =>
      let markets := nullish (pg_markets page) [] in
      let pageSize := length markets in
      let all := all ++ markets in
      let cursor := pg_cursor page in
      if cursor_falsy cursor || reached (length all) max then
        (Returned (slice0 all max), [request])
      else if (pageSize =? 200)%nat then
        let '(r, tr) := getMarketsLoop max all cursor rest in
        (r, request :: tr)
      else (Returned (slice0 all max), [request])
  end.

Definition getBitcoinUpDownMarkets (bc : BotConfig) (answers : list GetMarketsOutcome)
  : Outcome (list KalshiMarket) * list BotEvent :=
  let '(r, tr) := getMarketsLoop (BOT_MAX_MARKETS bc) [] None answers in
  (r, BotConsole MsgRefreshingMarkets :: BotLogFile MsgRefreshingMarkets :: tr).

(** [run()]: the listing, then one order on the first market.  The value
    returned is the process exit code that the function has set, if any. *)
Definition run (cfg : Config) (bc : BotConfig) (answers : list GetMarketsOutcome)
           (net : CreateOrderOutcome) (m : Mem) : Outcome (option Z) * list BotEvent :=
  let hello := [BotConsole MsgBotConfig; BotLogFile MsgBotConfig] in
  match getBitcoinUpDownMarkets bc answers with
  | (Thrown e, tr) => (Thrown e, hello ++ tr)
  | (Pending, tr) => (Pending, hello ++ tr)
  | (Returned [], tr) =>
      (Returned None,
       hello ++ tr ++ [BotConsole MsgNoOpenMarkets; BotLogFile MsgNoOpenMarkets])
  | (Returned (market :: others), tr) =>
      let found := MsgFoundMarkets (length (market :: others)) (m_ticker market) in
      let '(result, _, orders) :=
        placeOrder cfg (m_ticker market) (BOT_SIDE bc) (BOT_CONTRACTS bc)
                   (BOT_PRICE_CENTS bc) false net m in
      let trace := hello ++ tr ++ [BotConsole found; BotLogFile found] ++ map BotOrder orders in
      match result with
      | Ok (OrderError e) =>
          (Returned (Some 1),
           trace ++ [BotConsole (MsgRunOrderFailed e); BotLogFile (MsgRunOrderFailed e);
                     BotExitCode 1])
      | Ok (OrderId _) => (Returned None, trace)
      | Throw e => (Thrown e, trace)
      end
  end.

(* ===================================================================== *)
(** * monitor.ts, monitor-logger.ts: the key of the quarter hour *)
(* ===================================================================== *)

(** The local-time fields of a [Date] that the two modules read. *)
Record LocalDate := {
  getFullYear : Z;
  getMonth : Z;
  getDate : Z;
  getHours : Z;
  getMinutes : Z
}.

(** [s.padStart(2, "0")]. *)
Definition padStart2 (s : string) : string :=
  match String.length s with
  | 0%nat => "00"
  | 1%nat => ("0" ++ s)%string
  | _ => s
  end.

(** [String(n).padStart(2, "0")] for an integer [n]. *)
Definition two_digits (n : Z) : string := padStart2 (pretty n).

(** monitor.ts, [current15mSlot()], as a function of [new Date()]. *)
Definition current15mSlot (d : LocalDate) : string :=
  let y := getFullYear d in
  let month := two_digits (getMonth d + 1) in
  let day := two_digits (getDate d) in
  let h := two_digits (getHours d) in
  let min := (getMinutes d / 15) * 15 in
  let minStr := two_digits min in
  (pretty y ++ "-" ++ month ++ "-" ++ day ++ "_" ++ h ++ "-" ++ minStr)%string.

(** monitor-logger.ts, [timeBucket15m(d)]. *)
Definition timeBucket15m (d : LocalDate) : string :=
  let y := getFullYear d in
  let month := two_digits (getMonth d + 1) in
  let day := two_digits (getDate d) in
  let h := two_digits (getHours d) in
  let min := (getMinutes d / 15) * 15 in
  let minStr := two_digits min in
  (pretty y ++ "-" ++ month ++ "-" ++ day ++ "_" ++ h ++ "-" ++ minStr)%string.

(** The file [appendMonitorLog(line, at)] appends to (with the path
    separator of POSIX). *)
Definition monitorLogFile (at_ : LocalDate) : string :=
  ("logs" ++ "/" ++ "monitor_" ++ timeBucket15m at_ ++ ".log")%string.

(* ===================================================================== *)
(** * The band test of the detector *)
(* ===================================================================== *)

(** The two sums of [checkArbAndPlaceOrders]. *)
Definition sumUp (k : MarketPrices) (pm : PolymarketPrices) : number :=
  add (div (upAskCents k) (of_Z 100)) (downAsk pm).

Definition sumDown (k : MarketPrices) (pm : PolymarketPrices) : number :=
  add (div (downAskCents k) (of_Z 100)) (upAsk pm).

(** The sums of a snapshot with both venues present. *)
Definition sumUp_of (p : DualMarketPrices) : option number :=
  match kalshi p, polymarket p with
  | Some k, Some pm => Some (sumUp k pm)
  | _, _ => None
  end.

Definition sumDown_of (p : DualMarketPrices) : option number :=
  match kalshi p, polymarket p with
  | Some k, Some pm => Some (sumDown k pm)
  | _, _ => None
  end.

(* ===================================================================== *)
(** * Orders issued by the executor *)
(* ===================================================================== *)

Definition isKalshiOrder (e : Entry) : bool :=
  match e_ev e with EvKalshiCreateOrder _ _ _ _ => true | _ => false end.

Definition isPolyOrder (e : Entry) : bool :=
  match e_ev e with EvClobPost _ _ _ _ _ => true | _ => false end.

Definition nKalshi (tr : list Entry) : nat := length (List.filter isKalshiOrder tr).
Definition nPoly (tr : list Entry) : nat := length (List.filter isPolyOrder tr).

(** The entries issued from the block of leg [l] of market [t]. *)
Definition from_leg (t : string) (l : leg) (e : Entry) : bool :=
  bool_decide (e_ctx e = Some (t, l)).

(** Orders sent to each venue on behalf of leg [l] of market [t]. *)
Definition kalshiOrders (t : string) (l : leg) (tr : list Entry) : nat :=
  nKalshi (List.filter (from_leg t l) tr).

Definition polyOrders (t : string) (l : leg) (tr : list Entry) : nat :=
  nPoly (List.filter (from_leg t l) tr).

(** A process lifetime of the executor: the calls of
    [checkArbAndPlaceOrders], one after the other, each with what it meets
    outside the process. *)
Fixpoint runArb (cfg : Config) (calls : list (DualMarketPrices * ArbOracle)) (m : Mem)
  : Mem * list Entry :=
  match calls with
  | [] => (m, [])
  | (p, o) :: rest =>
      let '(_, m1, t1) := checkArbAndPlaceOrders cfg p o m in
      let '(m2, t2) := runArb cfg rest m1 in
      (m2, t1 ++ t2)
  end.

Definition otherLeg (l : leg) : leg :=
  match l with UpLeg => DownLeg | DownLeg => UpLeg end.

(** ** Computations that leave the done-sets alone *)

Definition keeps_done (m m' : Mem) : Prop :=
  upArbDoneTickers m' = upArbDoneTickers m /\
  downArbDoneTickers m' = downArbDoneTickers m.

(** [bounded k p c]: [c] leaves the done-sets as they are, sends at most [k]
    orders to Kalshi and at most [p] to Polymarket. *)
Definition bounded (k p : nat) {A} (c : M A) : Prop :=
  forall m r m' tr, c m = (r, m', tr) ->
    keeps_done m m' /\ (nKalshi tr <= k)%nat /\ (nPoly tr <= p)%nat.

(** ** One leg block *)

Definition mark (t : string) (l : leg) : Entry :=
  {| e_ctx := Some (t, l); e_ev := EvMarkDone l t |}.

(** ** Calls that overlap

    [checkArbAndPlaceOrders] is asynchronous and the monitor does not await
    it, so a call can begin while earlier ones are suspended on a venue.  A
    call runs without interruption up to its first [await]; in particular
    the test on the done-set and the [add] are one atomic step.  [arbBegin]
    is the call up to the [add]; [arbFinish] is the rest of the leg block,
    run whenever the event loop resumes the call. *)

Record LegArgs := {
  la_leg : leg;
  la_ticker : string;
  la_sum : number;
  la_kAsk : number;
  la_polyAsk : number;
  la_slug : string;
  la_contracts : number;
  la_polySize : number
}.

Definition arbEnter (a : LegArgs) : M (option LegArgs) :=
  m <- get ;;
  if bool_decide (la_ticker a ∈ doneTickers (la_leg a) m) then ret None
  else
    in_leg (la_ticker a) (la_leg a)
           (put (markDone (la_leg a) (la_ticker a) m) ;;
            emit (EvMarkDone (la_leg a) (la_ticker a))) ;;
    ret (Some a).

Definition arbBegin (cfg : Config) (p : DualMarketPrices) : M (option LegArgs) :=
  match kalshi p, polymarket p with
  | Some k, Some pm =>
      let kc := Math_max ARB_KALSHI_MIN (Math_round (ARB_SIZE cfg)) in
      let ps := Math_max ARB_POLY_MIN (ARB_SIZE cfg) in
      if inRange cfg (sumUp k pm) then
        arbEnter {| la_leg := UpLeg; la_ticker := kalshiTicker p; la_sum := sumUp k pm;
                    la_kAsk := div (upAskCents k) (of_Z 100); la_polyAsk := downAsk pm;
                    la_slug := slug pm; la_contracts := kc; la_polySize := ps |}
      else if inRange cfg (sumDown k pm) then
        arbEnter {| la_leg := DownLeg; la_ticker := kalshiTicker p; la_sum := sumDown k pm;
                    la_kAsk := div (downAskCents k) (of_Z 100); la_polyAsk := upAsk pm;
                    la_slug := slug pm; la_contracts := kc; la_polySize := ps |}
      else ret None
  | _, _ => ret None
  end.

Definition arbFinish (cfg : Config) (a : LegArgs) (o : ArbOracle) : M unit :=
  in_leg (la_ticker a) (la_leg a)
         (arbLegOrders cfg (la_leg a) (la_ticker a) (la_sum a) (la_kAsk a) (la_polyAsk a)
                       (la_slug a) (la_contracts a) (la_polySize a) o).

(** What the event loop runs next: a new call begins, or the [i]-th call
    that entered a leg block is resumed and runs to its end. *)
Inductive Turn :=
| CallBegins (p : DualMarketPrices)
| CallResumes (i : nat) (o : ArbOracle).

Definition began (r : Result (option LegArgs)) : option LegArgs :=
  match r with Ok a => a | Throw _ => None end.

Fixpoint runTurns (cfg : Config) (ts : list Turn) (pend : list (option LegArgs))
         (m : Mem) : Mem * list Entry :=
  match ts with
  | [] => (m, [])
  | CallBegins p :: r =>
      let '(res, m1, t1) := arbBegin cfg p m in
      let '(m2, t2) := runTurns cfg r (pend ++ [began res]) m1 in
      (m2, t1 ++ t2)
  | CallResumes i o :: r =>
      match pend !! i with
      | Some (Some a) =>
          let '(_, m1, t1) := arbFinish cfg a o m in
          let '(m2, t2) := runTurns cfg r (<[ i := None ]> pend) m1 in
          (m2, t1 ++ t2)
      | _ => runTurns cfg r pend m
      end
  end.

(** The suspended calls that are in the block of leg [l] of market [t]. *)
Definition is_for (t : string) (l : leg) (x : option LegArgs) : bool :=
  match x with
  | Some a => bool_decide ((la_ticker a, la_leg a) = (t, l))
  | None => false
  end.

Definition pendingFor (t : string) (l : leg) (pend : list (option LegArgs)) : nat :=
  length (List.filter (is_for t l) pend).

(** Every suspended call has marked its market. *)
Definition pending_marked (pend : list (option LegArgs)) (m : Mem) : Prop :=
  forall i a, pend !! i = Some (Some a) -> la_ticker a ∈ doneTickers (la_leg a) m.

(** Orders still to come for leg [l] of market [t]: none unless the market
    is unmarked or a call is suspended in that block. *)
Definition budget (t : string) (l : leg) (pend : list (option LegArgs)) (m : Mem) : nat :=
  if decide (t ∈ doneTickers l m) then pendingFor t l pend else 1%nat.

(* ===================================================================== *)
(** * Concrete runs *)
(* ===================================================================== *)

(** The default configuration: an empty environment. *)
Definition cfg_default : Config := load_config ∅.

(** A live configuration: Polymarket credentials are set and five shares are
    traded, so that the notional passes the one-dollar minimum. *)
Definition env_live : gmap string string :=
  <[ "ARB_SIZE"%string := "5"%string ]>
    (<[ "POLYMARKET_PROXY"%string := "0xproxy"%string ]>
       (<[ "POLYMARKET_PRIVATE_KEY"%string := "0xkey"%string ]> ∅)).

Definition cfg_live : Config := load_config env_live.

(** Kalshi UP 40c, DOWN 55c; Polymarket UP 0.38, DOWN 0.48: the UP leg sums
    to 0.88. *)
Definition snap_up : DualMarketPrices :=
  {| kalshiTicker := "KXBTC15M-A";
     kalshi := Some {| ticker := "KXBTC15M-A"; upAskCents := of_Z 40;
                       downAskCents := of_Z 55; lastPriceCents := of_Z 41;
                       mp_fetchedAt := 1000 |};
     polymarket := Some {| slug := "btc-updown-15m-900"; upAsk := parseFloat "0.38";
                           downAsk := parseFloat "0.48"; pp_fetchedAt := 1000 |};
     fetchedAt := 1000 |}.

(** Kalshi UP 40c, DOWN 40c; Polymarket UP 0.40, DOWN 0.60: the UP leg sums
    to 1.00 and the DOWN leg to 0.80. *)
Definition snap_down : DualMarketPrices :=
  {| kalshiTicker := "KXBTC15M-A";
     kalshi := Some {| ticker := "KXBTC15M-A"; upAskCents := of_Z 40;
                       downAskCents := of_Z 40; lastPriceCents := of_Z 40;
                       mp_fetchedAt := 1000 |};
     polymarket := Some {| slug := "btc-updown-15m-900"; upAsk := parseFloat "0.40";
                           downAsk := parseFloat "0.60"; pp_fetchedAt := 1000 |};
     fetchedAt := 1000 |}.

(** Only Kalshi answered. *)
Definition snap_partial : DualMarketPrices :=
  {| kalshiTicker := "KXBTC15M-A";
     kalshi := kalshi snap_up;
     polymarket := None;
     fetchedAt := 1000 |}.

Definition gamma_ok : GammaOutcome :=
  GammaData (RawArray ["Up"; "Down"]%string)
            (RawString (Some ["token-up"; "token-down"]%string))
            (Some "0xcondition"%string).

(** The client is built without a failure, from the credential file if
    there is one. *)
Definition build_ok : BuildOracle :=
  {| b_setup := None; b_fileExists := true; b_readFile := None; b_derive := None |}.

(** Both venues accept the orders. *)
Definition oracle_ok : ArbOracle :=
  {| o_createOrder := CreateOrderResp (Some "kalshi-1"%string);
     o_gamma := gamma_ok;
     o_build := build_ok;
     o_clob := ClobResp (Some "poly-1"%string) None None |}.

(** Both venues fail. *)
Definition oracle_fail : ArbOracle :=
  {| o_createOrder := CreateOrderThrows "503"%string;
     o_gamma := gamma_ok;
     o_build := build_ok;
     o_clob := ClobPostThrows "rejected"%string None |}.

(** The claim of C3 as stated: with both venues present, a call never
    touches leg 2. *)
Definition returns_after_leg1 (cfg : Config) : Prop :=
  forall p o m k pm,
    kalshi p = Some k -> polymarket p = Some pm ->
    downArbDoneTickers (checkArbAndPlaceOrders cfg p o m).1.2 = downArbDoneTickers m /\
    kalshiOrders (kalshiTicker p) DownLeg (checkArbAndPlaceOrders cfg p o m).2 = 0%nat.

(* ===================================================================== *)
(** * Vocabulary of the statements about the cache, the readers and prices *)
(* ===================================================================== *)

(** A trace entry issued outside a leg block. *)
Definition entry (e : Event) : Entry := {| e_ctx := None; e_ev := e |}.
(** The cache entry that a successful resolution stores. *)
Definition cache_of (slug : string) (fresh : FreshIds) : CacheEntry :=
  {| c_slug := slug; c_upTokenId := f_upTokenId fresh; c_downTokenId := f_downTokenId fresh |}.

(** The limit prices of a leg: the Kalshi price in cents as computed by the
    detector, the price [placeOrder] submits, and the Polymarket price. *)
Definition kalshiLimitCents (cfg : Config) (kAsk : number) : number :=
  Math_round (mul (add kAsk (ARB_PRICE_BUFFER cfg)) (of_Z 100)).

Definition kalshiSubmitted (cfg : Config) (kAsk : number) : number :=
  Math_max (of_Z 1) (Math_min (of_Z 99) (kalshiLimitCents cfg kAsk)).

Definition polyLimit (cfg : Config) (polyAsk : number) : number :=
  Math_min (of_Z 1) (add polyAsk (ARB_PRICE_BUFFER cfg)).

(** The asks a leg buys at: Kalshi's (in dollars) and Polymarket's. *)
Definition legKalshiAsk (l : leg) (k : MarketPrices) : number :=
  match l with
  | UpLeg => div (upAskCents k) (of_Z 100)
  | DownLeg => div (downAskCents k) (of_Z 100)
  end.

Definition legPolyAsk (l : leg) (pm : PolymarketPrices) : number :=
  match l with UpLeg => downAsk pm | DownLeg => upAsk pm end.

(** What an event of leg [l] says about prices: a Kalshi order is for the
    leg's side of market [t] at the clamped cents; a Polymarket order is at
    the Polymarket limit, rounded to the configured tick by
    [placePolymarketOrder]; the opportunity line reports both limits. *)
Definition priced (cfg : Config) (t : string) (l : leg) (kAsk polyAsk : number)
           (e : Event) : Prop :=
  match e with
  | EvKalshiCreateOrder t' s _ p =>
      t' = t /\ s = legSide l /\ p = kalshiSubmitted cfg kAsk
  | EvClobPost _ p _ tick _ =>
      tick = POLYMARKET_TICK_SIZE cfg /\
      p = roundPriceToTickSize (polyLimit cfg polyAsk) tick
  | EvConsole (MsgArbOpportunity _ _ _ _ _ kc pp)
  | EvLogFile (MsgArbOpportunity _ _ _ _ _ kc pp) =>
      kc = kalshiLimitCents cfg kAsk /\ pp = polyLimit cfg polyAsk
  | _ => True
  end.

Definition emits (P : Event -> Prop) {A} (c : M A) : Prop :=
  forall m, Forall (fun e => P (e_ev e)) (c m).2.

(** The number of Kalshi contracts of an arbitrage order. *)
Definition kalshiContracts (cfg : Config) : number :=
  Math_max ARB_KALSHI_MIN (Math_round (ARB_SIZE cfg)).

(** A dollar string that yields no price: missing, empty, or not a finite
    number for [parseFloat]. *)
Definition unparseable (d : option string) : Prop :=
  d = None \/ d = Some ""%string \/
  (exists s, d = Some s /\ isFinite (parseFloat s) = false).

(** A Kalshi market whose ask fields are all missing or unusable. *)
Definition market_no_asks : KalshiMarket :=
  {| m_ticker := "KXBTC15M-A"; yes_ask := None; yes_ask_dollars := None;
     no_ask := None; no_ask_dollars := Some "n/a"%string;
     last_price := None; last_price_dollars := Some ""%string |}.

Definition value_or {A} (d : A) (r : Result A) : A :=
  match r with Ok a => a | Throw _ => d end.

(** The snapshot [getMarketPrices] builds from it, next to a Polymarket DOWN
    ask given as a decimal string. *)
Definition snap_zero (polyDown : string) : DualMarketPrices :=
  {| kalshiTicker := "KXBTC15M-A";
     kalshi := value_or None
                 (getMarketPrices "KXBTC15M-A" 1000
                                  (GetMarketResp (Some market_no_asks)) mem0).1.1;
     polymarket := Some {| slug := "btc-updown-15m-900"; upAsk := parseFloat "0.38";
                           downAsk := parseFloat polyDown; pp_fetchedAt := 1000 |};
     fetchedAt := 1000 |}.

(** ** Concrete runs of the poll loop *)

(** A monitor for a fixed ticker, polling every 200 ms. *)
Definition monitor_options : Monitor.Options :=
  {| Monitor.opt_kalshiTicker := Some "KXBTC15M-A"%string;
     Monitor.opt_polymarketMarket := None;
     Monitor.opt_intervalMs := Some 200;
     Monitor.opt_restartProcessOnQuarterHour := None |}.

Definition monitor_consts : Monitor.Consts :=
  {| Monitor.intervalMs := 200; Monitor.useAutoRefresh := false;
     Monitor.restartOnQuarterHour := false; Monitor.polymarketMarket := "btc" |}.

Definition monitor_init : Monitor.State :=
  {| Monitor.kalshiTicker := Some "KXBTC15M-A"%string;
     Monitor.lastSlot := "2026-01-01_00-00"; Monitor.stopped := false;
     Monitor.pollInProgress := false; Monitor.timers := [0];
     Monitor.awaiting := []; Monitor.exited := false |}.


(* ===================================================================== *)
(** * Further vocabulary: readers, order wrappers, market listing, slots *)
(* ===================================================================== *)

(** The scan of [getBestAskForToken] over the price strings of the levels,
    from a current best. *)
Definition scanAsks (asks : list string) (best0 : number) : number :=
  fold_left
    (fun best price =>
       let p := parseFloat price in
       if isFinite p && lt p best then p else best)
    asks best0.

(** What [getBestAskForToken] returns for a book with these price strings. *)
Definition bestAsk (asks : list string) : option number :=
  if eq (scanAsks asks Infinity) Infinity then None else Some (scanAsks asks Infinity).

(** [l] holds [x] at [i] and nowhere before. *)
Definition first_at (l : list string) (x : string) (i : nat) : Prop :=
  l !! i = Some x /\ forall j, (j < i)%nat -> l !! j <> Some x.

(** ** The conditions of [placePolymarketOrder] *)

(** Both credentials are set. *)
Definition polyConfigured (cfg : Config) : bool :=
  truthy (POLYMARKET_PRIVATE_KEY cfg) && truthy (POLYMARKET_PROXY cfg).

(** [options?.forcePlace]. *)
Definition forcePlace (options : option PlacePolymarketOrderOptions) : bool :=
  match options with Some o => opt_forcePlace o | None => false end.

(** The minimal notional: the configured one when positive, else one dollar. *)
Definition polyMinUsd (cfg : Config) : number :=
  if lt (of_Z 0) (POLYMARKET_MIN_USD cfg) then POLYMARKET_MIN_USD cfg else of_Z 1.

(** The tick size and the neg-risk flag of an order: the option when given,
    else the configuration. *)
Definition polyTick (cfg : Config) (options : option PlacePolymarketOrderOptions) : string :=
  nullish (match options with Some o => opt_tickSize o | None => None end)
          (POLYMARKET_TICK_SIZE cfg).

Definition polyNegRisk (cfg : Config) (options : option PlacePolymarketOrderOptions) : bool :=
  nullish (match options with Some o => opt_negRisk o | None => None end)
          (POLYMARKET_NEG_RISK cfg).

(** The CLOB library could be imported. *)
Definition clobImported (net : ClobOutcome) : bool :=
  match net with ClobClientThrows _ _ => false | _ => true end.

(** The call gets as far as asking for the client. *)
Definition asksForClient (cfg : Config) (price size : number)
           (options : option PlacePolymarketOrderOptions) (net : ClobOutcome) : bool :=
  polyConfigured cfg
  && (negb (ARB_DRY_RUN cfg) || forcePlace options)
  && negb (lt (mul price size) (polyMinUsd cfg))
  && clobImported net.

(** The module holds a client built for the key of the configuration. *)
Definition clientCached (cfg : Config) (m : Mem) : bool :=
  cachedClient m && String.eqb (cachedClientKey m) (getClientKey cfg).

(** A build takes the credentials from the file. *)
Definition credsFromFile (cfg : Config) (build : BuildOracle) : bool :=
  truthy (POLYMARKET_CREDENTIAL_PATH cfg) && b_fileExists build.

(** A build sends the [createOrDeriveApiKey] request. *)
Definition buildDerives (cfg : Config) (build : BuildOracle) : bool :=
  bool_decide (b_setup build = None) && negb (credsFromFile cfg build).

(** A build ends with a client. *)
Definition buildSucceeds (cfg : Config) (build : BuildOracle) : bool :=
  bool_decide (b_setup build = None)
  && bool_decide ((if credsFromFile cfg build then b_readFile build else b_derive build) = None).

(** The call has a client to post with: the cached one, or a new one. *)
Definition clientReady (cfg : Config) (build : BuildOracle) (m : Mem) : bool :=
  clientCached cfg m || buildSucceeds cfg build.

(** The call gets as far as posting the order. *)
Definition polyPosts (cfg : Config) (price size : number)
           (options : option PlacePolymarketOrderOptions)
           (build : BuildOracle) (net : ClobOutcome) (m : Mem) : bool :=
  asksForClient cfg price size options net && clientReady cfg build m.

(** The module state after a call that starts in [m]: a new client is stored
    with its key, and nothing else changes. *)
Definition afterPolyOrder (cfg : Config) (price size : number)
           (options : option PlacePolymarketOrderOptions)
           (build : BuildOracle) (net : ClobOutcome) (m : Mem) : Mem :=
  if asksForClient cfg price size options net
     && negb (clientCached cfg m) && buildSucceeds cfg build
  then set_client true (getClientKey cfg) m
  else m.

Definition isDeriveRequest (e : Entry) : bool :=
  match e_ev e with EvClobDeriveApiKey => true | _ => false end.

(** ** Successive token-id lookups *)

(** Calls of [getTokenIdsForSlugCached], each awaited before the next, with
    what Gamma would answer to each. *)
Fixpoint lookups (calls : list (string * GammaOutcome)) (m : Mem)
  : list (Result TokenIds) * Mem * list Entry :=
  match calls with
  | [] => ([], m, [])
  | (s, net) :: rest =>
      let '(r, m1, t1) := getTokenIdsForSlugCached s net m in
      let '(rs, m2, t2) := lookups rest m1 in
      (r :: rs, m2, t1 ++ t2)
  end.

Definition is_Ok {A} (r : Result A) : bool :=
  match r with Ok _ => true | Throw _ => false end.

(** The number of calls that threw. *)
Definition nThrow {A} (rs : list (Result A)) : nat :=
  length (List.filter (fun r => negb (is_Ok r)) rs).

(** ** One call of the detector *)

(** The number of Polymarket shares of an arbitrage order. *)
Definition polySize (cfg : Config) : number := Math_max ARB_POLY_MIN (ARB_SIZE cfg).

(** The sum a leg is judged by. *)
Definition legSum (l : leg) (k : MarketPrices) (pm : PolymarketPrices) : number :=
  match l with UpLeg => sumUp k pm | DownLeg => sumDown k pm end.

(** The opportunity line of a leg. *)
Definition opportunity (cfg : Config) (l : leg) (k : MarketPrices) (pm : PolymarketPrices)
  : LogMsg :=
  MsgArbOpportunity l (legSum l k pm) (legKalshiAsk l k) (legPolyAsk l pm)
                    (ARB_DRY_RUN cfg)
                    (kalshiLimitCents cfg (legKalshiAsk l k))
                    (polyLimit cfg (legPolyAsk l pm)).

(** The entries that are requests to a venue. *)
Definition isRequest (e : Entry) : bool :=
  match e_ev e with
  | EvKalshiGetMarket _ | EvKalshiCreateOrder _ _ _ _ | EvGammaFetch _
  | EvClobBook _ | EvClobDeriveApiKey | EvClobPost _ _ _ _ _ => true
  | _ => false
  end.

(** The default configuration with [ARB_DRY_RUN=true]. *)
Definition cfg_dry : Config := load_config (<[ "ARB_DRY_RUN"%string := "true"%string ]> ∅).

(** ** Runs of the poll loop *)

(** The labels that keep the loop going: timers and settlements of the
    loop itself, with the market refresh resolved and a callback that does
    not call the stop function and lets no exception out. *)
Definition keeps_going (l : Monitor.Label) : bool :=
  match l with
  | Monitor.TimerFires _ _ _ _ => true
  | Monitor.MarketsSettle _ (Some _) _ => true
  | Monitor.DualSettles _ _ Monitor.CbReturns false _ => true
  | Monitor.DualSettles _ _ Monitor.CbHandled false _ => true
  | _ => false
  end.

(** What the loop does to the world: it starts a read, hands a snapshot to
    the callback, reports an error, sets a timer, lists the markets anew or
    restarts the process.  A skipped call of [poll] does none of this. *)
Definition acts (e : Monitor.Ev) : bool :=
  match e with Monitor.Skipped => false | _ => true end.

(** The in-flight flag is set only while an activation is suspended. *)
Definition busy_only_suspended (s : Monitor.State) : Prop :=
  Monitor.exited s = true \/
  (Monitor.pollInProgress s = true -> Monitor.awaiting s <> []).

(** The loop is alive: nobody stopped it, and either the process has been
    restarted or exactly one timer is pending or one tick is under way. *)
Definition alive (s : Monitor.State) : Prop :=
  Monitor.stopped s = false /\
  (Monitor.exited s = true \/
   ((length (Monitor.timers s) + length (Monitor.awaiting s) = 1)%nat /\
    (Monitor.pollInProgress s = true -> Monitor.awaiting s <> []))).

(** Nothing is pending: no timer and no suspended tick. *)
Definition dead (s : Monitor.State) : Prop :=
  Monitor.timers s = [] /\ Monitor.awaiting s = [].

(** The loop reads one fixed market: the ticker is [t], no market refresh is
    under way and the process has not been restarted. *)
Definition fixed_on (t : string) (s : Monitor.State) : Prop :=
  Monitor.kalshiTicker s = Some t /\ Monitor.exited s = false /\
  Forall (fun a => Monitor.is_dual a = true) (Monitor.awaiting s).

(** What a loop with a fixed ticker may do: its reads are for that ticker
    and the configured Polymarket market, and it neither lists the markets
    nor restarts the process. *)
Definition fixed_event (t market : string) (e : Monitor.Ev) : Prop :=
  match e with
  | Monitor.FetchStart t' market' => t' = t /\ market' = market
  | Monitor.RefreshMarkets | Monitor.SpawnAndExit => False
  | _ => True
  end.

(** A monitor that lists the markets itself and refreshes them in-process. *)
Definition refresh_options : Monitor.Options :=
  {| Monitor.opt_kalshiTicker := None;
     Monitor.opt_polymarketMarket := None;
     Monitor.opt_intervalMs := Some 200;
     Monitor.opt_restartProcessOnQuarterHour := Some false |}.

Definition refresh_consts : Monitor.Consts :=
  {| Monitor.intervalMs := 200; Monitor.useAutoRefresh := true;
     Monitor.restartOnQuarterHour := false; Monitor.polymarketMarket := "btc" |}.

Definition refresh_init : Monitor.State :=
  {| Monitor.kalshiTicker := Some "KXBTC15M-A"%string;
     Monitor.lastSlot := "2026-01-01_00-00"; Monitor.stopped := false;
     Monitor.pollInProgress := false; Monitor.timers := [0];
     Monitor.awaiting := []; Monitor.exited := false |}.

(** ** One tick: the price read and the order step *)

Definition ids_of (c : CacheEntry) : TokenIds :=
  {| upTokenId := c_upTokenId c; downTokenId := c_downTokenId c |}.

(** What the order step of a tick may send, given the requests the price
    read of the same tick has sent: no Gamma request, and Polymarket orders
    only for tokens whose book was read. *)
Definition uses_tokens_read (read : list Entry) (e : Entry) : Prop :=
  match e_ev e with
  | EvGammaFetch _ => False
  | EvClobPost tokenId _ _ _ _ => In (entry (EvClobBook tokenId)) read
  | _ => True
  end.

(** A tick of the monitor as [monitor-run.ts] wires it: [getDualPrices],
    then [checkArbAndPlaceOrders] on the snapshot. *)
Definition tick (cfg : Config) (kalshiTicker : string) (polymarketMarket : option string)
           (fo : FetchOracle) (ao : ArbOracle) : M unit :=
  p <- getDualPrices kalshiTicker polymarketMarket fo ;;
  checkArbAndPlaceOrders cfg p ao.

(** ** Time zones *)

(** A zone whose offset from UTC never changes. *)
Definition fixed_zone (offset : Z) : TimeZone :=
  {| offsetAtUTC := fun _ => offset; offsetAtLocal := fun _ => offset |}.

Definition at_utc (now : Z) : Date.t := {| Date.getTime := now; Date.zone := fixed_zone 0 |}.

(** New York in the autumn of 2026: four hours behind UTC until the clocks
    go back at 06:00 UTC on the first of November, five hours behind from
    then on.  The local hour from 01:00 to 02:00 of that day occurs twice. *)
Definition clocks_go_back : Z := 1793512800000.

Definition new_york : TimeZone :=
  {| offsetAtUTC := fun t => if t <? clocks_go_back then -4 * Date.msPerHour else -5 * Date.msPerHour;
     offsetAtLocal :=
       fun tl => if tl <? clocks_go_back - 4 * Date.msPerHour then -4 * Date.msPerHour
                 else -5 * Date.msPerHour |}.

(** The start of the quarter hour of the epoch that a time lies in, in
    seconds. *)
Definition quarter_of_epoch (now : Z) : Z := now / 900000 * 900.

(** The zone keeps one offset, a multiple of fifteen minutes, from the start
    of the quarter hour of the epoch up to [now], for the UTC times and for
    the local times they are read as: no transition of the zone falls into
    the quarter hour so far, and none is being repeated. *)
Definition steady (z : TimeZone) (off now : Z) : Prop :=
  off mod 900000 = 0 /\
  forall t, now / 900000 * 900000 <= t <= now ->
            offsetAtUTC z t = off /\ offsetAtLocal z (t + off) = off.

Definition at_new_york (now : Z) : Date.t := {| Date.getTime := now; Date.zone := new_york |}.

(** Both venues answer: Kalshi asks 40c/55c, Polymarket books with best asks
    0.38 and 0.48. *)
Definition fetch_ok : FetchOracle :=
  {| f_startAt := 1000; f_kalshiDoneAt := 1040; f_polyStartAt := at_utc 1001; f_polyDoneAt := 1060;
     f_getMarket :=
       GetMarketResp (Some {| m_ticker := "KXBTC15M-A"; yes_ask := Some (of_Z 40);
                              yes_ask_dollars := None; no_ask := Some (of_Z 55);
                              no_ask_dollars := None; last_price := Some (of_Z 41);
                              last_price_dollars := None |});
     f_gamma := gamma_ok;
     f_bookUp := BookData (Some ["0.40"; "0.38"; "0.55"]%string);
     f_bookDown := BookData (Some ["0.48"; "0.61"]%string) |}.

(** ** Prices in whole cents *)

#[global] Instance number_eq_dec : EqDecision number := ltac:(solve_decision).

(** [k] cents in dollars, as the detector computes it: [k / 100]. *)
Definition cents (k : Z) : number := div (of_Z k) (of_Z 100).

(** The decimal string of [k] cents with two decimals, as in a Polymarket
    book, and of [n] hundredths of a cent with four, as in the dollar fields
    of a Kalshi market ("0.5600"). *)
Definition decimal2 (k : Z) : string :=
  (pretty (k / 100) ++ "." ++ pretty (k mod 100 / 10) ++ pretty (k mod 10))%string.

Definition decimal4 (n : Z) : string :=
  (pretty (n / 10000) ++ "." ++ pretty (n mod 10000 / 1000) ++ pretty (n mod 1000 / 100)
     ++ pretty (n mod 100 / 10) ++ pretty (n mod 10))%string.

(** The band test on the sum of two asks of whole cents, for the default
    band from 0.75 up to 0.92. *)
Definition inBand_cents (a b : Z) : bool :=
  inRange cfg_default (add (cents a) (cents b)).

(** The pairs of asks, in cents, that add up to 92 cents and whose sum as
    computed is below 0.92. *)
Definition leaky_pairs : list (Z * Z) :=
  List.filter (fun ab : Z * Z => inBand_cents ab.1 ab.2)
              (map (fun a => (a, 92 - a)) (seqZ 0 93)).

(** The amounts, in hundredths of a cent, at which [dollarsToCents] rounds
    a half cent down. *)
Definition half_cents_rounded_down : list Z := [1450; 2850; 5650; 5750].

(** A property of all integers from 0 up to (and without) [n]. *)
Definition all_below (n : Z) (f : Z -> bool) : bool := forallb f (seqZ 0 n).

(** ** The market listing *)

(** The cursors of the listing requests among the events. *)
Fixpoint listingRequests (tr : list BotEvent) : list (option string) :=
  match tr with
  | [] => []
  | BotGetMarkets _ cursor _ _ :: r => cursor :: listingRequests r
  | _ :: r => listingRequests r
  end.

(** The markets the server has to offer, page after page. *)
Fixpoint offered (answers : list GetMarketsOutcome) : list KalshiMarket :=
  match answers with
  | [] => []
  | GetMarketsThrows _ :: r => offered r
  | GetMarketsResp page :: r => nullish (pg_markets page) [] ++ offered r
  end.

(** The orders that the bot's call of [placeOrder] sends. *)
Fixpoint botOrders (tr : list BotEvent) : list Event :=
  match tr with
  | [] => []
  | BotOrder e :: r =>
      (if isKalshiOrder e then [e_ev e] else []) ++ botOrders r
  | _ :: r => botOrders r
  end.

(** A page of [n] markets with a cursor to the next. *)
Definition full_page (n : nat) (cursor : string) : MarketsPage :=
  {| pg_markets := Some (replicate n market_no_asks); pg_cursor := Some cursor |}.

(** A bot that considers up to 250 markets, and a server with three full
    pages. *)
Definition bot_250 : BotConfig :=
  load_bot_config (<[ "KALSHI_BOT_MAX_MARKETS"%string := "250"%string ]> ∅).

Definition three_full_pages : list GetMarketsOutcome :=
  [GetMarketsResp (full_page 200 "next"); GetMarketsResp (full_page 200 "more");
   GetMarketsResp (full_page 200 "evenmore")].

(** The default bot, and a server with one open market. *)
Definition bot_default : BotConfig := load_bot_config ∅.

Definition one_market : list GetMarketsOutcome :=
  [GetMarketsResp {| pg_markets := Some [market_no_asks]; pg_cursor := None |}].

(** A bot whose limit is not a number. *)
Definition bot_nan : BotConfig :=
  load_bot_config (<[ "KALSHI_BOT_MAX_MARKETS"%string := "all"%string ]> ∅).

(** ** Settings that are not numbers *)

(** A configuration whose lower band limit cannot be parsed. *)
Definition cfg_bad_band : Config :=
  load_config (<[ "ARB_SUM_LOW"%string := "low"%string ]> ∅).

(** A configuration whose price buffer cannot be parsed. *)
Definition cfg_bad_buffer : Config :=
  load_config (<[ "ARB_PRICE_BUFFER"%string := "one cent"%string ]> ∅).

(** The number of Kalshi contracts for a size. *)
Definition kalshiContracts_of (size : number) : number :=
  Math_max ARB_KALSHI_MIN (Math_round size).

(** ** The key of the quarter hour *)

(** The fields of a date are in their ranges: months from 0 (as [getMonth]
    counts them), days, hours and minutes. *)
Definition valid_date (d : LocalDate) : Prop :=
  0 <= getMonth d <= 11 /\ 1 <= getDate d <= 31 /\
  0 <= getHours d <= 23 /\ 0 <= getMinutes d <= 59.

(** Two dates lie in the same quarter of the same hour of the same day. *)
Definition same_quarter (d d' : LocalDate) : Prop :=
  getFullYear d = getFullYear d' /\ getMonth d = getMonth d' /\
  getDate d = getDate d' /\ getHours d = getHours d' /\
  getMinutes d / 15 = getMinutes d' / 15.

(** The part of the key after the year. *)
Definition key_tail (d : LocalDate) : string :=
  ("-" ++ two_digits (getMonth d + 1) ++ "-" ++ two_digits (getDate d) ++ "_"
       ++ two_digits (getHours d) ++ "-" ++ two_digits (getMinutes d / 15 * 15))%string.

Definition half_past_nine : LocalDate :=
  {| getFullYear := 2026; getMonth := 0; getDate := 5; getHours := 9; getMinutes := 37 |}.

Definition quarter_to_ten : LocalDate :=
  {| getFullYear := 2026; getMonth := 0; getDate := 5; getHours := 9; getMinutes := 44 |}.

(* ===================================================================== *)
(** * Facts about numbers *)
(* ===================================================================== *)

(** The built-ins on a few inputs. *)
Example parseFloat_dollars :
  parseFloat "0.5600" = div (of_Z 56) (of_Z 100) /\
  parseFloat "  12.5e1 USD" = of_Z 125 /\
  parseFloat "-.5" = div (of_Z (-1)) (of_Z 2) /\
  parseFloat "n/a" = NaN /\
  parseFloat "" = NaN /\
  parseFloat "-Infinity" = NegInfinity.
Proof. repeat split; vm_compute; reflexivity. Qed.

Example Math_round_ties :
  Math_round (parseFloat "2.5") = of_Z 3 /\
  Math_round (parseFloat "-2.5") = of_Z (-2) /\
  Math_round (parseFloat "0.49999999999999994") = of_Z 0 /\
  Math_round (parseFloat "-0.2") = S754_zero true.
Proof. repeat split; vm_compute; reflexivity. Qed.

(** Binary rounding shows: 0.1 + 0.2 is not 0.3, and (0.57 + 0.01) * 100 is
    not 58 before [Math.round]. *)
Example addition_rounds :
  add (parseFloat "0.1") (parseFloat "0.2") = parseFloat "0.30000000000000004" /\
  mul (add (parseFloat "0.57") (parseFloat "0.01")) (of_Z 100)
  = parseFloat "57.99999999999999" /\
  Math_round (mul (add (parseFloat "0.57") (parseFloat "0.01")) (of_Z 100)) = of_Z 58.
Proof. repeat split; vm_compute; reflexivity. Qed.

Lemma SFcompare_refl (x : number) : SFcompare x x = Some Eq \/ SFcompare x x = None.
Proof.
  destruct x as [s | s | | s m e]; simpl; auto.
  - destruct s; auto.
  - left. rewrite Z.compare_refl.
    unfold Pos.compare_cont. (* the continuation form of [Pos.compare] *)
    fold (Pos.compare_cont Eq m m).
    change (Pos.compare_cont Eq m m) with (Pos.compare m m).
    rewrite Pos.compare_refl. destruct s; reflexivity.
Qed.

Lemma lt_irrefl (x : number) : lt x x = false.
Proof.
  unfold lt, SFltb. destruct (SFcompare_refl x) as [-> | ->]; reflexivity.
Qed.

Lemma le_refl_finite (x : number) : isFinite x = true -> le x x = true.
Proof.
  intros H. unfold le, SFleb.
  destruct (SFcompare_refl x) as [-> | E]; [reflexivity|].
  destruct x; simpl in *; discriminate.
Qed.

(** A number that lies between a bound other than -infinity and any other
    bound is finite. *)
Lemma between_isFinite (lo hi s : number) :
  lo <> NegInfinity -> le lo s = true -> lt s hi = true -> isFinite s = true.
Proof.
  intros Hlo Hle Hlt. unfold le, lt, SFleb, SFltb in *.
  destruct s as [b | b | | b m e]; simpl; try reflexivity.
  - destruct b.
    + destruct lo as [ | [] | | ]; simpl in Hle; try discriminate.
      exfalso. apply Hlo. reflexivity.
    + destruct hi as [ | [] | | ]; simpl in Hlt; discriminate.
  - destruct lo; simpl in Hle; discriminate.
Qed.

Lemma inRange_spec (cfg : Config) (s : number) :
  ARB_SUM_LOW cfg <> NegInfinity ->
  inRange cfg s = true <->
  le (ARB_SUM_LOW cfg) s = true /\ lt s (ARB_SUM_THRESHOLD cfg) = true.
Proof.
  intros Hlo. unfold inRange, ge. split.
  - intros H. apply andb_prop in H as [H H3]. apply andb_prop in H as [H1 H2]. auto.
  - intros [H1 H2]. rewrite (between_isFinite _ _ _ Hlo H1 H2).
    unfold le in H1. rewrite H1, H2. reflexivity.
Qed.

Lemma checkArb_out_of_band (cfg : Config) (p : DualMarketPrices) (o : ArbOracle)
      (m : Mem) (k : MarketPrices) (pm : PolymarketPrices) :
  kalshi p = Some k -> polymarket p = Some pm ->
  inRange cfg (sumUp k pm) = false -> inRange cfg (sumDown k pm) = false ->
  checkArbAndPlaceOrders cfg p o m = (Ok tt, m, []).
Proof.
  intros Hk Hp H1 H2. unfold checkArbAndPlaceOrders. rewrite Hk, Hp.
  unfold sumUp in H1. unfold sumDown in H2. rewrite H1, H2. reflexivity.
Qed.

Lemma nKalshi_app a b : nKalshi (a ++ b) = (nKalshi a + nKalshi b)%nat.
Proof. unfold nKalshi. rewrite List.filter_app, List.length_app. reflexivity. Qed.

Lemma nPoly_app a b : nPoly (a ++ b) = (nPoly a + nPoly b)%nat.
Proof. unfold nPoly. rewrite List.filter_app, List.length_app. reflexivity. Qed.

Lemma nKalshi_tag t l tr : nKalshi (tag t l tr) = nKalshi tr.
Proof.
  unfold nKalshi, tag. induction tr as [|[c ev] tr IH]; simpl; [reflexivity|].
  destruct ev; simpl; rewrite IH; reflexivity.
Qed.

Lemma nPoly_tag t l tr : nPoly (tag t l tr) = nPoly tr.
Proof.
  unfold nPoly, tag. induction tr as [|[c ev] tr IH]; simpl; [reflexivity|].
  destruct ev; simpl; rewrite IH; reflexivity.
Qed.

Lemma filter_from_leg_tag_same t l tr :
  List.filter (from_leg t l) (tag t l tr) = tag t l tr.
Proof.
  unfold tag. induction tr as [|e tr IH]; simpl; [reflexivity|].
  unfold from_leg at 1. simpl. rewrite bool_decide_eq_true_2 by reflexivity.
  f_equal. exact IH.
Qed.

Lemma filter_from_leg_tag_other t l t' l' tr :
  (t', l') <> (t, l) -> List.filter (from_leg t l) (tag t' l' tr) = [].
Proof.
  intros Hne. unfold tag. induction tr as [|e tr IH]; simpl; [reflexivity|].
  unfold from_leg at 1. simpl. rewrite bool_decide_eq_false_2; [exact IH|].
  intros E. apply Hne. congruence.
Qed.

(** ** Equations of the effect combinators *)

Lemma bind_get {B} (k : Mem -> M B) (m : Mem) : bind get k m = k m m.
Proof. unfold bind, get. destruct (k m m) as [[r m2] t2]. reflexivity. Qed.

Lemma bind_ret {A B} (a : A) (k : A -> M B) (m : Mem) : bind (ret a) k m = k a m.
Proof. unfold bind, ret. destruct (k a m) as [[r m2] t2]. reflexivity. Qed.

Lemma bind_put {B} (m0 : Mem) (k : unit -> M B) (m : Mem) : bind (put m0) k m = k tt m0.
Proof. unfold bind, put. destruct (k tt m0) as [[r m2] t2]. reflexivity. Qed.

Lemma bind_emit {B} (e : Event) (k : unit -> M B) (m : Mem) :
  bind (emit e) k m =
  let '(r, m', tr) := k tt m in (r, m', {| e_ctx := None; e_ev := e |} :: tr).
Proof. unfold bind, emit. destruct (k tt m) as [[r m2] t2]. reflexivity. Qed.

Lemma keeps_done_refl m : keeps_done m m.
Proof. split; reflexivity. Qed.

Lemma keeps_done_trans m1 m2 m3 :
  keeps_done m1 m2 -> keeps_done m2 m3 -> keeps_done m1 m3.
Proof. intros [A B] [C D]. split; congruence. Qed.

(** A computation that returned without touching the state: the counts are
    read off its trace. *)
Ltac quiet_step :=
  split; [first [apply keeps_done_refl | split; reflexivity]
         | split; unfold nKalshi, nPoly; simpl; lia].

Lemma bounded_ret {A} (a : A) k p : bounded k p (ret a).
Proof. intros m r m' tr E. inversion E; subst. quiet_step. Qed.

Lemma bounded_bind {A B} (c : M A) (f : A -> M B) k1 p1 k2 p2 k p :
  bounded k1 p1 c -> (forall a, bounded k2 p2 (f a)) ->
  (k1 + k2 <= k)%nat -> (p1 + p2 <= p)%nat ->
  bounded k p (bind c f).
Proof.
  intros Hc Hf Hk Hp m r m' tr E. unfold bind in E.
  destruct (c m) as [[r1 m1] t1] eqn:E1.
  destruct (Hc _ _ _ _ E1) as (D1 & K1 & P1).
  destruct r1 as [a|e].
  - destruct (f a m1) as [[r2 m2] t2] eqn:E2.
    destruct (Hf _ _ _ _ _ E2) as (D2 & K2 & P2).
    inversion E; subst. rewrite nKalshi_app, nPoly_app.
    split; [eapply keeps_done_trans; eassumption | lia].
  - inversion E; subst. split; [assumption | lia].
Qed.

Lemma bounded_promise_all2 {A B} (a : M A) (b : M B) k1 p1 k2 p2 k p :
  bounded k1 p1 a -> bounded k2 p2 b ->
  (k1 + k2 <= k)%nat -> (p1 + p2 <= p)%nat ->
  bounded k p (promise_all2 a b).
Proof.
  intros Ha Hb Hk Hp m r m' tr E. unfold promise_all2 in E.
  destruct (a m) as [[ra m1] t1] eqn:E1.
  destruct (b m1) as [[rb m2] t2] eqn:E2.
  destruct (Ha _ _ _ _ E1) as (D1 & K1 & P1).
  destruct (Hb _ _ _ _ E2) as (D2 & K2 & P2).
  inversion E; subst. rewrite nKalshi_app, nPoly_app.
  split; [eapply keeps_done_trans; eassumption | lia].
Qed.

Lemma bounded_say msg k p : bounded k p (say msg).
Proof. intros m r m' tr E. inversion E; subst. quiet_step. Qed.

Lemma bounded_log msg k p : bounded k p (appendMonitorLogWithTimestamp msg).
Proof. intros m r m' tr E. inversion E; subst. quiet_step. Qed.

Lemma bounded_placeOrder cfg t s c pc live net : bounded 1 0 (placeOrder cfg t s c pc live net).
Proof.
  intros m r m' tr E. unfold placeOrder in E.
  destruct live, (BOT_DRY_RUN cfg), net; inversion E; subst;
    quiet_step.
Qed.

Lemma bounded_placePolymarketOrder cfg tok price size opts build net :
  bounded 0 1 (placePolymarketOrder cfg tok price size opts build net).
Proof.
  intros m r m' tr E. unfold placePolymarketOrder in E.
  unfold getClobClient, buildClobClient, say, bind, emit, ret, get, put in E.
  repeat case_match; simplify_eq; quiet_step.
Qed.

Lemma bounded_fetchTokenIdsForSlug sl net : bounded 0 0 (fetchTokenIdsForSlug sl net).
Proof.
  intros m r m' tr E. unfold fetchTokenIdsForSlug in E.
  destruct net; try (inversion E; subst; quiet_step).
  unfold bind, emit, throw, ret in E.
  repeat case_match; simplify_eq; quiet_step.
Qed.

Lemma bounded_getTokenIdsForSlugCached sl net : bounded 0 0 (getTokenIdsForSlugCached sl net).
Proof.
  intros m r m' tr E. unfold getTokenIdsForSlugCached in E.
  rewrite bind_get in E.
  destruct (cache_hit (tokenIdsCache m) sl) as [c|].
  - inversion E; subst. quiet_step.
  - unfold bind at 1 in E.
    destruct (fetchTokenIdsForSlug sl net m) as [[r1 m1] t1] eqn:E1.
    destruct (bounded_fetchTokenIdsForSlug _ _ _ _ _ _ E1) as (D1 & K1 & P1).
    destruct r1; [unfold bind, get, put, ret in E; simpl in E|]; inversion E; subst; clear E.
    + rewrite ?app_nil_r.
      split; [|lia]. destruct D1 as [U D]. split; simpl; assumption.
    + split; [assumption | lia].
Qed.

Lemma bounded_arbLegOrders cfg l t sum kAsk polyAsk sl kc ps o :
  bounded 1 1 (arbLegOrders cfg l t sum kAsk polyAsk sl kc ps o).
Proof.
  unfold arbLegOrders.
  eapply (bounded_bind _ _ 0 0 1 1); [apply bounded_say | intros _ | lia | lia].
  destruct (negb (ARB_DRY_RUN cfg)); [| apply bounded_ret].
  eapply (bounded_bind _ _ 1 0 0 1);
    [ eapply (bounded_promise_all2 _ _ 1 0 0 0);
      [apply bounded_placeOrder | apply bounded_getTokenIdsForSlugCached | lia | lia]
    | intros [kr ids] | lia | lia ].
  eapply (bounded_bind _ _ 0 0 0 1);
    [ destruct kr; [apply bounded_ret | apply bounded_log] | intros _ | lia | lia ].
  eapply (bounded_bind _ _ 0 1 0 0);
    [ apply bounded_placePolymarketOrder | intros pr | lia | lia ].
  destruct pr as [[| |]|]; first [apply bounded_ret | apply bounded_log].
Qed.

Lemma arbLeg_done cfg l t sum kAsk polyAsk sl kc ps o m :
  t ∈ doneTickers l m ->
  arbLeg cfg l t sum kAsk polyAsk sl kc ps o m = (Ok tt, m, []).
Proof.
  intros H. unfold arbLeg. rewrite bind_get.
  rewrite bool_decide_eq_true_2 by assumption. reflexivity.
Qed.

Lemma arbLeg_fresh cfg l t sum kAsk polyAsk sl kc ps o m :
  t ∉ doneTickers l m ->
  exists r m' rest,
    arbLegOrders cfg l t sum kAsk polyAsk sl kc ps o (markDone l t m) = (r, m', rest) /\
    arbLeg cfg l t sum kAsk polyAsk sl kc ps o m = (r, m', mark t l :: tag t l rest).
Proof.
  intros H. unfold arbLeg. rewrite bind_get.
  rewrite bool_decide_eq_false_2 by assumption.
  unfold in_leg. rewrite bind_put, bind_emit.
  destruct (arbLegOrders cfg l t sum kAsk polyAsk sl kc ps o (markDone l t m))
    as [[r m'] rest].
  exists r, m', rest. split; reflexivity.
Qed.

Lemma doneTickers_markDone_same l t m :
  doneTickers l (markDone l t m) = {[ t ]} ∪ doneTickers l m.
Proof. destruct l; reflexivity. Qed.

Lemma doneTickers_markDone_other l l' t m :
  l' <> l -> doneTickers l' (markDone l t m) = doneTickers l' m.
Proof. destruct l, l'; intros H; try reflexivity; exfalso; apply H; reflexivity. Qed.

Lemma keeps_done_doneTickers m m' l : keeps_done m m' -> doneTickers l m' = doneTickers l m.
Proof. intros [U D]. destruct l; assumption. Qed.

(** ** One call of the executor *)

(** A call either does nothing at all, or it runs the block of exactly one
    leg [l] for a market that did not have [l] yet: it marks the market
    first, and then sends at most one order to each venue. *)
Lemma checkArb_cases cfg p o m :
  checkArbAndPlaceOrders cfg p o m = (Ok tt, m, []) \/
  (exists l r m' rest,
    (kalshiTicker p ∉ doneTickers l m) /\
    checkArbAndPlaceOrders cfg p o m
    = (r, m', mark (kalshiTicker p) l :: tag (kalshiTicker p) l rest) /\
    keeps_done (markDone l (kalshiTicker p) m) m' /\
    (nKalshi rest <= 1)%nat /\ (nPoly rest <= 1)%nat).
Proof.
  unfold checkArbAndPlaceOrders.
  destruct (kalshi p) as [k|]; [|left; reflexivity].
  destruct (polymarket p) as [pm|]; [|left; reflexivity].
  assert (Hleg : forall l sum kAsk polyAsk sl kc ps,
             arbLeg cfg l (kalshiTicker p) sum kAsk polyAsk sl kc ps o m = (Ok tt, m, []) \/
             (exists l0 r m' rest,
               (kalshiTicker p ∉ doneTickers l0 m) /\
               arbLeg cfg l (kalshiTicker p) sum kAsk polyAsk sl kc ps o m
               = (r, m', mark (kalshiTicker p) l0 :: tag (kalshiTicker p) l0 rest) /\
               keeps_done (markDone l0 (kalshiTicker p) m) m' /\
               (nKalshi rest <= 1)%nat /\ (nPoly rest <= 1)%nat)).
  { intros l sum kAsk polyAsk sl kc ps.
    destruct (decide (kalshiTicker p ∈ doneTickers l m)) as [Hin | Hnot].
    - left. apply arbLeg_done. assumption.
    - right. destruct (arbLeg_fresh cfg l _ sum kAsk polyAsk sl kc ps o m Hnot)
        as (r & m' & rest & Ho & Ha).
      exists l, r, m', rest. split; [assumption|]. split; [assumption|].
      apply (bounded_arbLegOrders _ _ _ _ _ _ _ _ _ _ _ _ _ _ Ho). }
  cbv zeta.
  destruct (inRange cfg _); [apply Hleg|].
  destruct (inRange cfg _); [apply Hleg|].
  left. reflexivity.
Qed.

(** ** A process lifetime *)

Lemma kalshiOrders_app t l a b :
  kalshiOrders t l (a ++ b) = (kalshiOrders t l a + kalshiOrders t l b)%nat.
Proof. unfold kalshiOrders. rewrite List.filter_app. apply nKalshi_app. Qed.

Lemma polyOrders_app t l a b :
  polyOrders t l (a ++ b) = (polyOrders t l a + polyOrders t l b)%nat.
Proof. unfold polyOrders. rewrite List.filter_app. apply nPoly_app. Qed.

Lemma orders_cons_mark t l t' l' tr :
  kalshiOrders t l (mark t' l' :: tr) = kalshiOrders t l tr /\
  polyOrders t l (mark t' l' :: tr) = polyOrders t l tr.
Proof.
  unfold kalshiOrders, polyOrders. simpl.
  destruct (from_leg t l (mark t' l')); split; reflexivity.
Qed.

Lemma orders_block_same t l rest :
  kalshiOrders t l (mark t l :: tag t l rest) = nKalshi rest /\
  polyOrders t l (mark t l :: tag t l rest) = nPoly rest.
Proof.
  destruct (orders_cons_mark t l t l (tag t l rest)) as [-> ->].
  unfold kalshiOrders, polyOrders. rewrite filter_from_leg_tag_same.
  split; [apply nKalshi_tag | apply nPoly_tag].
Qed.

Lemma orders_block_other t l t' l' rest :
  (t', l') <> (t, l) ->
  kalshiOrders t l (mark t' l' :: tag t' l' rest) = 0%nat /\
  polyOrders t l (mark t' l' :: tag t' l' rest) = 0%nat.
Proof.
  intros Hne. destruct (orders_cons_mark t l t' l' (tag t' l' rest)) as [-> ->].
  unfold kalshiOrders, polyOrders.
  rewrite filter_from_leg_tag_other by assumption. split; reflexivity.
Qed.

Lemma runArb_orders cfg t l calls :
  forall m,
    (forall l', doneTickers l' m ⊆ doneTickers l' (runArb cfg calls m).1) /\
    (kalshiOrders t l (runArb cfg calls m).2 <= 1)%nat /\
    (polyOrders t l (runArb cfg calls m).2 <= 1)%nat /\
    (t ∈ doneTickers l m ->
     kalshiOrders t l (runArb cfg calls m).2 = 0%nat /\
     polyOrders t l (runArb cfg calls m).2 = 0%nat).
Proof.
  induction calls as [|[p o] calls IH]; intros m.
  - simpl. repeat split; auto.
  - simpl. destruct (checkArb_cases cfg p o m) as [E | (l0 & r & m1 & rest & Hnot & E & Hk & HK & HP)];
      rewrite E.
    + specialize (IH m). destruct (runArb cfg calls m) as [m2 t2].
      simpl in *. exact IH.
    + specialize (IH m1). destruct (runArb cfg calls m1) as [m2 t2]. simpl in *.
      destruct IH as (Hmono & IK & IP & Hin).
      assert (Hgrow : forall l', doneTickers l' m ⊆ doneTickers l' m1).
      { intros l'. rewrite (keeps_done_doneTickers _ _ l' Hk).
        destruct (decide (l' = l0)) as [-> | Hne].
        - rewrite doneTickers_markDone_same. apply union_subseteq_r.
        - rewrite doneTickers_markDone_other by assumption. reflexivity. }
      split; [intros l'; etransitivity; [apply Hgrow | apply Hmono]|].
      change (mark (kalshiTicker p) l0 :: tag (kalshiTicker p) l0 rest ++ t2)
        with ((mark (kalshiTicker p) l0 :: tag (kalshiTicker p) l0 rest) ++ t2).
      rewrite kalshiOrders_app, polyOrders_app.
      destruct (decide ((kalshiTicker p, l0) = (t, l))) as [Heq | Hne].
      * inversion Heq; subst. clear Heq.
        destruct (orders_block_same (kalshiTicker p) l rest) as [EK EP].
        rewrite EK, EP.
        assert (Hnow : kalshiTicker p ∈ doneTickers l m1).
        { rewrite (keeps_done_doneTickers _ _ l Hk), doneTickers_markDone_same.
          apply elem_of_union_l, elem_of_singleton. reflexivity. }
        destruct (Hin Hnow) as [ZK ZP]. rewrite ZK, ZP.
        repeat split; try lia; contradiction.
      * destruct (orders_block_other t l _ _ rest Hne) as [ZK ZP]. rewrite ZK, ZP.
        repeat split; try lia; apply Hin, Hgrow; assumption.
Qed.

Example snap_up_sum : sumUp_of snap_up = Some (parseFloat "0.88").
Proof. vm_compute. reflexivity. Qed.

(** A failed leg is not retried: the first call fails on both venues, the
    second meets healthy venues and sends nothing. *)
Example failed_leg_not_retried :
  map e_ev (runArb cfg_live [(snap_up, oracle_fail); (snap_up, oracle_ok)] mem0).2
  = [ EvMarkDone UpLeg "KXBTC15M-A";
      EvConsole (MsgArbOpportunity UpLeg (parseFloat "0.88") (parseFloat "0.4")
                                   (parseFloat "0.48") false (of_Z 41) (parseFloat "0.49"));
      EvLogFile (MsgArbOpportunity UpLeg (parseFloat "0.88") (parseFloat "0.4")
                                   (parseFloat "0.48") false (of_Z 41) (parseFloat "0.49"));
      EvKalshiCreateOrder "KXBTC15M-A" yes (of_Z 5) (of_Z 41);
      EvConsole (MsgOrderFailed "KXBTC15M-A" "503");
      EvLogFile (MsgOrderFailed "KXBTC15M-A" "503");
      EvGammaFetch "btc-updown-15m-900";
      EvLogFile (MsgArbKalshiFailed "503");
      EvClobDeriveApiKey;
      EvClobPost "token-down" (parseFloat "0.49") (of_Z 5) "0.01" false;
      EvConsole (MsgPolyFailed "rejected");
      EvLogFile (MsgPolyFailed "rejected");
      EvLogFile (MsgArbPolyFailed "rejected") ].
Proof. vm_compute. reflexivity. Qed.

(** ** Calls that overlap *)

Lemma bind_assoc_run {A B C} (c : M A) (f : A -> M B) (g : B -> M C) (m : Mem) :
  bind (bind c f) g m = bind c (fun a => bind (f a) g) m.
Proof.
  unfold bind. destruct (c m) as [[[a | e] m1] t1]; [|reflexivity].
  destruct (f a m1) as [[[b | e] m2] t2]; [|reflexivity].
  destruct (g b m2) as [[r m3] t3]. rewrite app_assoc. reflexivity.
Qed.

(** A call is its beginning followed by the rest of the block it entered. *)
Lemma checkArb_split cfg p o m :
  checkArbAndPlaceOrders cfg p o m
  = (a <- arbBegin cfg p ;;
     match a with Some a => arbFinish cfg a o | None => ret tt end) m.
Proof.
  assert (Hleg : forall a,
             arbLeg cfg (la_leg a) (la_ticker a) (la_sum a) (la_kAsk a) (la_polyAsk a)
                    (la_slug a) (la_contracts a) (la_polySize a) o m
             = (x <- arbEnter a ;;
                match x with Some a => arbFinish cfg a o | None => ret tt end) m).
  { intros a. unfold arbLeg, arbEnter. rewrite bind_assoc_run, !bind_get.
    destruct (bool_decide (la_ticker a ∈ doneTickers (la_leg a) m)).
    - rewrite bind_ret. reflexivity.
    - rewrite bind_assoc_run. unfold arbFinish, in_leg, bind, put, emit, ret. simpl.
      destruct (arbLegOrders _ _ _ _ _ _ _ _ _ _ _) as [[r m'] tr]. reflexivity. }
  unfold checkArbAndPlaceOrders, arbBegin.
  destruct (kalshi p) as [k|]; [|reflexivity].
  destruct (polymarket p) as [pm|]; [|reflexivity].
  cbv zeta. fold (sumUp k pm). fold (sumDown k pm).
  destruct (inRange cfg (sumUp k pm)); [apply (Hleg (Build_LegArgs _ _ _ _ _ _ _ _))|].
  destruct (inRange cfg (sumDown k pm)); [apply (Hleg (Build_LegArgs _ _ _ _ _ _ _ _))|].
  reflexivity.
Qed.

Lemma arbEnter_cases a m :
  arbEnter a m = (Ok None, m, []) \/
  ((la_ticker a ∉ doneTickers (la_leg a) m) /\
   arbEnter a m
   = (Ok (Some a), markDone (la_leg a) (la_ticker a) m, [mark (la_ticker a) (la_leg a)])).
Proof.
  unfold arbEnter. rewrite bind_get.
  destruct (decide (la_ticker a ∈ doneTickers (la_leg a) m)) as [Hin | Hnot].
  - left. rewrite bool_decide_eq_true_2 by assumption. reflexivity.
  - right. split; [assumption|].
    rewrite bool_decide_eq_false_2 by assumption. reflexivity.
Qed.

Lemma arbBegin_cases cfg p m :
  arbBegin cfg p m = (Ok None, m, []) \/
  (exists a,
      (la_ticker a ∉ doneTickers (la_leg a) m) /\
      arbBegin cfg p m
      = (Ok (Some a), markDone (la_leg a) (la_ticker a) m,
         [mark (la_ticker a) (la_leg a)])).
Proof.
  unfold arbBegin.
  destruct (kalshi p) as [k|]; [|left; reflexivity].
  destruct (polymarket p) as [pm|]; [|left; reflexivity].
  cbv zeta.
  destruct (inRange cfg (sumUp k pm)).
  { destruct (arbEnter_cases (Build_LegArgs UpLeg (kalshiTicker p) (sumUp k pm)
                (div (upAskCents k) (of_Z 100)) (downAsk pm) (slug pm)
                (Math_max ARB_KALSHI_MIN (Math_round (ARB_SIZE cfg)))
                (Math_max ARB_POLY_MIN (ARB_SIZE cfg))) m) as [E | E]; [left | right; eexists]; exact E. }
  destruct (inRange cfg (sumDown k pm)); [|left; reflexivity].
  destruct (arbEnter_cases (Build_LegArgs DownLeg (kalshiTicker p) (sumDown k pm)
              (div (downAskCents k) (of_Z 100)) (upAsk pm) (slug pm)
              (Math_max ARB_KALSHI_MIN (Math_round (ARB_SIZE cfg)))
              (Math_max ARB_POLY_MIN (ARB_SIZE cfg))) m) as [E | E]; [left | right; eexists]; exact E.
Qed.

Lemma arbFinish_spec cfg a o m :
  exists r m' rest,
    arbFinish cfg a o m = (r, m', tag (la_ticker a) (la_leg a) rest) /\
    keeps_done m m' /\ (nKalshi rest <= 1)%nat /\ (nPoly rest <= 1)%nat.
Proof.
  unfold arbFinish, in_leg.
  destruct (arbLegOrders cfg (la_leg a) (la_ticker a) (la_sum a) (la_kAsk a) (la_polyAsk a)
                         (la_slug a) (la_contracts a) (la_polySize a) o m)
    as [[r m'] rest] eqn:E.
  exists r, m', rest. split; [reflexivity|].
  apply (bounded_arbLegOrders _ _ _ _ _ _ _ _ _ _ _ _ _ _ E).
Qed.

Lemma pendingFor_snoc t l pend x :
  pendingFor t l (pend ++ [x])
  = (pendingFor t l pend + if is_for t l x then 1 else 0)%nat.
Proof.
  unfold pendingFor. rewrite List.filter_app, List.length_app. simpl.
  destruct (is_for t l x); reflexivity.
Qed.

Lemma pendingFor_clear t l pend i x :
  pend !! i = Some x ->
  (pendingFor t l (<[ i := None ]> pend) + (if is_for t l x then 1 else 0)
   = pendingFor t l pend)%nat.
Proof.
  unfold pendingFor. revert i. induction pend as [|y pend IH]; intros [|i] H;
    simpl in *; try discriminate.
  - inversion H; subst. destruct (is_for t l x); simpl; lia.
  - specialize (IH i H). destruct (is_for t l y); simpl; lia.
Qed.

Lemma pending_marked_unmarked t l pend m :
  pending_marked pend m -> t ∉ doneTickers l m -> pendingFor t l pend = 0%nat.
Proof.
  unfold pendingFor. intros Hm Hnot. induction pend as [|x pend IH]; [reflexivity|].
  assert (Hrest : pending_marked pend m) by (intros i a H; exact (Hm (S i) a H)).
  simpl. destruct (is_for t l x) eqn:Ex; [|exact (IH Hrest)].
  exfalso. destruct x as [a|]; [|discriminate]. simpl in Ex.
  apply bool_decide_eq_true_1 in Ex. inversion Ex; subst.
  apply Hnot. exact (Hm 0%nat a eq_refl).
Qed.

Lemma pending_marked_mono pend m m' :
  (forall l, doneTickers l m ⊆ doneTickers l m') ->
  pending_marked pend m -> pending_marked pend m'.
Proof. intros Hsub Hm i a H. apply Hsub, (Hm i a H). Qed.

Lemma pending_marked_snoc pend m x :
  pending_marked pend m ->
  (forall a, x = Some a -> la_ticker a ∈ doneTickers (la_leg a) m) ->
  pending_marked (pend ++ [x]) m.
Proof.
  intros Hm Hx i a H. apply lookup_snoc_Some in H as [[_ H] | [_ H]].
  - exact (Hm i a H).
  - apply Hx. exact H.
Qed.

Lemma pending_marked_clear pend m i :
  pending_marked pend m -> pending_marked (<[ i := None ]> pend) m.
Proof.
  intros Hm j a H. destruct (decide (i = j)) as [-> | Hne].
  - destruct (decide (j < length pend)%nat) as [Hlt | Hge].
    + rewrite list_lookup_insert_eq in H by assumption. discriminate.
    + rewrite list_insert_ge in H by lia. exact (Hm j a H).
  - rewrite list_lookup_insert_ne in H by assumption. exact (Hm j a H).
Qed.

Lemma markDone_grows l t m l' : doneTickers l' m ⊆ doneTickers l' (markDone l t m).
Proof.
  destruct (decide (l' = l)) as [-> | Hne].
  - rewrite doneTickers_markDone_same. apply union_subseteq_r.
  - rewrite doneTickers_markDone_other by assumption. reflexivity.
Qed.

Lemma markDone_elem l t m l' t' :
  t' ∈ doneTickers l' (markDone l t m) <-> (t', l') = (t, l) \/ t' ∈ doneTickers l' m.
Proof.
  destruct (decide (l' = l)) as [-> | Hne].
  - rewrite doneTickers_markDone_same, elem_of_union, elem_of_singleton.
    split; intros [H | H]; auto; [left; congruence | left; congruence].
  - rewrite doneTickers_markDone_other by assumption.
    split; [auto | intros [H | H]; [congruence | assumption]].
Qed.

Lemma runTurns_orders cfg t l ts :
  forall pend m,
    pending_marked pend m ->
    (kalshiOrders t l (runTurns cfg ts pend m).2 <= budget t l pend m)%nat /\
    (polyOrders t l (runTurns cfg ts pend m).2 <= budget t l pend m)%nat.
Proof.
  induction ts as [|[p | i o] ts IH]; intros pend m Hm.
  - simpl. unfold kalshiOrders, polyOrders, nKalshi, nPoly. simpl. lia.
  - simpl. destruct (arbBegin_cases cfg p m) as [E | (a & Hnot & E)]; rewrite E;
      cbn [began].
    + specialize (IH (pend ++ [None]) m (pending_marked_snoc _ _ None Hm ltac:(intros a Ha; discriminate Ha))).
      destruct (runTurns cfg ts (pend ++ [None]) m) as [m2 t2]. simpl in *.
      unfold budget in *. rewrite pendingFor_snoc in IH. simpl in IH.
      rewrite Nat.add_0_r in IH. exact IH.
    + assert (Hm' : pending_marked (pend ++ [Some a]) (markDone (la_leg a) (la_ticker a) m)).
      { apply pending_marked_snoc.
        - eapply pending_marked_mono; [|exact Hm]. intros l'. apply markDone_grows.
        - intros a' Ha. inversion Ha; subst. apply markDone_elem. left. reflexivity. }
      specialize (IH _ _ Hm').
      destruct (runTurns cfg ts (pend ++ [Some a]) (markDone (la_leg a) (la_ticker a) m))
        as [m2 t2]. simpl in *.
      destruct (orders_cons_mark t l (la_ticker a) (la_leg a) t2) as [EK EP].
      rewrite EK, EP.
      assert (Hb : (budget t l (pend ++ [Some a]) (markDone (la_leg a) (la_ticker a) m)
                    <= budget t l pend m)%nat).
      { unfold budget. rewrite pendingFor_snoc. simpl.
        destruct (decide ((la_ticker a, la_leg a) = (t, l))) as [Heq | Hne].
        - rewrite bool_decide_eq_true_2 by assumption.
          inversion Heq; subst.
          rewrite (pending_marked_unmarked _ _ _ _ Hm Hnot).
          destruct (decide (la_ticker a ∈ doneTickers (la_leg a) m)); [contradiction|].
          destruct (decide _); lia.
        - rewrite bool_decide_eq_false_2 by assumption.
          destruct (decide (t ∈ doneTickers l m)) as [Hin | Hout].
          + rewrite decide_True by (apply markDone_elem; auto). lia.
          + rewrite decide_False; [lia|].
            intros H. apply markDone_elem in H as [H | H]; [|contradiction].
            apply Hne. congruence. }
      lia.
  - simpl. destruct (pend !! i) as [[a|]|] eqn:Ei; try (apply IH; exact Hm).
    destruct (arbFinish_spec cfg a o m) as (r & m1 & rest & E & Hk & HK & HP).
    rewrite E.
    assert (Hm' : pending_marked (<[ i := None ]> pend) m1).
    { apply pending_marked_clear. eapply pending_marked_mono; [|exact Hm].
      intros l'. rewrite (keeps_done_doneTickers _ _ l' Hk). reflexivity. }
    specialize (IH _ _ Hm').
    destruct (runTurns cfg ts (<[ i := None ]> pend) m1) as [m2 t2]. simpl in *.
    rewrite kalshiOrders_app, polyOrders_app.
    pose proof (pendingFor_clear t l pend i (Some a) Ei) as Hc. simpl in Hc.
    unfold budget in *. rewrite (keeps_done_doneTickers _ _ l Hk) in IH.
    destruct (decide ((la_ticker a, la_leg a) = (t, l))) as [Heq | Hne].
    + rewrite bool_decide_eq_true_2 in Hc by assumption.
      inversion Heq; subst.
      rewrite decide_True in * by exact (Hm i a Ei).
      unfold kalshiOrders at 1, polyOrders at 1.
      rewrite filter_from_leg_tag_same, nKalshi_tag, nPoly_tag. lia.
    + rewrite bool_decide_eq_false_2 in Hc by assumption.
      unfold kalshiOrders at 1, polyOrders at 1.
      rewrite filter_from_leg_tag_other by assumption.
      unfold nKalshi, nPoly. simpl. destruct (decide _); lia.
Qed.

(* ===================================================================== *)
(** * The executor: at most once, the band, one leg per tick, absent venues *)
(* ===================================================================== *)

(** C1. Over a process lifetime of calls of [checkArbAndPlaceOrders], with
    arbitrary snapshots and arbitrary answers of the venues (failures
    included), each (market, leg) has at most one order sent to Kalshi and at
    most one sent to Polymarket; a market that is already in the done-set of
    a leg gets none, and the done-sets only grow.  The same bound holds when
    the calls overlap, each one resumed at any later turn of the event loop.
    Within a call, orders for (market, leg) are sent only if the market was
    not in the leg's done-set, the [add] is the first thing the call does,
    and the market is in the done-set when the call ends, whatever the
    venues answered. *)
Theorem at_most_once_per_market_and_leg (cfg : Config) :
  (forall calls m t l,
      (kalshiOrders t l (runArb cfg calls m).2 <= 1)%nat /\
      (polyOrders t l (runArb cfg calls m).2 <= 1)%nat /\
      (t ∈ doneTickers l m ->
       kalshiOrders t l (runArb cfg calls m).2 = 0%nat /\
       polyOrders t l (runArb cfg calls m).2 = 0%nat) /\
      doneTickers l m ⊆ doneTickers l (runArb cfg calls m).1) /\
  (forall turns m t l,
      (kalshiOrders t l (runTurns cfg turns [] m).2 <= 1)%nat /\
      (polyOrders t l (runTurns cfg turns [] m).2 <= 1)%nat) /\
  (forall p o m,
      checkArbAndPlaceOrders cfg p o m
      = (a <- arbBegin cfg p ;;
         match a with Some a => arbFinish cfg a o | None => ret tt end) m) /\
  (forall p o m t l,
      (0 < kalshiOrders t l (checkArbAndPlaceOrders cfg p o m).2
           + polyOrders t l (checkArbAndPlaceOrders cfg p o m).2)%nat ->
      (t ∉ doneTickers l m) /\
      (t ∈ doneTickers l (checkArbAndPlaceOrders cfg p o m).1.2) /\
      (exists rest, (checkArbAndPlaceOrders cfg p o m).2 = mark t l :: rest)).
Proof.
  split; [|split; [|split]].
  - intros calls m t l.
    destruct (runArb_orders cfg t l calls m) as (Hmono & HK & HP & Hin).
    repeat split; auto; apply Hin; assumption.
  - intros turns m t l.
    assert (Hm : pending_marked [] m) by (intros i a H; discriminate H).
    destruct (runTurns_orders cfg t l turns [] m Hm) as [HK HP].
    assert (Hb : (budget t l [] m <= 1)%nat).
    { unfold budget, pendingFor. destruct (decide _); simpl; lia. }
    split; lia.
  - apply checkArb_split.
  - intros p o m t l Hpos.
    destruct (checkArb_cases cfg p o m)
      as [E | (l0 & r & m1 & rest & Hnot & E & Hk & HK & HP)];
      rewrite E in *; simpl in *.
    + unfold kalshiOrders, polyOrders, nKalshi, nPoly in Hpos. simpl in Hpos. lia.
    + destruct (decide ((kalshiTicker p, l0) = (t, l))) as [Heq | Hne].
      * inversion Heq; subst. split; [assumption|]. split; [|eauto].
        rewrite (keeps_done_doneTickers _ _ l Hk), doneTickers_markDone_same.
        apply elem_of_union_l, elem_of_singleton. reflexivity.
      * destruct (orders_block_other t l _ _ rest Hne) as [ZK ZP].
        rewrite ZK, ZP in Hpos. lia.
Qed.

(** C2. With a lower bound other than -infinity, a sum is in range exactly
    when [low <= s] and [s < high]; the upper bound itself is never in range;
    the lower bound itself is in range when the band is not empty; when
    neither sum of a snapshot is in range the call does nothing; and when the
    UP sum is in range for a market without that leg, the leg fires. *)
Theorem band_is_half_open (cfg : Config) (Hlow : ARB_SUM_LOW cfg <> NegInfinity) :
  (forall s, inRange cfg s = true <->
             le (ARB_SUM_LOW cfg) s = true /\ lt s (ARB_SUM_THRESHOLD cfg) = true) /\
  inRange cfg (ARB_SUM_THRESHOLD cfg) = false /\
  (isFinite (ARB_SUM_LOW cfg) = true ->
   lt (ARB_SUM_LOW cfg) (ARB_SUM_THRESHOLD cfg) = true ->
   inRange cfg (ARB_SUM_LOW cfg) = true) /\
  (forall p o m k pm,
      kalshi p = Some k -> polymarket p = Some pm ->
      inRange cfg (sumUp k pm) = false -> inRange cfg (sumDown k pm) = false ->
      checkArbAndPlaceOrders cfg p o m = (Ok tt, m, [])) /\
  (forall p o m k pm,
      kalshi p = Some k -> polymarket p = Some pm ->
      inRange cfg (sumUp k pm) = true -> kalshiTicker p ∉ upArbDoneTickers m ->
      exists rest, (checkArbAndPlaceOrders cfg p o m).2
                   = mark (kalshiTicker p) UpLeg :: rest).
Proof.
  split; [intros s; apply inRange_spec; assumption|].
  split.
  { unfold inRange. rewrite lt_irrefl. apply andb_false_r. }
  split.
  { intros Hfin Hlt. apply inRange_spec; [assumption|].
    split; [apply le_refl_finite|]; assumption. }
  split; [apply checkArb_out_of_band|].
  intros p o m k pm Hk Hp Hin Hnot.
  unfold checkArbAndPlaceOrders. rewrite Hk, Hp. unfold sumUp in Hin. rewrite Hin.
  destruct (arbLeg_fresh cfg UpLeg (kalshiTicker p)
              (add (div (upAskCents k) (of_Z 100)) (downAsk pm))
              (div (upAskCents k) (of_Z 100)) (downAsk pm) (slug pm)
              (Math_max ARB_KALSHI_MIN (Math_round (ARB_SIZE cfg)))
              (Math_max ARB_POLY_MIN (ARB_SIZE cfg)) o m Hnot)
    as (r & m' & rest & _ & E).
  rewrite E. simpl. eauto.
Qed.

(** C3, as stated, fails: when the UP sum is out of range (1.00) and the
    DOWN sum is in range (0.80), the same call goes on to leg 2, marks the
    market in [downArbDoneTickers] and sends the Kalshi NO order. *)
Lemma leg2_evaluated_when_leg1_unqualified :
  option_map (inRange cfg_live) (sumUp_of snap_down) = Some false /\
  option_map (inRange cfg_live) (sumDown_of snap_down) = Some true /\
  kalshiOrders "KXBTC15M-A" DownLeg (checkArbAndPlaceOrders cfg_live snap_down oracle_ok mem0).2
  = 1%nat /\
  ~ returns_after_leg1 cfg_live.
Proof.
  split; [vm_compute; reflexivity|].
  split; [vm_compute; reflexivity|].
  split; [vm_compute; reflexivity|].
  intros H.
  destruct (H snap_down oracle_ok mem0 _ _ eq_refl eq_refl) as [_ HK].
  vm_compute in HK. discriminate.
Qed.

(** C3, amended. With both venues present: when the UP sum is in range the
    call handles leg 1 only (fired now or already fired) and leaves leg 2
    untouched; when it is not, leg 2 is evaluated in the same call, and fires
    if its sum is in range and the market has not had it; in every case all
    the actions of a call belong to one leg. *)
Theorem one_leg_per_tick (cfg : Config) (p : DualMarketPrices) (o : ArbOracle) (m : Mem)
        (k : MarketPrices) (pm : PolymarketPrices)
        (Hk : kalshi p = Some k) (Hp : polymarket p = Some pm) :
  (inRange cfg (sumUp k pm) = true ->
   downArbDoneTickers (checkArbAndPlaceOrders cfg p o m).1.2 = downArbDoneTickers m /\
   forall e, In e (checkArbAndPlaceOrders cfg p o m).2 ->
             e_ctx e = Some (kalshiTicker p, UpLeg)) /\
  (inRange cfg (sumUp k pm) = false -> inRange cfg (sumDown k pm) = true ->
   kalshiTicker p ∉ downArbDoneTickers m ->
   exists rest, (checkArbAndPlaceOrders cfg p o m).2
                = mark (kalshiTicker p) DownLeg :: rest) /\
  (exists l, forall e, In e (checkArbAndPlaceOrders cfg p o m).2 ->
                       e_ctx e = Some (kalshiTicker p, l)).
Proof.
  assert (Hleg : forall l sum kAsk polyAsk sl kc ps,
             doneTickers (otherLeg l)
               (arbLeg cfg l (kalshiTicker p) sum kAsk polyAsk sl kc ps o m).1.2
             = doneTickers (otherLeg l) m /\
             forall e, In e (arbLeg cfg l (kalshiTicker p) sum kAsk polyAsk sl kc ps o m).2 ->
                       e_ctx e = Some (kalshiTicker p, l)).
  { intros l sum kAsk polyAsk sl kc ps.
    destruct (decide (kalshiTicker p ∈ doneTickers l m)) as [Hin | Hnot].
    - rewrite arbLeg_done by assumption. simpl. split; [reflexivity | contradiction].
    - destruct (arbLeg_fresh cfg l _ sum kAsk polyAsk sl kc ps o m Hnot)
        as (r & m' & rest & Ho & E).
      rewrite E. simpl. split.
      + destruct (bounded_arbLegOrders _ _ _ _ _ _ _ _ _ _ _ _ _ _ Ho) as (Hkeep & _).
        rewrite (keeps_done_doneTickers _ _ _ Hkeep).
        apply doneTickers_markDone_other. destruct l; discriminate.
      + intros e [<- | He]; [reflexivity|].
        unfold tag in He. apply in_map_iff in He as (e' & <- & _). reflexivity. }
  unfold checkArbAndPlaceOrders. rewrite Hk, Hp. cbv zeta.
  fold (sumUp k pm). fold (sumDown k pm).
  destruct (inRange cfg (sumUp k pm)) eqn:Eup.
  - split; [intros _; apply (Hleg UpLeg)|].
    split; [discriminate|]. exists UpLeg. apply (Hleg UpLeg).
  - split; [discriminate|].
    destruct (inRange cfg (sumDown k pm)) eqn:Edown.
    + split.
      * intros _ _ Hnot.
        destruct (arbLeg_fresh cfg DownLeg (kalshiTicker p) (sumDown k pm)
                    (div (downAskCents k) (of_Z 100)) (upAsk pm) (slug pm)
                    (Math_max ARB_KALSHI_MIN (Math_round (ARB_SIZE cfg)))
                    (Math_max ARB_POLY_MIN (ARB_SIZE cfg)) o m Hnot)
          as (r & m' & rest & _ & E).
        rewrite E. simpl. eauto.
      * exists DownLeg. apply (Hleg DownLeg).
    + split; [discriminate|]. exists UpLeg. simpl. contradiction.
Qed.

(** C4. When the Kalshi snapshot or the Polymarket snapshot is absent, the
    call returns at once: the module state is unchanged and nothing is
    logged, marked or sent. *)
Theorem absent_venue_is_noop (cfg : Config) (p : DualMarketPrices) (o : ArbOracle)
        (m : Mem) :
  kalshi p = None \/ polymarket p = None ->
  checkArbAndPlaceOrders cfg p o m = (Ok tt, m, []).
Proof.
  intros H. unfold checkArbAndPlaceOrders.
  destruct (kalshi p), (polymarket p); destruct H; try discriminate; reflexivity.
Qed.

(* ===================================================================== *)
(** * The token-id cache and the venue readers *)
(* ===================================================================== *)

Lemma bind_Ok {A B} (c : M A) (k : A -> M B) m a m1 t1 :
  c m = (Ok a, m1, t1) ->
  bind c k m = (let '(r, m2, t2) := k a m1 in (r, m2, t1 ++ t2)).
Proof. intros E. unfold bind. rewrite E. reflexivity. Qed.

Lemma bind_Throw {A B} (c : M A) (k : A -> M B) m e m1 t1 :
  c m = (Throw e, m1, t1) -> bind c k m = (Throw e, m1, t1).
Proof. intros E. unfold bind. rewrite E. reflexivity. Qed.

(** The Gamma request leaves the module state alone and is one request. *)
Lemma fetchTokenIdsForSlug_run slug net m :
  exists r, fetchTokenIdsForSlug slug net m = (r, m, [entry (EvGammaFetch slug)]).
Proof.
  unfold fetchTokenIdsForSlug. rewrite bind_emit.
  destruct net; simpl; eauto.
  unfold throw, ret.
  destruct (_ || _); [eauto|]. destruct (_ || _); eauto.
Qed.

Lemma cache_hit_Some c slug e :
  cache_hit c slug = Some e <-> c = Some e /\ c_slug e = slug.
Proof.
  unfold cache_hit. destruct c as [e'|]; [|split; [discriminate | intros [? _]; discriminate]].
  destruct (String.eqb (c_slug e') slug) eqn:E.
  - apply String.eqb_eq in E. split.
    + intros H. inversion H; subst. auto.
    + intros [H _]. exact H.
  - apply String.eqb_neq in E. split; [discriminate|].
    intros [H1 H2]. inversion H1; subst. contradiction.
Qed.

Lemma cache_hit_None c slug :
  cache_hit c slug = None <-> (forall e, c = Some e -> c_slug e <> slug).
Proof.
  split.
  - intros H e He Hs. assert (cache_hit c slug = Some e) by (apply cache_hit_Some; auto).
    congruence.
  - intros H. destruct (cache_hit c slug) as [e|] eqn:E; [|reflexivity].
    apply cache_hit_Some in E as [E1 E2]. exfalso. exact (H e E1 E2).
Qed.

(** C7. When the cache holds an entry for the slug, the call returns the
    cached identifiers, leaves the cache as it is and sends no request.
    Otherwise it sends exactly one Gamma request; if the resolution succeeds
    the cache becomes the entry for this slug, whatever it held, and the
    fresh identifiers are returned; if it fails the error is thrown to the
    caller and the cache is left as it was. *)
Theorem token_cache_contract (slug : string) (net : GammaOutcome) (m : Mem) :
  (forall c, tokenIdsCache m = Some c -> c_slug c = slug ->
     getTokenIdsForSlugCached slug net m
     = (Ok {| upTokenId := c_upTokenId c; downTokenId := c_downTokenId c |}, m, [])) /\
  ((forall c, tokenIdsCache m = Some c -> c_slug c <> slug) ->
   exists r,
     fetchTokenIdsForSlug slug net m = (r, m, [entry (EvGammaFetch slug)]) /\
     match r with
     | Ok fresh =>
         getTokenIdsForSlugCached slug net m
         = (Ok {| upTokenId := f_upTokenId fresh; downTokenId := f_downTokenId fresh |},
            set_tokenIdsCache (Some (cache_of slug fresh)) m,
            [entry (EvGammaFetch slug)])
     | Throw e =>
         getTokenIdsForSlugCached slug net m = (Throw e, m, [entry (EvGammaFetch slug)])
     end).
Proof.
  split.
  - intros c Hc Hs. unfold getTokenIdsForSlugCached. rewrite bind_get.
    assert (H : cache_hit (tokenIdsCache m) slug = Some c) by (apply cache_hit_Some; auto).
    rewrite H. reflexivity.
  - intros Hmiss. apply cache_hit_None in Hmiss.
    destruct (fetchTokenIdsForSlug_run slug net m) as [r Er].
    exists r. split; [exact Er|].
    unfold getTokenIdsForSlugCached. rewrite bind_get, Hmiss.
    destruct r as [fresh | e].
    + rewrite (bind_Ok _ _ _ _ _ _ Er). reflexivity.
    + rewrite (bind_Throw _ _ _ _ _ _ Er). reflexivity.
Qed.

(** ** The venue readers *)

Lemma try_catch_total {A} (c : M A) (d : A) (m : Mem) :
  exists a m' tr, try_catch c (fun _ => ret d) m = (Ok a, m', tr).
Proof.
  unfold try_catch. destruct (c m) as [[[a | e] m1] t1]; simpl; eauto.
Qed.

Lemma promise_all2_Ok {A B} (a : M A) (b : M B) m x m1 t1 y m2 t2 :
  a m = (Ok x, m1, t1) -> b m1 = (Ok y, m2, t2) ->
  promise_all2 a b m = (Ok (x, y), m2, t1 ++ t2).
Proof. intros Ea Eb. unfold promise_all2. rewrite Ea, Eb. reflexivity. Qed.

Lemma getMarketPrices_run (t : string) (now : Z) (net : GetMarketOutcome) (m : Mem) :
  exists k,
    getMarketPrices t now net m = (Ok k, m, [entry (EvKalshiGetMarket t)]) /\
    (forall msg, net = GetMarketThrows msg -> k = None).
Proof.
  unfold getMarketPrices, try_catch. rewrite bind_emit.
  destruct net as [msg | [mk |]]; simpl; eexists; (split; [reflexivity|]);
    intros msg' H; try discriminate; reflexivity.
Qed.

(** C8. [getDualPrices] always returns a snapshot.  Its Kalshi field is what
    the Kalshi read yields on its own, its Polymarket field is what the
    Polymarket read yields on its own from the same module state, and the
    trace is the two reads one after the other.  When the Kalshi request
    throws the Kalshi field is null; when the token resolution or a book
    request throws the Polymarket field is null; in neither case is the
    other field affected. *)
Theorem dual_fetch_always_yields_snapshot
        (t : string) (market : option string) (o : FetchOracle) (m : Mem) :
  exists k pmr m' trp,
    getMarketPrices t (f_kalshiDoneAt o) (f_getMarket o) m
    = (Ok k, m, [entry (EvKalshiGetMarket t)]) /\
    getPolymarketAskPrices (nullish market "btc"%string) (f_polyStartAt o) (f_polyDoneAt o)
                           (f_gamma o) (f_bookUp o) (f_bookDown o) m
    = (Ok pmr, m', trp) /\
    getDualPrices t market o m
    = (Ok {| kalshiTicker := t; kalshi := k; polymarket := pmr; fetchedAt := f_startAt o |},
       m', entry (EvKalshiGetMarket t) :: trp) /\
    (forall msg, f_getMarket o = GetMarketThrows msg -> k = None) /\
    (forall e,
        (getTokenIdsForSlugCached
           (slugForCurrent15m (nullish market "btc"%string) (f_polyStartAt o))
           (f_gamma o) m).1.1 = Throw e ->
        pmr = None) /\
    (forall msg, f_bookUp o = BookFetchThrows msg -> pmr = None) /\
    (forall msg, f_bookDown o = BookFetchThrows msg -> pmr = None).
Proof.
  destruct (getMarketPrices_run t (f_kalshiDoneAt o) (f_getMarket o) m) as (k & Ek & Hk).
  set (mk := nullish market "btc"%string).
  destruct (try_catch_total
              (ids <- getTokenIdsForSlugCached (slugForCurrent15m mk (f_polyStartAt o))
                                               (f_gamma o) ;;
               r <- promise_all2 (getBestAskForToken (upTokenId ids) (f_bookUp o))
                                 (getBestAskForToken (downTokenId ids) (f_bookDown o)) ;;
               match r with
               | (Some upAsk, Some downAsk) =>
                   ret (Some {| slug := slugForCurrent15m mk (f_polyStartAt o);
                                upAsk := upAsk; downAsk := downAsk;
                                pp_fetchedAt := f_polyDoneAt o |})
               | _ => ret None
               end) None m) as (pmr & m' & trp & Ep).
  change (getPolymarketAskPrices mk (f_polyStartAt o) (f_polyDoneAt o)
                                 (f_gamma o) (f_bookUp o) (f_bookDown o) m
          = (Ok pmr, m', trp)) in Ep.
  exists k, pmr, m', trp.
  split; [exact Ek|]. split; [exact Ep|].
  split.
  { unfold getDualPrices. fold mk.
    rewrite (bind_Ok _ _ _ _ _ _ (promise_all2_Ok _ _ _ _ _ _ _ _ _ Ek Ep)).
    simpl. rewrite app_nil_r. reflexivity. }
  split; [exact Hk|].
  unfold getPolymarketAskPrices, try_catch in Ep.
  split; [|split].
  - intros e He. unfold bind at 1 in Ep.
    destruct (getTokenIdsForSlugCached _ _ m) as [[r1 m1] t1]. simpl in He. subst r1.
    simpl in Ep. inversion Ep. reflexivity.
  - intros msg Hb. unfold bind at 1 in Ep.
    destruct (getTokenIdsForSlugCached _ _ m) as [[[ids | e] m1] t1];
      [|simpl in Ep; inversion Ep; reflexivity].
    rewrite Hb in Ep. unfold bind, promise_all2 in Ep.
    unfold getBestAskForToken at 1 in Ep. rewrite bind_emit in Ep. unfold throw in Ep.
    destruct (getBestAskForToken (downTokenId ids) (f_bookDown o) m1) as [[rb m2] t2].
    simpl in Ep. inversion Ep. reflexivity.
  - intros msg Hb. unfold bind at 1 in Ep.
    destruct (getTokenIdsForSlugCached _ _ m) as [[[ids | e] m1] t1];
      [|simpl in Ep; inversion Ep; reflexivity].
    rewrite Hb in Ep. unfold bind, promise_all2 in Ep.
    destruct (getBestAskForToken (upTokenId ids) (f_bookUp o) m1) as [[ra m2] t2].
    unfold getBestAskForToken in Ep. rewrite bind_emit in Ep. unfold throw in Ep.
    destruct ra; simpl in Ep; inversion Ep; reflexivity.
Qed.

(* ===================================================================== *)
(** * Limit prices *)
(* ===================================================================== *)

Lemma emits_ret P {A} (a : A) : emits P (ret a).
Proof. intros m. constructor. Qed.

Lemma emits_emit (P : Event -> Prop) e : P e -> emits P (emit e).
Proof. intros H m. repeat constructor. exact H. Qed.

Lemma emits_say (P : Event -> Prop) msg :
  P (EvConsole msg) -> P (EvLogFile msg) -> emits P (say msg).
Proof. intros H1 H2 m. repeat constructor; assumption. Qed.

Lemma emits_bind P {A B} (c : M A) (f : A -> M B) :
  emits P c -> (forall a, emits P (f a)) -> emits P (bind c f).
Proof.
  intros Hc Hf m. unfold bind. specialize (Hc m).
  destruct (c m) as [[[a | e] m1] t1]; simpl in *; [|assumption].
  specialize (Hf a m1). destruct (f a m1) as [[r2 m2] t2]. simpl in *.
  apply Forall_app; split; assumption.
Qed.

Lemma emits_promise_all2 P {A B} (a : M A) (b : M B) :
  emits P a -> emits P b -> emits P (promise_all2 a b).
Proof.
  intros Ha Hb m. unfold promise_all2. specialize (Ha m).
  destruct (a m) as [[ra m1] t1]. specialize (Hb m1).
  destruct (b m1) as [[rb m2] t2]. simpl in *.
  apply Forall_app; split; assumption.
Qed.

Lemma emits_getTokenIdsForSlugCached (P : Event -> Prop) slug net :
  (forall s, P (EvGammaFetch s)) -> emits P (getTokenIdsForSlugCached slug net).
Proof.
  intros HP m. unfold getTokenIdsForSlugCached. rewrite bind_get.
  destruct (cache_hit (tokenIdsCache m) slug); [constructor|].
  destruct (fetchTokenIdsForSlug_run slug net m) as [[fresh | e] Er].
  - rewrite (bind_Ok _ _ _ _ _ _ Er). simpl. repeat constructor. apply HP.
  - rewrite (bind_Throw _ _ _ _ _ _ Er). simpl. repeat constructor. apply HP.
Qed.

Lemma emits_placeOrder cfg t l c kAsk polyAsk net :
  emits (priced cfg t l kAsk polyAsk)
        (placeOrder cfg t (legSide l) c (kalshiLimitCents cfg kAsk) true net).
Proof.
  intros m. unfold placeOrder. destruct net; simpl; repeat constructor.
Qed.

Lemma emits_placePolymarketOrder cfg t l kAsk polyAsk tok size build net :
  emits (priced cfg t l kAsk polyAsk)
        (placePolymarketOrder cfg tok (polyLimit cfg polyAsk) size None build net).
Proof.
  intros m. unfold placePolymarketOrder, getClobClient, buildClobClient.
  unfold say, bind, emit, ret, get, put.
  repeat case_match; simplify_eq; simpl; repeat constructor.
Qed.

Lemma emits_arbLegOrders cfg l t sum k pm sl kc ps o :
  emits (priced cfg t l (legKalshiAsk l k) (legPolyAsk l pm))
        (arbLegOrders cfg l t sum (legKalshiAsk l k) (legPolyAsk l pm) sl kc ps o).
Proof.
  unfold arbLegOrders.
  apply emits_bind; [apply emits_say; simpl; split; reflexivity | intros _].
  destruct (negb (ARB_DRY_RUN cfg)); [|apply emits_ret].
  apply emits_bind.
  { apply emits_promise_all2;
      [apply emits_placeOrder | apply emits_getTokenIdsForSlugCached; intros; exact I]. }
  intros [kr ids].
  apply emits_bind.
  { destruct kr; [apply emits_ret | apply emits_emit; exact I]. }
  intros _. apply emits_bind; [apply emits_placePolymarketOrder|].
  intros [[| |]|]; first [apply emits_ret | apply emits_emit; exact I].
Qed.

Lemma placeOrder_live cfg t s c pc net m :
  exists r rest,
    placeOrder cfg t s c pc true net m
    = (r, m, entry (EvKalshiCreateOrder t s c (Math_max (of_Z 1) (Math_min (of_Z 99) pc)))
               :: rest).
Proof. unfold placeOrder. destruct net; simpl; eauto. Qed.

Lemma say_run msg m :
  say msg m = (Ok tt, m, [entry (EvConsole msg); entry (EvLogFile msg)]).
Proof. reflexivity. Qed.

Lemma bind_trace {A B} (c : M A) (k : A -> M B) (m : Mem) :
  (bind c k m).2
  = (c m).2 ++ match (c m).1.1 with
               | Ok a => (k a (c m).1.2).2
               | Throw _ => []
               end.
Proof.
  unfold bind. destruct (c m) as [[[a | e] m1] t1]; simpl.
  - destruct (k a m1) as [[r2 m2] t2]. reflexivity.
  - symmetry. apply app_nil_r.
Qed.

Lemma promise_all2_trace {A B} (a : M A) (b : M B) (m : Mem) :
  (promise_all2 a b m).2 = (a m).2 ++ (b (a m).1.2).2.
Proof.
  unfold promise_all2. destruct (a m) as [[ra m1] t1]. simpl.
  destruct (b m1) as [[rb m2] t2]. reflexivity.
Qed.

Lemma arbLegOrders_live cfg l t sum kAsk polyAsk sl kc ps o m :
  ARB_DRY_RUN cfg = false ->
  exists pre post,
    (arbLegOrders cfg l t sum kAsk polyAsk sl kc ps o m).2
    = pre ++ entry (EvKalshiCreateOrder t (legSide l) kc (kalshiSubmitted cfg kAsk)) :: post.
Proof.
  intros Hlive. unfold arbLegOrders. rewrite Hlive. simpl negb. cbv iota.
  rewrite bind_trace, say_run. cbn [fst snd].
  rewrite bind_trace, promise_all2_trace.
  destruct (placeOrder_live cfg t (legSide l) kc
              (Math_round (mul (add kAsk (ARB_PRICE_BUFFER cfg)) (of_Z 100)))
              (o_createOrder o) m) as (r1 & rest1 & E1).
  rewrite E1. cbn [fst snd].
  eexists [_; _], _. simpl. reflexivity.
Qed.

Lemma arbLeg_priced cfg l t sum k pm sl kc ps o m :
  forall e,
    In e (arbLeg cfg l t sum (legKalshiAsk l k) (legPolyAsk l pm) sl kc ps o m).2 ->
    e_ctx e = Some (t, l) /\
    priced cfg t l (legKalshiAsk l k) (legPolyAsk l pm) (e_ev e).
Proof.
  intros e He.
  destruct (decide (t ∈ doneTickers l m)) as [Hin | Hnot].
  - rewrite arbLeg_done in He by assumption. contradiction.
  - destruct (arbLeg_fresh cfg l t sum (legKalshiAsk l k) (legPolyAsk l pm)
                           sl kc ps o m Hnot) as (r & m' & rest & Ho & E).
    rewrite E in He. simpl in He. destruct He as [<- | He].
    + split; [reflexivity | exact I].
    + unfold tag in He. apply in_map_iff in He as (e' & <- & He').
      split; [reflexivity|]. simpl.
      pose proof (emits_arbLegOrders cfg l t sum k pm sl kc ps o (markDone l t m)) as Hall.
      rewrite Ho in Hall. simpl in Hall.
      rewrite List.Forall_forall in Hall. apply Hall. exact He'.
Qed.

Lemma arbLeg_live cfg l t sum kAsk polyAsk sl kc ps o m l' rest :
  ARB_DRY_RUN cfg = false ->
  (arbLeg cfg l t sum kAsk polyAsk sl kc ps o m).2 = mark t l' :: rest ->
  l' = l /\
  exists pre post,
    rest = pre ++ {| e_ctx := Some (t, l);
                     e_ev := EvKalshiCreateOrder t (legSide l) kc
                                                 (kalshiSubmitted cfg kAsk) |} :: post.
Proof.
  intros Hlive E.
  destruct (decide (t ∈ doneTickers l m)) as [Hin | Hnot].
  - rewrite arbLeg_done in E by assumption. discriminate.
  - destruct (arbLeg_fresh cfg l t sum kAsk polyAsk sl kc ps o m Hnot)
      as (r & m' & rest0 & Ho & E').
    rewrite E' in E. simpl in E. unfold mark in E.
    assert (El : l' = l) by congruence. subst l'.
    assert (Er : rest = tag t l rest0) by congruence. subst rest.
    split; [reflexivity|].
    destruct (arbLegOrders_live cfg l t sum kAsk polyAsk sl kc ps o (markDone l t m) Hlive)
      as (pre & post & Et).
    rewrite Ho in Et. simpl in Et. subst rest0.
    exists (tag t l pre), (tag t l post). unfold tag. rewrite map_app. reflexivity.
Qed.

(** C9. Every event of a call belongs to one leg and carries that leg's
    prices: a Kalshi order is submitted at
    [max(1, min(99, round((ask + buffer) * 100)))] cents for the leg's Kalshi
    ask, the opportunity line reports [round((ask + buffer) * 100)] and
    [min(1, ask + buffer)] for the leg's Polymarket ask, and a Polymarket
    order is posted at that limit rounded to the tick.  In live mode a leg
    that fires submits the Kalshi order.  With buffer 0.01, Kalshi UP at 40
    cents and Polymarket DOWN at 0.48, the orders go out at 41 cents (0.41)
    and at 0.49. *)
Theorem limit_prices_are_ask_plus_buffer :
  (forall cfg p o m k pm,
      kalshi p = Some k -> polymarket p = Some pm ->
      forall e, In e (checkArbAndPlaceOrders cfg p o m).2 ->
                exists l,
                  e_ctx e = Some (kalshiTicker p, l) /\
                  priced cfg (kalshiTicker p) l (legKalshiAsk l k) (legPolyAsk l pm)
                         (e_ev e)) /\
  (forall cfg p o m k pm l rest,
      kalshi p = Some k -> polymarket p = Some pm ->
      ARB_DRY_RUN cfg = false ->
      (checkArbAndPlaceOrders cfg p o m).2 = mark (kalshiTicker p) l :: rest ->
      exists pre post,
        rest = pre ++ {| e_ctx := Some (kalshiTicker p, l);
                         e_ev := EvKalshiCreateOrder
                                   (kalshiTicker p) (legSide l) (kalshiContracts cfg)
                                   (kalshiSubmitted cfg (legKalshiAsk l k)) |} :: post) /\
  (ARB_PRICE_BUFFER cfg_live = parseFloat "0.01" /\
   map e_ev (checkArbAndPlaceOrders cfg_live snap_up oracle_ok mem0).2
   = [ EvMarkDone UpLeg "KXBTC15M-A";
       EvConsole (MsgArbOpportunity UpLeg (parseFloat "0.88") (parseFloat "0.40")
                                    (parseFloat "0.48") false (of_Z 41) (parseFloat "0.49"));
       EvLogFile (MsgArbOpportunity UpLeg (parseFloat "0.88") (parseFloat "0.40")
                                    (parseFloat "0.48") false (of_Z 41) (parseFloat "0.49"));
       EvKalshiCreateOrder "KXBTC15M-A" yes (of_Z 5) (of_Z 41);
       EvConsole (MsgOrderPlaced "kalshi-1" "KXBTC15M-A" yes (of_Z 5) (of_Z 41));
       EvLogFile (MsgOrderPlaced "kalshi-1" "KXBTC15M-A" yes (of_Z 5) (of_Z 41));
       EvGammaFetch "btc-updown-15m-900";
       EvClobDeriveApiKey;
       EvClobPost "token-down" (parseFloat "0.49") (of_Z 5) "0.01" false;
       EvConsole (MsgPolyPlaced "poly-1" "token-down" (parseFloat "0.49") (of_Z 5));
       EvLogFile (MsgPolyPlaced "poly-1" "token-down" (parseFloat "0.49") (of_Z 5)) ] /\
   div (of_Z 41) (of_Z 100) = parseFloat "0.41").
Proof.
  split; [|split].
  - intros cfg p o m k pm Hk Hp e He.
    unfold checkArbAndPlaceOrders in He. rewrite Hk, Hp in He. cbv zeta in He.
    destruct (inRange cfg _) in He.
    { exists UpLeg. apply (arbLeg_priced cfg UpLeg _ _ k pm _ _ _ _ _ e He). }
    destruct (inRange cfg _) in He.
    { exists DownLeg. apply (arbLeg_priced cfg DownLeg _ _ k pm _ _ _ _ _ e He). }
    contradiction.
  - intros cfg p o m k pm l rest Hk Hp Hlive E.
    unfold checkArbAndPlaceOrders in E. rewrite Hk, Hp in E. cbv zeta in E.
    destruct (inRange cfg _) in E.
    { destruct (arbLeg_live _ _ _ _ _ _ _ _ _ _ _ _ _ Hlive E) as [-> H]. exact H. }
    destruct (inRange cfg _) in E.
    { destruct (arbLeg_live _ _ _ _ _ _ _ _ _ _ _ _ _ Hlive E) as [-> H]. exact H. }
    discriminate.
  - split; [vm_compute; reflexivity|]. split; vm_compute; reflexivity.
Qed.

(* ===================================================================== *)
(** * Missing Kalshi asks *)
(* ===================================================================== *)

Lemma dollarsToCents_unparseable (d : option string) :
  unparseable d -> dollarsToCents d = of_Z 0.
Proof.
  intros [-> | [-> | (s & -> & Hs)]]; try reflexivity.
  unfold dollarsToCents. destruct (String.eqb s ""); [reflexivity|].
  rewrite Hs. reflexivity.
Qed.

Lemma inRange_zero_sign (cfg : Config) (a b : bool) :
  inRange cfg (S754_zero a) = inRange cfg (S754_zero b).
Proof.
  unfold inRange, ge, lt, isFinite, SFleb, SFltb.
  destruct (ARB_SUM_LOW cfg), (ARB_SUM_THRESHOLD cfg); reflexivity.
Qed.

(** Adding a Kalshi ask of zero cents leaves the band test to the Polymarket
    ask alone. *)
Lemma inRange_zero_ask (cfg : Config) (y : number) :
  inRange cfg (add (div (of_Z 0) (of_Z 100)) y) = inRange cfg y.
Proof.
  change (div (of_Z 0) (of_Z 100)) with (S754_zero false).
  destruct y as [s | s | | s m e]; try reflexivity.
  destruct s; simpl; [apply inRange_zero_sign | reflexivity].
Qed.

Lemma inRange_below_low (cfg : Config) (s : number) :
  le (ARB_SUM_LOW cfg) s = false -> inRange cfg s = false.
Proof.
  intros H. unfold inRange, ge. unfold le in H. rewrite H.
  rewrite andb_false_r. reflexivity.
Qed.

(** C10. A missing, empty or non-numeric dollar string is zero cents.  When
    the integer-cent ask of a Kalshi market is missing and its dollar string
    is such, [getMarketPrices] still returns a snapshot, with that ask at
    zero cents.  Such a snapshot passes the guard of
    [checkArbAndPlaceOrders]: the UP sum is then in range exactly when the
    Polymarket DOWN ask alone is; when that ask is in range the leg fires,
    and when it is below the lower bound nothing is done for the UP leg.
    With the default band, a market without asks and a Polymarket DOWN ask
    of 0.48 sends nothing, and with a DOWN ask of 0.80 it sends a Kalshi YES
    order at 1 cent. *)
Theorem missing_ask_is_zero_cents :
  (forall d, unparseable d -> dollarsToCents d = of_Z 0) /\
  (forall t now mk m,
      exists k,
        getMarketPrices t now (GetMarketResp (Some mk)) m
        = (Ok (Some k), m, [entry (EvKalshiGetMarket t)]) /\
        (yes_ask mk = None -> unparseable (yes_ask_dollars mk) -> upAskCents k = of_Z 0) /\
        (no_ask mk = None -> unparseable (no_ask_dollars mk) -> downAskCents k = of_Z 0)) /\
  (forall cfg p o m k pm,
      kalshi p = Some k -> polymarket p = Some pm -> upAskCents k = of_Z 0 ->
      inRange cfg (sumUp k pm) = inRange cfg (downAsk pm) /\
      (inRange cfg (downAsk pm) = true -> kalshiTicker p ∉ upArbDoneTickers m ->
       exists rest, (checkArbAndPlaceOrders cfg p o m).2
                    = mark (kalshiTicker p) UpLeg :: rest) /\
      (le (ARB_SUM_LOW cfg) (downAsk pm) = false ->
       forall e, In e (checkArbAndPlaceOrders cfg p o m).2 ->
                 e_ctx e = Some (kalshiTicker p, DownLeg))) /\
  (dollarsToCents (Some "0.5600"%string) = of_Z 56 /\
   dollarsToCents (Some "n/a"%string) = of_Z 0 /\
   option_map upAskCents (kalshi (snap_zero "0.48")) = Some (of_Z 0) /\
   checkArbAndPlaceOrders cfg_live (snap_zero "0.48") oracle_ok mem0 = (Ok tt, mem0, []) /\
   List.filter isKalshiOrder (checkArbAndPlaceOrders cfg_live (snap_zero "0.80") oracle_ok mem0).2
   = [ {| e_ctx := Some ("KXBTC15M-A"%string, UpLeg);
          e_ev := EvKalshiCreateOrder "KXBTC15M-A" yes (of_Z 5) (of_Z 1) |} ]).
Proof.
  split; [exact dollarsToCents_unparseable|].
  split.
  { intros t now mk m. unfold getMarketPrices, try_catch. rewrite bind_emit. simpl.
    eexists. split; [reflexivity|]. simpl. split.
    - intros -> H. apply dollarsToCents_unparseable. exact H.
    - intros -> H. apply dollarsToCents_unparseable. exact H. }
  split.
  { intros cfg p o m k pm Hk Hp Hz.
    assert (Hsum : inRange cfg (sumUp k pm) = inRange cfg (downAsk pm)).
    { unfold sumUp. rewrite Hz. apply inRange_zero_ask. }
    split; [exact Hsum|]. split.
    - intros Hin Hnot.
      unfold checkArbAndPlaceOrders. rewrite Hk, Hp. cbv zeta.
      fold (sumUp k pm). rewrite Hsum, Hin.
      destruct (arbLeg_fresh cfg UpLeg (kalshiTicker p) (sumUp k pm)
                  (div (upAskCents k) (of_Z 100)) (downAsk pm) (slug pm)
                  (Math_max ARB_KALSHI_MIN (Math_round (ARB_SIZE cfg)))
                  (Math_max ARB_POLY_MIN (ARB_SIZE cfg)) o m Hnot)
        as (r & m' & rest & _ & E).
      rewrite E. simpl. eauto.
    - intros Hlow e He.
      unfold checkArbAndPlaceOrders in He. rewrite Hk, Hp in He. cbv zeta in He.
      fold (sumUp k pm) in He. rewrite Hsum, (inRange_below_low _ _ Hlow) in He.
      destruct (inRange cfg _) in He; [|contradiction].
      apply (arbLeg_priced cfg DownLeg _ _ k pm _ _ _ _ _ e He). }
  repeat split; vm_compute; reflexivity.
Qed.

(* ===================================================================== *)
(** * The poll loop *)
(* ===================================================================== *)

Module MonitorFacts.
Import Monitor.

Lemma In_delete {A} (a : A) (i : nat) (l : list A) : In a (delete i l) -> In a l.
Proof.
  revert i. induction l as [|x l IH]; intros [|i] H; simpl in *; auto.
  destruct H as [-> | H]; auto. right. exact (IH i H).
Qed.

Lemma length_delete_lookup {A} (i : nat) (l : list A) (x : A) :
  l !! i = Some x -> S (length (delete i l)) = length l.
Proof.
  revert i. induction l as [|y l IH]; intros [|i] H; simpl in *; try discriminate.
  - reflexivity.
  - f_equal. exact (IH i H).
Qed.

Lemma guarded_inFlight s : guarded s -> (inFlight s <= 1)%nat.
Proof.
  intros [Hlen _]. unfold inFlight.
  etransitivity; [apply length_filter | exact Hlen].
Qed.

Section Steps.

Variable c : Consts.

Lemma scheduleNext_keeps startedAt now s :
  awaiting (scheduleNext c startedAt now s).1 = awaiting s /\
  pollInProgress (scheduleNext c startedAt now s).1 = pollInProgress s.
Proof. unfold scheduleNext. destruct (stopped s); simpl; auto. Qed.

Lemma poll_resume_dual_keeps startedAt dual thr stp now s :
  awaiting (poll_resume_dual c startedAt dual thr stp now s).1 = awaiting s /\
  pollInProgress (poll_resume_dual c startedAt dual thr stp now s).1 = false.
Proof.
  unfold poll_resume_dual. destruct (stopped s) eqn:Es; [simpl; auto|].
  destruct stp, thr; unfold scheduleNext; simpl; rewrite ?Es; simpl; auto.
Qed.

Lemma poll_fetch_guarded startedAt now s :
  awaiting s = [] -> pollInProgress s = true ->
  guarded (poll_fetch c startedAt now s).1.
Proof.
  intros Ha Hp. unfold poll_fetch.
  destruct (stopped s || ticker_falsy (kalshiTicker s)).
  - unfold poll_finally. simpl.
    destruct (scheduleNext_keeps startedAt now s) as [E _].
    split; simpl; [rewrite E, Ha; simpl; lia | intros _; rewrite E; exact Ha].
  - split; simpl; [rewrite Ha; simpl; lia | intros H; congruence].
Qed.

Lemma poll_enter_guarded now slot now' s :
  guarded s -> guarded (poll_enter c now slot now' s).1.
Proof.
  intros [Hlen Hidle]. unfold poll_enter.
  destruct (pollInProgress s) eqn:Ep;
    [split; [assumption | simpl; rewrite Ep; discriminate]|].
  specialize (Hidle eq_refl).
  simpl. destruct (stopped s) eqn:Es.
  { split; simpl; [rewrite Hidle; simpl; lia | intros _; exact Hidle]. }
  destruct (useAutoRefresh c && negb (String.eqb slot (lastSlot s))).
  - destruct (restartOnQuarterHour c); split; simpl;
      try (rewrite Hidle; simpl; lia); intros H; congruence.
  - apply poll_fetch_guarded; [exact Hidle | reflexivity].
Qed.

Lemma step_guarded l s : guarded s -> guarded (step c l s).1.
Proof.
  intros G. unfold step. destruct (exited s); [exact G|].
  destruct G as [Hlen Hidle]. destruct l as [i now slot now' | now slot now' | i res now | i dual thr stp now |].
  - destruct (timers s !! i); [|split; assumption].
    apply poll_enter_guarded. split; assumption.
  - apply poll_enter_guarded. split; assumption.
  - destruct (awaiting s !! i) as [[t0 | t0]|] eqn:Ei; try (split; assumption).
    assert (Hbusy : pollInProgress s = true).
    { destruct (pollInProgress s); [reflexivity|]. rewrite Hidle in Ei by reflexivity.
      discriminate. }
    assert (Hempty : delete i (awaiting s) = []).
    { pose proof (length_delete_lookup _ _ _ Ei) as HL.
      destruct (delete i (awaiting s)); [reflexivity | simpl in HL; lia]. }
    unfold poll_resume_markets. destruct res as [markets|].
    + apply poll_fetch_guarded; destruct markets; simpl; assumption.
    + split; simpl; [rewrite Hempty; simpl; lia | intros _; exact Hempty].
  - destruct (awaiting s !! i) as [[t0 | t0]|] eqn:Ei; try (split; assumption).
    assert (Hempty : delete i (awaiting s) = []).
    { pose proof (length_delete_lookup _ _ _ Ei) as HL.
      destruct (delete i (awaiting s)); [reflexivity | simpl in HL; lia]. }
    destruct (poll_resume_dual_keeps t0 dual thr stp now
                (set_awaiting (delete i (awaiting s)) s)) as [Ea _].
    simpl in Ea. split; [rewrite Ea, Hempty; simpl; lia | intros _; rewrite Ea; exact Hempty].
  - split; assumption.
Qed.

Lemma run_cons l ls s :
  run c (l :: ls) s
  = ((run c ls (step c l s).1).1, (step c l s).2 ++ (run c ls (step c l s).1).2).
Proof.
  simpl. destruct (step c l s) as [s1 e1]. simpl.
  destruct (run c ls s1) as [s2 e2]. reflexivity.
Qed.

Lemma run_guarded ls : forall s, guarded s -> guarded (run c ls s).1.
Proof.
  induction ls as [|l ls IH]; intros s G; [exact G|].
  rewrite run_cons. simpl. apply IH, step_guarded, G.
Qed.

End Steps.

Lemma start_guarded options slot markets c0 s0 :
  startDualPriceMonitor options slot markets = Some (c0, s0) -> guarded s0.
Proof.
  unfold startDualPriceMonitor. intros H.
  destruct (ticker_falsy (opt_kalshiTicker options)).
  - destruct markets as [[|t ms]|]; try discriminate. inversion H; subst.
    split; simpl; [lia | reflexivity].
  - inversion H; subst. split; simpl; [lia | reflexivity].
Qed.

(** C5. From the state [startDualPriceMonitor] sets up, and from any state
    in which at most one activation of [poll] is suspended and only under the
    in-flight flag, every sequence of timer expiries, direct calls of [poll],
    settlements and stop requests leaves at most one [getDualPrices] in
    flight.  A [poll] entered while the flag is set returns at once: the
    state is unchanged, no fetch starts and no timer is set.  A fetch in
    flight holds the flag. *)
Theorem at_most_one_fetch_in_flight (c : Consts) :
  (forall ls s, guarded s ->
                guarded (run c ls s).1 /\ (inFlight (run c ls s).1 <= 1)%nat) /\
  (forall options slot markets c0 s0 ls,
      startDualPriceMonitor options slot markets = Some (c0, s0) ->
      (inFlight (run c0 ls s0).1 <= 1)%nat) /\
  (forall now slot now' s,
      pollInProgress s = true -> poll_enter c now slot now' s = (s, [Skipped])) /\
  (forall s, guarded s -> (0 < inFlight s)%nat -> pollInProgress s = true).
Proof.
  split; [|split; [|split]].
  - intros ls s G. pose proof (run_guarded c ls s G) as G'.
    split; [exact G' | apply guarded_inFlight, G'].
  - intros options slot markets c0 s0 ls H.
    apply guarded_inFlight, run_guarded, (start_guarded _ _ _ _ _ H).
  - intros now slot now' s H. unfold poll_enter. rewrite H. reflexivity.
  - intros s [_ Hidle] Hpos. destruct (pollInProgress s); [reflexivity|].
    unfold inFlight in Hpos. rewrite Hidle in Hpos by reflexivity.
    simpl in Hpos. lia.
Qed.

Section Delays.

Variable c : Consts.

(** [scheduleNext] sets no timer once stopped, and otherwise one timer with
    the delay of the specification. *)
Lemma scheduleNext_spec startedAt now s :
  scheduleNext c startedAt now s
  = if stopped s then (s, [])
    else (set_timers (timers s ++ [tick_delay c startedAt now]) s,
          [SetTimeout (tick_delay c startedAt now)]).
Proof. reflexivity. Qed.

Lemma scheduleNext_sets startedAt now s :
  awaiting (scheduleNext c startedAt now s).1 = awaiting s /\
  (timersSet (scheduleNext c startedAt now s).2 = [] /\
   timers (scheduleNext c startedAt now s).1 = timers s \/
   timersSet (scheduleNext c startedAt now s).2 = [tick_delay c startedAt now] /\
   timers (scheduleNext c startedAt now s).1 = timers s ++ [tick_delay c startedAt now]).
Proof. rewrite scheduleNext_spec. destruct (stopped s); simpl; auto. Qed.

(** What a run of [poll] from the test before the fetch does: it sets one
    timer and suspends nothing, or it suspends on the fetch and sets none. *)
Lemma poll_fetch_sets startedAt now s :
  (awaiting (poll_fetch c startedAt now s).1 = awaiting s /\
   (timersSet (poll_fetch c startedAt now s).2 = [] /\
    timers (poll_fetch c startedAt now s).1 = timers s \/
    timersSet (poll_fetch c startedAt now s).2 = [tick_delay c startedAt now] /\
    timers (poll_fetch c startedAt now s).1 = timers s ++ [tick_delay c startedAt now])) \/
  (awaiting (poll_fetch c startedAt now s).1 = awaiting s ++ [AwaitDual startedAt] /\
   timersSet (poll_fetch c startedAt now s).2 = [] /\
   timers (poll_fetch c startedAt now s).1 = timers s).
Proof.
  unfold poll_fetch. destruct (stopped s || ticker_falsy (kalshiTicker s)).
  - left. unfold poll_finally. simpl. apply scheduleNext_sets.
  - right. simpl. auto.
Qed.

Lemma poll_enter_sets now slot now' s :
  (awaiting (poll_enter c now slot now' s).1 = awaiting s /\
   (timersSet (poll_enter c now slot now' s).2 = [] /\
    timers (poll_enter c now slot now' s).1 = timers s \/
    timersSet (poll_enter c now slot now' s).2 = [tick_delay c now now'] /\
    timers (poll_enter c now slot now' s).1 = timers s ++ [tick_delay c now now'])) \/
  ((exists a, awaiting (poll_enter c now slot now' s).1 = awaiting s ++ [a] /\
              startedAt_of a = now) /\
   timersSet (poll_enter c now slot now' s).2 = [] /\
   timers (poll_enter c now slot now' s).1 = timers s).
Proof.
  unfold poll_enter. destruct (pollInProgress s); [left; simpl; auto|].
  simpl. destruct (stopped s) eqn:Es; [left; simpl; auto|].
  destruct (useAutoRefresh c && negb (String.eqb slot (lastSlot s))).
  - destruct (restartOnQuarterHour c); [left; simpl; auto|].
    right. simpl. split; [|auto]. eexists. split; reflexivity.
  - destruct (poll_fetch_sets now now' (set_pollInProgress true s))
      as [H | (Ha & Ht & Hm)]; [left; exact H|].
    right. split; [|auto]. eexists. split; [exact Ha | reflexivity].
Qed.

Lemma poll_resume_markets_sets startedAt res now s :
  (awaiting (poll_resume_markets c startedAt res now s).1 = awaiting s /\
   (timersSet (poll_resume_markets c startedAt res now s).2 = [] /\
    timers (poll_resume_markets c startedAt res now s).1 = timers s \/
    timersSet (poll_resume_markets c startedAt res now s).2 = [tick_delay c startedAt now] /\
    timers (poll_resume_markets c startedAt res now s).1
    = timers s ++ [tick_delay c startedAt now])) \/
  (awaiting (poll_resume_markets c startedAt res now s).1 = awaiting s ++ [AwaitDual startedAt] /\
   timersSet (poll_resume_markets c startedAt res now s).2 = [] /\
   timers (poll_resume_markets c startedAt res now s).1 = timers s).
Proof.
  unfold poll_resume_markets. destruct res as [[|t ms]|].
  - apply poll_fetch_sets.
  - apply (poll_fetch_sets startedAt now (set_kalshiTicker (Some t) s)).
  - left. simpl. auto.
Qed.

Lemma poll_resume_dual_sets startedAt dual thr stp now s :
  awaiting (poll_resume_dual c startedAt dual thr stp now s).1 = awaiting s /\
  (timersSet (poll_resume_dual c startedAt dual thr stp now s).2 = [] /\
   timers (poll_resume_dual c startedAt dual thr stp now s).1 = timers s \/
   timersSet (poll_resume_dual c startedAt dual thr stp now s).2 = [tick_delay c startedAt now] /\
   timers (poll_resume_dual c startedAt dual thr stp now s).1
   = timers s ++ [tick_delay c startedAt now]).
Proof.
  unfold poll_resume_dual. destruct (stopped s) eqn:Es; [simpl; auto|].
  destruct stp, thr; rewrite ?scheduleNext_spec; simpl; rewrite ?Es; simpl; auto.
Qed.

(** A tick whose fetch settles while the loop runs, and whose callback
    neither stops the loop nor lets an exception out, sets the timer of its
    successor. *)
Lemma poll_resume_dual_goes_on startedAt dual cb now s :
  stopped s = false -> cb <> CbEscapes ->
  timersSet (poll_resume_dual c startedAt dual cb false now s).2
  = [tick_delay c startedAt now] /\
  timers (poll_resume_dual c startedAt dual cb false now s).1
  = timers s ++ [tick_delay c startedAt now].
Proof.
  intros Es Hcb. unfold poll_resume_dual. rewrite Es.
  destruct cb; [| |contradiction]; rewrite scheduleNext_spec, Es; simpl; auto.
Qed.

(** An exception that leaves the callback part ends the tick with no timer
    set. *)
Lemma poll_resume_dual_escapes startedAt dual stp now s :
  timersSet (poll_resume_dual c startedAt dual CbEscapes stp now s).2 = [] /\
  timers (poll_resume_dual c startedAt dual CbEscapes stp now s).1 = timers s.
Proof.
  unfold poll_resume_dual. destruct (stopped s); [simpl; auto|].
  destruct stp; simpl; auto.
Qed.

(** One atomic run of the loop: it sets at most one timer, with the delay of
    the specification counted from the start of its tick; an activation that
    it leaves suspended belongs to that tick and has set no timer; and, for
    the labels of the program, it keeps the loop a chain. *)
Lemma step_sets l s :
  (timersSet (step c l s).2 = [] \/
   exists t0, tick_start l s = Some t0 /\
              timersSet (step c l s).2 = [tick_delay c t0 (label_now l)]) /\
  (forall a, In a (awaiting (step c l s).1) ->
             In a (awaiting s) \/
             (tick_start l s = Some (startedAt_of a) /\ timersSet (step c l s).2 = [])) /\
  (scheduled l = true -> chained s -> chained (step c l s).1).
Proof.
  unfold step, chained. destruct (exited s); [simpl; auto|].
  destruct l as [i now slot now' | now slot now' | i res now | i dual thr stp now |].
  - (* a timer expires *)
    destruct (timers s !! i) as [d|] eqn:Ei; [|simpl; auto].
    pose proof (length_delete_lookup _ _ _ Ei) as HL.
    destruct (poll_enter_sets now slot now' (set_timers (delete i (timers s)) s))
      as [(Ha & [(Ht & Hm) | (Ht & Hm)]) | ((a0 & Ha & Hs) & Ht & Hm)];
      simpl in Ha, Hm; rewrite Ht.
    + split; [auto|]. split; [intros a H; rewrite Ha in H; auto|].
      intros _ Hc. rewrite Ha, Hm. lia.
    + split; [right; eauto|]. split; [intros a H; rewrite Ha in H; auto|].
      intros _ Hc. rewrite Ha, Hm, length_app. simpl. lia.
    + split; [auto|]. split.
      * intros a H. rewrite Ha in H. apply in_app_or in H as [H | [<- | []]]; [auto|].
        right. simpl. rewrite Hs. auto.
      * intros _ Hc. rewrite Ha, Hm, length_app. simpl. lia.
  - (* poll is called directly *)
    destruct (poll_enter_sets now slot now' s)
      as [(Ha & [(Ht & Hm) | (Ht & Hm)]) | ((a0 & Ha & Hs) & Ht & Hm)]; rewrite Ht.
    + split; [auto|]. split; [intros a H; rewrite Ha in H; auto | discriminate].
    + split; [right; eauto|]. split; [intros a H; rewrite Ha in H; auto | discriminate].
    + split; [auto|]. split; [|discriminate].
      intros a H. rewrite Ha in H. apply in_app_or in H as [H | [<- | []]]; [auto|].
      right. simpl. rewrite Hs. auto.
  - (* the market refresh settles *)
    simpl tick_start.
    destruct (awaiting s !! i) as [[t0 | t0]|] eqn:Ei; try (simpl; auto; fail).
    pose proof (length_delete_lookup _ _ _ Ei) as HL.
    destruct (poll_resume_markets_sets t0 res now (set_awaiting (delete i (awaiting s)) s))
      as [(Ha & [(Ht & Hm) | (Ht & Hm)]) | (Ha & Ht & Hm)];
      simpl in Ha, Hm; rewrite Ht.
    + split; [auto|]. split.
      * intros a H. rewrite Ha in H. left. eapply In_delete, H.
      * intros _ Hc. rewrite Ha, Hm. lia.
    + split; [right; eauto|]. split.
      * intros a H. rewrite Ha in H. left. eapply In_delete, H.
      * intros _ Hc. rewrite Ha, Hm, length_app. simpl. lia.
    + split; [auto|]. split.
      * intros a H. rewrite Ha in H. apply in_app_or in H as [H | [<- | []]].
        -- left. eapply In_delete, H.
        -- right. auto.
      * intros _ Hc. rewrite Ha, Hm, length_app. simpl. lia.
  - (* the fetch settles *)
    simpl tick_start.
    destruct (awaiting s !! i) as [[t0 | t0]|] eqn:Ei; try (simpl; auto; fail).
    pose proof (length_delete_lookup _ _ _ Ei) as HL.
    destruct (poll_resume_dual_sets t0 dual thr stp now
                (set_awaiting (delete i (awaiting s)) s))
      as (Ha & [(Ht & Hm) | (Ht & Hm)]); simpl in Ha, Hm; rewrite Ht.
    + split; [auto|]. split.
      * intros a H. rewrite Ha in H. left. eapply In_delete, H.
      * intros _ Hc. rewrite Ha, Hm. lia.
    + split; [right; eauto|]. split.
      * intros a H. rewrite Ha in H. left. eapply In_delete, H.
      * intros _ Hc. rewrite Ha, Hm, length_app. simpl. lia.
  - simpl. auto.
Qed.

Lemma run_chained ls :
  forall s, forallb scheduled ls = true -> chained s -> chained (run c ls s).1.
Proof.
  induction ls as [|l ls IH]; intros s Hs Hc; [exact Hc|].
  simpl in Hs. apply andb_prop in Hs as [Hl Hls].
  rewrite run_cons. simpl. apply IH; [exact Hls|].
  apply step_sets; assumption.
Qed.

Lemma tick_delay_bounds t0 now :
  0 <= tick_delay c t0 now /\
  (intervalMs c <= now - t0 -> tick_delay c t0 now = 0) /\
  (now - t0 <= intervalMs c -> tick_delay c t0 now = intervalMs c - (now - t0)).
Proof. unfold tick_delay. lia. Qed.

End Delays.

Lemma start_chained options slot markets c0 s0 :
  startDualPriceMonitor options slot markets = Some (c0, s0) ->
  chained s0 /\ timers s0 = [0].
Proof.
  unfold startDualPriceMonitor, chained. intros H.
  destruct (ticker_falsy (opt_kalshiTicker options)).
  - destruct markets as [[|t ms]|]; try discriminate. inversion H; subst.
    simpl. split; [lia | reflexivity].
  - inversion H; subst. simpl. split; [lia | reflexivity].
Qed.

(** C6. Every atomic run of the loop sets at most one timer, and the delay
    of a timer it sets is [max(0, intervalMs - (now - startedAt))], where
    [startedAt] is the clock reading taken at the entry of the tick that the
    run belongs to.  An activation left suspended still holds that reading
    and has set no timer, so one tick sets at most one timer.  The delay is
    never negative, it is zero when the tick took at least the interval, and
    it is the remainder of the interval otherwise.  From the state that
    [startDualPriceMonitor] sets up, the runs the program gives rise to keep
    at most one timer pending, and none while a tick is suspended.

    A tick does set the timer of its successor: when its fetch settles while
    the loop is not stopped, and the callback neither stops the loop nor lets
    an exception out, the run sets exactly one timer, with that delay, and
    adds it to the pending ones; the delay is zero when the fetch and the
    callback took the interval or longer.  So does a tick that finds no
    ticker to read.  A tick whose callback throws and whose [onError] throws
    too sets no timer. *)
Theorem next_tick_delay_is_clamped (c : Consts) :
  (forall l s,
      timersSet (step c l s).2 = [] \/
      exists t0, tick_start l s = Some t0 /\
                 timersSet (step c l s).2 = [tick_delay c t0 (label_now l)]) /\
  (forall l s a,
      In a (awaiting (step c l s).1) ->
      In a (awaiting s) \/
      (tick_start l s = Some (startedAt_of a) /\ timersSet (step c l s).2 = [])) /\
  (forall startedAt now s,
      scheduleNext c startedAt now s
      = if stopped s then (s, [])
        else (set_timers (timers s ++ [tick_delay c startedAt now]) s,
              [SetTimeout (tick_delay c startedAt now)])) /\
  (forall t0 now,
      0 <= tick_delay c t0 now /\
      (intervalMs c <= now - t0 -> tick_delay c t0 now = 0) /\
      (now - t0 <= intervalMs c -> tick_delay c t0 now = intervalMs c - (now - t0))) /\
  (forall ls s, forallb scheduled ls = true -> chained s -> chained (run c ls s).1) /\
  (forall options slot markets c0 s0 ls,
      startDualPriceMonitor options slot markets = Some (c0, s0) ->
      forallb scheduled ls = true ->
      (length (timers (run c0 ls s0).1) + length (awaiting (run c0 ls s0).1) <= 1)%nat) /\
  (forall i dual cb now s t0,
      exited s = false -> stopped s = false ->
      awaiting s !! i = Some (AwaitDual t0) ->
      cb <> CbEscapes ->
      timersSet (step c (DualSettles i dual cb false now) s).2 = [tick_delay c t0 now] /\
      timers (step c (DualSettles i dual cb false now) s).1
      = timers s ++ [tick_delay c t0 now] /\
      (intervalMs c <= now - t0 ->
       timersSet (step c (DualSettles i dual cb false now) s).2 = [0])) /\
  (forall t0 now s,
      stopped s = false -> ticker_falsy (kalshiTicker s) = true ->
      timersSet (poll_fetch c t0 now s).2 = [tick_delay c t0 now] /\
      timers (poll_fetch c t0 now s).1 = timers s ++ [tick_delay c t0 now]) /\
  (forall i dual stp now s,
      timersSet (step c (DualSettles i dual CbEscapes stp now) s).2 = [] /\
      timers (step c (DualSettles i dual CbEscapes stp now) s).1 = timers s).
Proof.
  split; [intros l s; apply step_sets|].
  split; [intros l s; apply step_sets|].
  split; [apply scheduleNext_spec|].
  split; [apply tick_delay_bounds|].
  split; [intros ls; apply run_chained|].
  split.
  { intros options slot markets c0 s0 ls H Hs.
    apply (run_chained c0 ls s0 Hs), (start_chained _ _ _ _ _ H). }
  split.
  { intros i dual cb now s t0 Hx Hs Ha Hcb. unfold step. rewrite Hx, Ha.
    destruct (poll_resume_dual_goes_on c t0 dual cb now
                (set_awaiting (delete i (awaiting s)) s) Hs Hcb) as [Ht Hm].
    split; [exact Ht|]. split; [exact Hm|].
    intros Hlate. rewrite Ht. f_equal. apply tick_delay_bounds. exact Hlate. }
  split.
  { intros t0 now s Hs Ht. unfold poll_fetch. rewrite Hs, Ht. simpl.
    rewrite scheduleNext_spec, Hs. simpl. auto. }
  intros i dual stp now s. unfold step.
  destruct (exited s); [simpl; auto|].
  destruct (awaiting s !! i) as [[t0 | t0]|]; try (simpl; auto; fail).
  apply (poll_resume_dual_escapes c t0 dual stp now
           (set_awaiting (delete i (awaiting s)) s)).
Qed.

End MonitorFacts.

(** Two calls overlap: the second begins while the first is suspended, finds
    the market marked and does nothing; the first then sends its orders. *)
Example overlapping_calls :
  map e_ev (runTurns cfg_live
              [CallBegins snap_up; CallBegins snap_up;
               CallResumes 1 oracle_ok; CallResumes 0 oracle_fail] [] mem0).2
  = map e_ev (checkArbAndPlaceOrders cfg_live snap_up oracle_fail mem0).2.
Proof. vm_compute. reflexivity. Qed.

(** ** The theorems above at concrete inputs *)

Lemma at_most_once_per_market_and_leg_witness :
  ("KXBTC15M-A"%string ∉ doneTickers UpLeg mem0) /\
  ("KXBTC15M-A"%string
     ∈ doneTickers UpLeg (checkArbAndPlaceOrders cfg_live snap_up oracle_fail mem0).1.2) /\
  (exists rest, (checkArbAndPlaceOrders cfg_live snap_up oracle_fail mem0).2
                = mark "KXBTC15M-A" UpLeg :: rest).
Proof.
  apply (proj2 (proj2 (proj2 (at_most_once_per_market_and_leg cfg_live)))
               snap_up oracle_fail mem0 "KXBTC15M-A"%string UpLeg).
  vm_compute. repeat constructor.
Defined.

Lemma band_is_half_open_witness :
  ARB_SUM_LOW cfg_default <> NegInfinity /\
  inRange cfg_default (ARB_SUM_LOW cfg_default) = true /\
  inRange cfg_default (ARB_SUM_THRESHOLD cfg_default) = false.
Proof.
  assert (H : ARB_SUM_LOW cfg_default <> NegInfinity) by (vm_compute; discriminate).
  split; [exact H|].
  destruct (band_is_half_open cfg_default H) as (_ & Hhigh & Hlow & _).
  split; [apply Hlow; vm_compute; reflexivity | exact Hhigh].
Defined.

Lemma one_leg_per_tick_witness :
  exists rest, (checkArbAndPlaceOrders cfg_live snap_down oracle_ok mem0).2
               = mark "KXBTC15M-A" DownLeg :: rest.
Proof.
  apply (proj1 (proj2 (one_leg_per_tick cfg_live snap_down oracle_ok mem0 _ _
                                        eq_refl eq_refl))).
  - vm_compute. reflexivity.
  - vm_compute. reflexivity.
  - apply not_elem_of_empty.
Defined.

Lemma absent_venue_is_noop_witness :
  polymarket snap_partial = None /\
  checkArbAndPlaceOrders cfg_default snap_partial oracle_ok mem0 = (Ok tt, mem0, []).
Proof.
  split; [reflexivity|].
  apply (absent_venue_is_noop cfg_default snap_partial oracle_ok mem0).
  right. reflexivity.
Defined.

Lemma at_most_one_fetch_in_flight_witness :
  (Monitor.inFlight
     (Monitor.run monitor_consts
        [Monitor.TimerFires 0 1000 "2026-01-01_00-00" 1000;
         Monitor.DirectPoll 1100 "2026-01-01_00-00" 1100]
        monitor_init).1 <= 1)%nat.
Proof.
  apply (proj1 (proj2 (MonitorFacts.at_most_one_fetch_in_flight monitor_consts))
               monitor_options "2026-01-01_00-00"%string None).
  reflexivity.
Defined.

Lemma next_tick_delay_is_clamped_witness :
  Monitor.timersSet
    (Monitor.step monitor_consts
       (Monitor.DualSettles 0 snap_up Monitor.CbReturns false 1450)
       (Monitor.run monitor_consts
          [Monitor.TimerFires 0 1000 "2026-01-01_00-00" 1000] monitor_init).1).2
  = [0].
Proof.
  apply (proj2 (proj2 (proj1 (proj2 (proj2 (proj2 (proj2 (proj2 (proj2
           (MonitorFacts.next_tick_delay_is_clamped monitor_consts)))))))
           0%nat snap_up Monitor.CbReturns 1450
           (Monitor.run monitor_consts
              [Monitor.TimerFires 0 1000 "2026-01-01_00-00" 1000] monitor_init).1
           1000 eq_refl eq_refl eq_refl ltac:(discriminate)))).
  vm_compute. discriminate.
Defined.

Lemma token_cache_contract_witness :
  getTokenIdsForSlugCached "btc-updown-15m-900" (GammaFetchThrows "offline")
    (set_tokenIdsCache
       (Some {| c_slug := "btc-updown-15m-900"; c_upTokenId := "token-up";
                c_downTokenId := "token-down" |}) mem0)
  = (Ok {| upTokenId := "token-up"; downTokenId := "token-down" |},
     set_tokenIdsCache
       (Some {| c_slug := "btc-updown-15m-900"; c_upTokenId := "token-up";
                c_downTokenId := "token-down" |}) mem0,
     []).
Proof.
  apply (proj1 (token_cache_contract "btc-updown-15m-900" (GammaFetchThrows "offline")
                 (set_tokenIdsCache
                    (Some {| c_slug := "btc-updown-15m-900"; c_upTokenId := "token-up";
                             c_downTokenId := "token-down" |}) mem0))
               {| c_slug := "btc-updown-15m-900"; c_upTokenId := "token-up";
                  c_downTokenId := "token-down" |});
    reflexivity.
Defined.

Lemma limit_prices_are_ask_plus_buffer_witness :
  exists pre post,
    tl (checkArbAndPlaceOrders cfg_live snap_up oracle_ok mem0).2
    = pre ++ {| e_ctx := Some ("KXBTC15M-A"%string, UpLeg);
                e_ev := EvKalshiCreateOrder "KXBTC15M-A" yes (of_Z 5) (of_Z 41) |} :: post.
Proof.
  apply (proj1 (proj2 limit_prices_are_ask_plus_buffer)
               cfg_live snap_up oracle_ok mem0 _ _ UpLeg
               (tl (checkArbAndPlaceOrders cfg_live snap_up oracle_ok mem0).2)
               eq_refl eq_refl);
    vm_compute; reflexivity.
Defined.

Lemma missing_ask_is_zero_cents_witness :
  dollarsToCents (Some "n/a"%string) = of_Z 0.
Proof.
  apply (proj1 missing_ask_is_zero_cents).
  right. right. exists "n/a"%string. split; [reflexivity | vm_compute; reflexivity].
Defined.

(** ** The poll loop on concrete ticks *)

(** A tick that starts at 1000 and whose fetch settles 450 ms later, beyond
    the interval of 200 ms: the next tick is scheduled at once. *)
Example slow_tick :
  (Monitor.run monitor_consts
     [Monitor.TimerFires 0 1000 "2026-01-01_00-00" 1000;
      Monitor.DualSettles 0 snap_up Monitor.CbReturns false 1450]
     monitor_init).2
  = [Monitor.FetchStart "KXBTC15M-A" "btc"; Monitor.OnPrices snap_up; Monitor.SetTimeout 0].
Proof. vm_compute. reflexivity. Qed.

(** A tick whose fetch settles after 50 ms: the next tick comes 150 ms
    later, 200 ms after the start of this one. *)
Example fast_tick :
  (Monitor.run monitor_consts
     [Monitor.TimerFires 0 1000 "2026-01-01_00-00" 1000;
      Monitor.DualSettles 0 snap_up Monitor.CbReturns false 1050]
     monitor_init).2
  = [Monitor.FetchStart "KXBTC15M-A" "btc"; Monitor.OnPrices snap_up; Monitor.SetTimeout 150].
Proof. vm_compute. reflexivity. Qed.

(** A call of [poll] during a fetch is skipped, and the loop goes on from the
    tick in flight. *)
Example overlapping_poll_is_skipped :
  (Monitor.run monitor_consts
     [Monitor.TimerFires 0 1000 "2026-01-01_00-00" 1000;
      Monitor.DirectPoll 1100 "2026-01-01_00-00" 1100;
      Monitor.DualSettles 0 snap_up Monitor.CbHandled false 1150]
     monitor_init).2
  = [Monitor.FetchStart "KXBTC15M-A" "btc"; Monitor.Skipped;
     Monitor.OnPrices snap_up; Monitor.OnError; Monitor.SetTimeout 50].
Proof. vm_compute. reflexivity. Qed.

(** The monitor of the examples is the one [startDualPriceMonitor] sets up. *)
Example monitor_start :
  Monitor.startDualPriceMonitor monitor_options "2026-01-01_00-00" None
  = Some (monitor_consts, monitor_init).
Proof. reflexivity. Qed.

(* ===================================================================== *)
(** * The order of numbers *)
(* ===================================================================== *)

Ltac fold_pos_compare :=
  repeat match goal with
         | |- context [Pos.compare_cont Eq ?a ?b] =>
             change (Pos.compare_cont Eq a b) with (Pos.compare a b)
         end.

Lemma SFcompare_antisym (x y : number) :
  SFcompare y x = option_map CompOpp (SFcompare x y).
Proof.
  destruct x as [s | s | | s m e], y as [s' | s' | | s' m' e']; simpl;
    repeat match goal with b : bool |- _ => destruct b end; try reflexivity;
    fold_pos_compare;
    rewrite (Z.compare_antisym e e'), (Pos.compare_antisym m m');
    destruct (e ?= e'); simpl; try reflexivity;
    destruct (m ?= m')%positive; reflexivity.
Qed.

Lemma lt_trans (x y z : number) : lt x y = true -> lt y z = true -> lt x z = true.
Proof.
  unfold lt, SFltb.
  destruct x as [s1 | s1 | | s1 m1 e1], y as [s2 | s2 | | s2 m2 e2],
           z as [s3 | s3 | | s3 m3 e3]; simpl;
    repeat match goal with b : bool |- _ => destruct b end;
    try discriminate; try reflexivity;
    fold_pos_compare;
    destruct (Z.compare_spec e1 e2), (Z.compare_spec e2 e3), (Z.compare_spec e1 e3);
    try discriminate; try reflexivity; try lia; subst;
    destruct (Pos.compare_spec m1 m2), (Pos.compare_spec m2 m3), (Pos.compare_spec m1 m3);
    simpl; try discriminate; try reflexivity; try lia.
Qed.

(* ===================================================================== *)
(** * The Polymarket book reader *)
(* ===================================================================== *)

Lemma lt_finite_Infinity (p : number) : isFinite p = true -> lt p Infinity = true.
Proof. destruct p as [s | s | | s m e]; simpl; try discriminate; reflexivity. Qed.

Lemma lt_Infinity_r_finite (p q : number) : lt p q = true -> isFinite q = false -> q = Infinity.
Proof.
  unfold lt, SFltb.
  destruct p as [s | s | | s m e], q as [s' | [] | | s' m' e']; simpl;
    repeat match goal with b : bool |- _ => destruct b end; try discriminate; reflexivity.
Qed.

(** The scan keeps the lowest finite price: what it returns is the start
    value or one of the prices, every finite price seen is not below it, and
    when it is not the start value it is finite. *)
Lemma scanAsks_cons (a : string) (asks : list string) (best0 : number) :
  scanAsks (a :: asks) best0
  = scanAsks asks (if isFinite (parseFloat a) && lt (parseFloat a) best0
                   then parseFloat a else best0).
Proof. reflexivity. Qed.

Lemma scanAsks_spec (asks : list string) :
  forall best0,
    (scanAsks asks best0 = best0 \/
     (isFinite (scanAsks asks best0) = true /\
      lt (scanAsks asks best0) best0 = true /\
      exists s, In s asks /\ parseFloat s = scanAsks asks best0)) /\
    (forall s, In s asks -> isFinite (parseFloat s) = true ->
               lt (parseFloat s) (scanAsks asks best0) = false).
Proof.
  induction asks as [|a asks IH]; intros best0.
  - split; [left; reflexivity | intros s []].
  - rewrite scanAsks_cons.
    destruct (isFinite (parseFloat a) && lt (parseFloat a) best0) eqn:E.
    + apply andb_prop in E as [Hf Hlt].
      destruct (IH (parseFloat a)) as [[E1 | (F1 & L1 & s & Hs & Es)] Hmin].
      * split.
        -- right. rewrite E1. split; [exact Hf|]. split; [exact Hlt|].
           exists a. split; [left; reflexivity | reflexivity].
        -- intros s [<- | Hs] Hfs; [|apply Hmin; assumption].
           rewrite E1. apply lt_irrefl.
      * split.
        -- right. split; [exact F1|]. split; [exact (lt_trans _ _ _ L1 Hlt)|].
           exists s. split; [right; exact Hs | exact Es].
        -- intros s' [<- | Hs'] Hfs; [|apply Hmin; assumption].
           destruct (lt (parseFloat a) (scanAsks asks (parseFloat a))) eqn:Hc;
             [|reflexivity].
           pose proof (lt_trans _ _ _ L1 Hc) as Hxx. rewrite lt_irrefl in Hxx.
           discriminate.
    + destruct (IH best0) as [[E1 | (F1 & L1 & s & Hs & Es)] Hmin].
      * split; [left; exact E1|].
        intros s [<- | Hs] Hfs; [|apply Hmin; assumption].
        rewrite Hfs in E. simpl in E. rewrite E1. exact E.
      * split.
        -- right. split; [exact F1|]. split; [exact L1|].
           exists s. split; [right; exact Hs | exact Es].
        -- intros s' [<- | Hs'] Hfs; [|apply Hmin; assumption].
           rewrite Hfs in E. simpl in E.
           destruct (lt (parseFloat a) (scanAsks asks best0)) eqn:Hc; [|reflexivity].
           rewrite (lt_trans _ _ _ Hc L1) in E. discriminate.
Qed.

Lemma eq_Infinity (b : number) : eq b Infinity = true <-> b = Infinity.
Proof.
  unfold eq, SFeqb. split.
  - destruct b as [s | [] | | s m e]; simpl; try discriminate;
      try (destruct s; discriminate); reflexivity.
  - intros ->. reflexivity.
Qed.

Lemma bestAsk_spec (asks : list string) :
  (forall b, bestAsk asks = Some b ->
             isFinite b = true /\
             (exists s, In s asks /\ parseFloat s = b) /\
             (forall s, In s asks -> isFinite (parseFloat s) = true ->
                        lt (parseFloat s) b = false)) /\
  (bestAsk asks = None <-> forall s, In s asks -> isFinite (parseFloat s) = false).
Proof.
  unfold bestAsk.
  destruct (scanAsks_spec asks Infinity) as [Hval Hmin].
  set (best := scanAsks asks Infinity) in *.
  destruct Hval as [E1 | (F1 & L1 & s & Hs & Es)].
  - rewrite E1. simpl. split; [discriminate|].
    split; [|reflexivity]. intros _ s Hs.
    destruct (isFinite (parseFloat s)) eqn:Hf; [|reflexivity].
    pose proof (Hmin s Hs Hf) as Hc. rewrite E1, (lt_finite_Infinity _ Hf) in Hc.
    discriminate.
  - assert (Hne : eq best Infinity = false).
    { destruct (eq best Infinity) eqn:Hq; [|reflexivity].
      apply eq_Infinity in Hq. rewrite Hq in F1. discriminate. }
    rewrite Hne. split.
    + intros b Hb. inversion Hb; subst b. split; [exact F1|].
      split; [exists s; auto | exact Hmin].
    + split; [discriminate|]. intros Hall. rewrite <- Es, (Hall s Hs) in F1. discriminate.
Qed.

(** The book request: one request, the module state untouched, and the best
    ask of the levels when the answer has any. *)
Lemma getBestAskForToken_run (tokenId : string) (net : BookOutcome) (m : Mem) :
  exists r,
    getBestAskForToken tokenId net m = (r, m, [entry (EvClobBook tokenId)]) /\
    (forall b, r = Ok (Some b) ->
               exists asks, net = BookData (Some asks) /\ bestAsk asks = Some b).
Proof.
  unfold getBestAskForToken. rewrite bind_emit.
  destruct net as [msg | | msg | [[|a asks]|]]; simpl;
    (eexists; split; [reflexivity|]); intros b Hb; try discriminate.
  exists (a :: asks). split; [reflexivity|].
  unfold ret in Hb. inversion Hb as [Hb']. unfold bestAsk, scanAsks. simpl. reflexivity.
Qed.

(** X1. [getBestAskForToken] sends one book request, leaves the module state
    alone, and for a book with ask levels returns the lowest finite price:
    a finite number that is the price of one of the levels and that no
    finite price of the book is below; it returns null exactly when no level
    has a finite price. *)
Theorem best_ask_is_lowest_finite_price (tokenId : string) (asks : list string) (m : Mem) :
  exists r,
    getBestAskForToken tokenId (BookData (Some asks)) m
    = (Ok r, m, [entry (EvClobBook tokenId)]) /\
    (forall b, r = Some b ->
               isFinite b = true /\
               (exists s, In s asks /\ parseFloat s = b) /\
               (forall s, In s asks -> isFinite (parseFloat s) = true ->
                          lt (parseFloat s) b = false)) /\
    (r = None <-> forall s, In s asks -> isFinite (parseFloat s) = false).
Proof.
  destruct (getBestAskForToken_run tokenId (BookData (Some asks)) m) as (r0 & E & Hr).
  destruct (bestAsk_spec asks) as [Hsome Hnone].
  assert (Er : r0 = Ok (bestAsk asks)).
  { revert E. unfold getBestAskForToken. rewrite bind_emit.
    destruct asks as [|a asks]; simpl; unfold ret; intros E; inversion E; reflexivity. }
  exists (bestAsk asks). rewrite E, Er. split; [reflexivity|].
  split; [exact Hsome | exact Hnone].
Qed.

(* ================================================================== *)
(** * Token ids from the Gamma answer *)
(* ================================================================== *)

Lemma indexOf_from_spec (l : list string) (x : string) :
  forall i, 0 <= i ->
    (indexOf_from l x i = -1 /\ ~ In x l) \/
    (i <= indexOf_from l x i /\ first_at l x (Z.to_nat (indexOf_from l x i - i))).
Proof.
  induction l as [|y l IH]; intros i Hi; simpl.
  - left. split; [reflexivity | intros []].
  - destruct (String.eqb y x) eqn:E.
    + apply String.eqb_eq in E. subst y. right. split; [lia|].
      replace (i - i) with 0 by lia. split; [reflexivity | intros j Hj; simpl in Hj; lia].
    + apply String.eqb_neq in E.
      destruct (IH (i + 1) ltac:(lia)) as [[E1 Hn] | [Hge [Hat Hbefore]]].
      * left. split; [exact E1 | intros [H | H]; [contradiction | exact (Hn H)]].
      * right. split; [lia|].
        replace (Z.to_nat (indexOf_from l x (i + 1) - i))
          with (S (Z.to_nat (indexOf_from l x (i + 1) - (i + 1)))) by lia.
        split; [exact Hat|].
        intros [|j] Hj; simpl; [congruence | apply Hbefore; lia].
Qed.

(** [indexOf] is -1 exactly when the element is absent, and otherwise the
    position of its first occurrence. *)
Lemma indexOf_spec (l : list string) (x : string) :
  (indexOf l x = -1 /\ ~ In x l) \/
  (0 <= indexOf l x /\ first_at l x (Z.to_nat (indexOf l x))).
Proof.
  unfold indexOf. destruct (indexOf_from_spec l x 0 ltac:(lia)) as [H | [Hge Hat]];
    [left; exact H | right].
  rewrite Z.sub_0_r in Hat. split; assumption.
Qed.

(** The test [indexOf(x) < 0] of the source. *)
Variant indexOf_view (l : list string) (x : string) : Prop :=
| indexOf_absent :
    (indexOf l x <? 0) = true -> ~ In x l -> indexOf_view l x
| indexOf_present :
    (indexOf l x <? 0) = false -> 0 <= indexOf l x ->
    first_at l x (Z.to_nat (indexOf l x)) -> indexOf_view l x.

Lemma indexOf_neg (l : list string) (x : string) : indexOf_view l x.
Proof.
  destruct (indexOf_spec l x) as [[E N] | [G F]].
  - apply indexOf_absent; [rewrite E; reflexivity | exact N].
  - apply indexOf_present; [apply Z.ltb_ge; exact G | exact G | exact F].
Qed.

Lemma truthy_nonempty (s : string) : truthy s = true <-> s <> ""%string.
Proof. destruct s; simpl; split; congruence. Qed.

(** X2. [fetchTokenIdsForSlug] on a Gamma answer with data: it succeeds
    exactly when "Up" and "Down" are both among the outcomes and the token
    list holds a non-empty id at the position of the first "Up" and at the
    position of the first "Down"; the ids it returns are those two, so they
    are never empty.  When an outcome is missing it throws the
    missing-outcomes error, and when a token id is missing or empty the
    missing-token-ids error. *)
Theorem token_ids_come_from_the_outcome_positions
        (slug : string) (outcomes ids : Raw) (cid : option string) (m : Mem) :
  let os := parseJsonArray outcomes in
  let ts := parseJsonArray ids in
  (forall fresh,
      (fetchTokenIdsForSlug slug (GammaData outcomes ids cid) m).1.1 = Ok fresh <->
      exists i j,
        first_at os "Up" i /\ first_at os "Down" j /\
        ts !! i = Some (f_upTokenId fresh) /\ f_upTokenId fresh <> ""%string /\
        ts !! j = Some (f_downTokenId fresh) /\ f_downTokenId fresh <> ""%string /\
        f_conditionId fresh = nullish cid ""%string) /\
  (~ In "Up"%string os \/ ~ In "Down"%string os ->
   (fetchTokenIdsForSlug slug (GammaData outcomes ids cid) m).1.1
   = Throw (ErrMissingOutcomes slug os)) /\
  (In "Up"%string os -> In "Down"%string os ->
   (forall fresh, (fetchTokenIdsForSlug slug (GammaData outcomes ids cid) m).1.1 <> Ok fresh) ->
   (fetchTokenIdsForSlug slug (GammaData outcomes ids cid) m).1.1
   = Throw (ErrMissingTokenIds slug)).
Proof.
  intros os ts. unfold fetchTokenIdsForSlug. rewrite bind_emit. fold os ts.
  assert (Huniq : forall x i j, first_at os x i -> first_at os x j -> i = j).
  { intros x i j [Hi Bi] [Hj Bj].
    destruct (Nat.lt_trichotomy i j) as [H | [H | H]]; [|exact H|].
    - exfalso. exact (Bj i H Hi).
    - exfalso. exact (Bi j H Hj). }
  assert (Hfirst_in : forall x i, first_at os x i -> In x os).
  { intros x i [Hi _]. apply list_elem_of_In. eapply list_elem_of_lookup_2, Hi. }
  destruct (indexOf_neg os "Up") as [Eu Nu | Eu Gu Fu]; rewrite Eu; simpl.
  { split; [|split].
    - intros fresh. split; [discriminate|].
      intros (i & j & Hi & _). exfalso. exact (Nu (Hfirst_in _ _ Hi)).
    - reflexivity.
    - intros Hu. exfalso. exact (Nu Hu). }
  destruct (indexOf_neg os "Down") as [Ed Nd | Ed Gd Fd]; rewrite Ed; simpl.
  { split; [|split].
    - intros fresh. split; [discriminate|].
      intros (i & j & _ & Hj & _). exfalso. exact (Nd (Hfirst_in _ _ Hj)).
    - reflexivity.
    - intros _ Hd. exfalso. exact (Nd Hd). }
  unfold elem_truthy.
  set (iu := Z.to_nat (indexOf os "Up")) in *.
  set (id := Z.to_nat (indexOf os "Down")) in *.
  assert (Hno : ~ (~ In "Up"%string os \/ ~ In "Down"%string os)).
  { intros [H | H]; apply H; eapply Hfirst_in; eassumption. }
  assert (Hbad :
             (forall fresh, ~ (exists i j,
                 first_at os "Up" i /\ first_at os "Down" j /\
                 ts !! i = Some (f_upTokenId fresh) /\ f_upTokenId fresh <> ""%string /\
                 ts !! j = Some (f_downTokenId fresh) /\ f_downTokenId fresh <> ""%string /\
                 f_conditionId fresh = nullish cid ""%string)) ->
             (forall fresh : FreshIds,
                 (@Throw FreshIds (ErrMissingTokenIds slug), m,
                  [ {| e_ctx := None; e_ev := EvGammaFetch slug |} ]).1.1 = Ok fresh <->
                 exists i j,
                   first_at os "Up" i /\ first_at os "Down" j /\
                   ts !! i = Some (f_upTokenId fresh) /\ f_upTokenId fresh <> ""%string /\
                   ts !! j = Some (f_downTokenId fresh) /\ f_downTokenId fresh <> ""%string /\
                   f_conditionId fresh = nullish cid ""%string)).
  { intros H fresh. split; [discriminate | intros H'; exfalso; exact (H fresh H')]. }
  destruct (ts !! iu) as [tu|] eqn:Etu; simpl.
  2:{ split; [|split; [intros H; exfalso; exact (Hno H) | reflexivity]].
      apply Hbad. intros fresh (i & j & Hi & Hj & Hui & _).
      rewrite (Huniq _ _ _ Hi Fu) in Hui. congruence. }
  destruct (truthy tu) eqn:Ttu; simpl.
  2:{ split; [|split; [intros H; exfalso; exact (Hno H) | reflexivity]].
      apply Hbad. intros fresh (i & j & Hi & Hj & Hui & Hun & _).
      rewrite (Huniq _ _ _ Hi Fu) in Hui. apply truthy_nonempty in Hun. congruence. }
  destruct (ts !! id) as [td|] eqn:Etd; simpl.
  2:{ split; [|split; [intros H; exfalso; exact (Hno H) | reflexivity]].
      apply Hbad. intros fresh (i & j & Hi & Hj & _ & _ & Hdj & _).
      rewrite (Huniq _ _ _ Hj Fd) in Hdj. congruence. }
  destruct (truthy td) eqn:Ttd; simpl.
  2:{ split; [|split; [intros H; exfalso; exact (Hno H) | reflexivity]].
      apply Hbad. intros fresh (i & j & Hi & Hj & _ & _ & Hdj & Hdn & _).
      rewrite (Huniq _ _ _ Hj Fd) in Hdj. apply truthy_nonempty in Hdn. congruence. }
  split; [|split].
  - intros fresh. split.
    + intros H. inversion H; subst fresh. simpl.
      exists iu, id.
      split; [exact Fu|]. split; [exact Fd|]. split; [exact Etu|].
      split; [apply truthy_nonempty; exact Ttu|]. split; [exact Etd|].
      split; [apply truthy_nonempty; exact Ttd | reflexivity].
    + intros (i & j & Hi & Hj & Hui & Hun & Hdj & Hdn & Hc).
      rewrite (Huniq _ _ _ Hi Fu) in Hui. rewrite (Huniq _ _ _ Hj Fd) in Hdj.
      destruct fresh as [fu fd fc]. simpl in *. congruence.
  - intros H. exfalso. exact (Hno H).
  - intros _ _ H. exfalso. eapply H. reflexivity.
Qed.

(* ===================================================================== *)
(** * The Kalshi order wrapper *)
(* ===================================================================== *)

Lemma SFcompare_None (x y : number) : SFcompare x y = None -> x = NaN \/ y = NaN.
Proof.
  destruct x as [s | s | | s m e], y as [s' | s' | | s' m' e']; simpl;
    repeat match goal with b : bool |- _ => destruct b end;
    try discriminate; auto.
Qed.

Lemma SFcompare_Lt_le (x y : number) : SFcompare x y = Some Lt -> le x y = true.
Proof. intros H. unfold le, SFleb. rewrite H. reflexivity. Qed.

Lemma SFcompare_Gt_le (x y : number) : SFcompare x y = Some Gt -> le y x = true.
Proof.
  intros H. unfold le, SFleb. rewrite (SFcompare_antisym x y), H. reflexivity.
Qed.

Lemma SFcompare_Eq_le (x y : number) :
  SFcompare x y = Some Eq -> le x y = true /\ le y x = true.
Proof.
  intros H. unfold le, SFleb. rewrite (SFcompare_antisym x y), H. split; reflexivity.
Qed.

(** Two finite numbers that are not zero compare equal only when they are
    the same number. *)
Lemma SFcompare_Eq_finite (s : bool) (m : positive) (e : Z) (y : number) :
  SFcompare (S754_finite s m e) y = Some Eq -> y = S754_finite s m e.
Proof.
  destruct y as [s' | s' | | s' m' e']; simpl;
    repeat match goal with b : bool |- _ => destruct b end; try discriminate;
    fold_pos_compare;
    destruct (Z.compare_spec e e'); try discriminate;
    destruct (Pos.compare_spec m m'); try discriminate; intros _; subst; reflexivity.
Qed.

(** [Math.max(1, Math.min(99, x))]: within 1 and 99 for every number,
    the identity on that range, and NaN on NaN. *)
Lemma clamp_1_99 (x : number) :
  (x <> NaN ->
   le (of_Z 1) (Math_max (of_Z 1) (Math_min (of_Z 99) x)) = true /\
   le (Math_max (of_Z 1) (Math_min (of_Z 99) x)) (of_Z 99) = true) /\
  (le (of_Z 1) x = true -> le x (of_Z 99) = true ->
   Math_max (of_Z 1) (Math_min (of_Z 99) x) = x) /\
  (x = NaN -> Math_max (of_Z 1) (Math_min (of_Z 99) x) = NaN).
Proof.
  remember (of_Z 1) as one eqn:H1. remember (of_Z 99) as top eqn:H99.
  vm_compute in H1, H99.
  assert (Hot : SFcompare one top = Some Lt) by (subst; reflexivity).
  assert (Hone : forall b, match one with S754_zero true => b | _ => one end = one)
    by (subst; reflexivity).
  assert (Htop : forall b, match top with S754_zero false => b | _ => top end = top)
    by (subst; reflexivity).
  assert (Hl1 : le one one = true) by (subst; reflexivity).
  assert (Hl99 : le top top = true) by (subst; reflexivity).
  assert (Hmax : Math_max one top = top) by (unfold Math_max; rewrite Hot; reflexivity).
  split; [|split].
  - intros Hx. unfold Math_min.
    destruct (SFcompare top x) as [[| |]|] eqn:C.
    + rewrite Htop, Hmax. split; [apply SFcompare_Lt_le; exact Hot | exact Hl99].
    + rewrite Hmax. split; [apply SFcompare_Lt_le; exact Hot | exact Hl99].
    + unfold Math_max.
      destruct (SFcompare one x) as [[| |]|] eqn:C1.
      * rewrite Hone. split; [exact Hl1 | apply SFcompare_Lt_le; exact Hot].
      * split; [apply SFcompare_Lt_le; exact C1 | apply SFcompare_Gt_le; exact C].
      * split; [exact Hl1 | apply SFcompare_Lt_le; exact Hot].
      * apply SFcompare_None in C1 as [C1 | C1]; [subst; discriminate | contradiction].
    + apply SFcompare_None in C as [C | C]; [subst; discriminate | contradiction].
  - intros Hlo Hhi. unfold le, SFleb in Hlo, Hhi.
    rewrite (SFcompare_antisym top x) in Hhi. unfold Math_min.
    destruct (SFcompare top x) as [[| |]|] eqn:C; simpl in Hhi; try discriminate.
    + rewrite Htop, Hmax. rewrite H99 in C. apply SFcompare_Eq_finite in C.
      rewrite <- H99 in C. symmetry. exact C.
    + unfold Math_max.
      destruct (SFcompare one x) as [[| |]|] eqn:C1; try discriminate.
      * rewrite Hone. rewrite H1 in C1. apply SFcompare_Eq_finite in C1.
        rewrite <- H1 in C1. symmetry. exact C1.
      * reflexivity.
  - intros ->. subst. reflexivity.
Qed.

(** X3. [placeOrder] never throws and leaves the module state alone.  In a
    dry run (the bot's flag is set and the caller did not ask for a live
    order) nothing is sent and the result is the id "dry-run".  Otherwise
    exactly one order is sent to Kalshi, for the given market, side and
    count, at a price that lies within 1 and 99 cents whenever the
    requested price is a number, that is the requested price when this
    lies within 1 and 99, and that is NaN when the requested price is NaN;
    the result is the error of a failed request, or the id of the answer
    ("unknown" when the answer has none). *)
Theorem kalshi_order_is_single_and_clamped
        (cfg : Config) (t : string) (s : side) (count pc : number) (arbLive : bool)
        (net : CreateOrderOutcome) (m : Mem) :
  exists r tr,
    placeOrder cfg t s count pc arbLive net m = (Ok r, m, tr) /\
    (if negb arbLive && BOT_DRY_RUN cfg
     then r = OrderId "dry-run" /\ nKalshi tr = 0%nat
     else
       exists price,
         List.filter isKalshiOrder tr = [entry (EvKalshiCreateOrder t s count price)] /\
         (pc <> NaN -> le (of_Z 1) price = true /\ le price (of_Z 99) = true) /\
         (le (of_Z 1) pc = true -> le pc (of_Z 99) = true -> price = pc) /\
         (pc = NaN -> price = NaN) /\
         r = match net with
             | CreateOrderThrows msg => OrderError msg
             | CreateOrderResp id => OrderId (nullish id "unknown"%string)
             end).
Proof.
  unfold placeOrder.
  destruct arbLive; simpl negb; simpl andb; [|destruct (BOT_DRY_RUN cfg)].
  2:{ eexists _, _. split; [reflexivity|]. split; reflexivity. }
  all: destruct net as [msg | id];
    (eexists _, _; split; [reflexivity|]);
    exists (Math_max (of_Z 1) (Math_min (of_Z 99) pc));
    (split; [reflexivity|]);
    destruct (clamp_1_99 pc) as (Hb & Hid & Hnan);
    (split; [exact Hb|]); (split; [exact Hid|]); (split; [exact Hnan | reflexivity]).
Qed.

(* ===================================================================== *)
(** * The Polymarket order wrapper *)
(* ===================================================================== *)

(** What [getClobClient] does: it answers from the cache, or builds a
    client, stores it when the build succeeds, and sends the
    [createOrDeriveApiKey] request when the build derives the credentials. *)
Lemma getClobClient_run (cfg : Config) (build : BuildOracle) (m : Mem) :
  exists failed,
    getClobClient cfg build m
    = (Ok failed,
       (if negb (clientCached cfg m) && buildSucceeds cfg build
        then set_client true (getClientKey cfg) m else m),
       (if negb (clientCached cfg m) && buildDerives cfg build
        then [entry EvClobDeriveApiKey] else [])) /\
    (failed = None <-> clientReady cfg build m = true).
Proof.
  unfold getClobClient, clientReady, buildSucceeds, buildDerives, buildClobClient.
  rewrite bind_get. fold (clientCached cfg m) (credsFromFile cfg build).
  destruct (clientCached cfg m); simpl.
  { eexists. split; [reflexivity | split; reflexivity]. }
  destruct (b_setup build) as [e|]; simpl.
  { rewrite bind_ret. eexists. split; [reflexivity | split; discriminate]. }
  destruct (credsFromFile cfg build); simpl.
  - rewrite bind_ret. destruct (b_readFile build) as [e|]; simpl.
    + eexists. split; [reflexivity | split; discriminate].
    + eexists. split; [reflexivity | split; reflexivity].
  - destruct (b_derive build) as [e|]; simpl.
    + eexists. split; [reflexivity | split; discriminate].
    + eexists. split; [reflexivity | split; reflexivity].
Qed.

Lemma clientCached_set_client (cfg : Config) (m : Mem) :
  clientCached cfg (set_client true (getClientKey cfg) m) = true.
Proof. unfold clientCached. simpl. apply String.eqb_refl. Qed.

(** What one call of [placePolymarketOrder] sends, and the state it leaves. *)
Lemma placePolymarketOrder_run
      (cfg : Config) (tokenId : string) (price size : number)
      (options : option PlacePolymarketOrderOptions)
      (build : BuildOracle) (net : ClobOutcome) (m : Mem) :
  exists r tr,
    placePolymarketOrder cfg tokenId price size options build net m
    = (Ok r, afterPolyOrder cfg price size options build net m, tr) /\
    List.filter isPolyOrder tr
    = (if polyPosts cfg price size options build net m
       then [entry (EvClobPost tokenId
                               (roundPriceToTickSize price (polyTick cfg options))
                               size (polyTick cfg options) (polyNegRisk cfg options))]
       else []) /\
    List.filter isDeriveRequest tr
    = (if asksForClient cfg price size options net
          && negb (clientCached cfg m) && buildDerives cfg build
       then [entry EvClobDeriveApiKey] else []) /\
    nKalshi tr = 0%nat /\
    (r = None <->
     polyConfigured cfg = false \/ (ARB_DRY_RUN cfg = true /\ forcePlace options = false)) /\
    (forall p s mn,
        r = Some (PolyBelowMin p s mn) <->
        (polyConfigured cfg = true /\
         (ARB_DRY_RUN cfg = false \/ forcePlace options = true) /\
         lt (mul price size) (polyMinUsd cfg) = true) /\
        p = price /\ s = size /\ mn = polyMinUsd cfg) /\
    (forall id, r = Some (PolyOrderId id) ->
                id <> ""%string /\ polyPosts cfg price size options build net m = true /\
                exists orderID orderId error, net = ClobResp orderID orderId error).
Proof.
  unfold placePolymarketOrder, afterPolyOrder, polyPosts, asksForClient, polyConfigured.
  fold (forcePlace options) (polyMinUsd cfg) (polyTick cfg options) (polyNegRisk cfg options).
  destruct (truthy (POLYMARKET_PRIVATE_KEY cfg)) eqn:Ek; simpl.
  2:{ eexists _, _. split; [reflexivity|]. do 3 (split; [reflexivity|]).
      split; [split; auto|]. split; [|discriminate].
      intros p s mn. split; [discriminate | intros [[? _] _]; discriminate]. }
  destruct (truthy (POLYMARKET_PROXY cfg)) eqn:Ep; simpl.
  2:{ eexists _, _. split; [reflexivity|]. do 3 (split; [reflexivity|]).
      split; [split; auto|]. split; [|discriminate].
      intros p s mn. split; [discriminate | intros [[? _] _]; discriminate]. }
  assert (Hlive : (ARB_DRY_RUN cfg && negb (forcePlace options)) = false ->
                  ARB_DRY_RUN cfg = false \/ forcePlace options = true).
  { destruct (ARB_DRY_RUN cfg), (forcePlace options); simpl; auto. }
  assert (Hnull : (ARB_DRY_RUN cfg && negb (forcePlace options)) = false ->
                  ~ (false = false \/ ARB_DRY_RUN cfg = true /\ forcePlace options = false) ->
                  True) by auto.
  destruct (ARB_DRY_RUN cfg && negb (forcePlace options)) eqn:Edry.
  { assert (Hd : ARB_DRY_RUN cfg = true /\ forcePlace options = false).
    { destruct (ARB_DRY_RUN cfg), (forcePlace options); simpl in Edry; try discriminate; auto. }
    destruct Hd as [Hd Hf]. rewrite Hd, Hf. simpl.
    eexists _, _. split; [reflexivity|]. do 3 (split; [reflexivity|]).
    split; [split; auto|]. split; [|discriminate].
    intros p s mn. split; [discriminate|].
    intros [(_ & [? | ?] & _) _]; discriminate. }
  specialize (Hlive eq_refl). clear Hnull.
  assert (Hon : (negb (ARB_DRY_RUN cfg) || forcePlace options) = true).
  { destruct Hlive as [-> | ->]; [reflexivity | apply orb_true_r]. }
  rewrite Hon.
  assert (Hnn : ~ (true = false \/ ARB_DRY_RUN cfg = true /\ forcePlace options = false)).
  { intros [? | [Hd Hf]]; [discriminate|].
    rewrite Hd, Hf in Hon. discriminate. }
  destruct (lt (mul price size) (polyMinUsd cfg)) eqn:En; simpl.
  { eexists _, _. split; [reflexivity|]. do 3 (split; [reflexivity|]).
    split; [split; [discriminate | intros H; destruct (Hnn H)]|].
    split; [|discriminate].
    intros p s mn. split.
    - intros H. inversion H; subst. auto.
    - intros (_ & -> & -> & ->). reflexivity. }
  assert (Hnb : forall p s mn,
             ~ ((true = true /\ (ARB_DRY_RUN cfg = false \/ forcePlace options = true) /\
                 false = true) /\ p = price /\ s = size /\ mn = polyMinUsd cfg)).
  { intros p s mn [(_ & _ & ?) _]. discriminate. }
  destruct net as [msg detail | msg detail | orderID orderId error]; simpl.
  { eexists _, _. split; [reflexivity|]. do 3 (split; [reflexivity|]).
    split; [split; [discriminate | intros H; destruct (Hnn H)]|].
    split; [|discriminate].
    intros p s mn. split; [discriminate | intros H; destruct (Hnb _ _ _ H)]. }
  all: destruct (getClobClient_run cfg build m) as (failed & Eg & Hfailed);
    rewrite (bind_Ok _ _ _ _ _ _ Eg); clear Eg;
    destruct (negb (clientCached cfg m) && buildDerives cfg build) eqn:Eder;
    destruct (clientReady cfg build m) eqn:Eready.
  all: try (assert (Hf : failed = None) by (apply Hfailed; reflexivity); subst failed).
  all: try (destruct failed as [[fmsg fdetail]|];
            [|assert (Hc : false = true) by (apply Hfailed; reflexivity); discriminate]).
  all: clear Hfailed; unfold say, bind, emit, ret; cbn beta iota.
  all: try (destruct ((match error with Some e => truthy e | None => false end) || _) eqn:Eerr).
  all: cbn beta iota zeta.
  all: eexists _, _; (split; [reflexivity|]); do 3 (split; [reflexivity|]);
    (split; [split; [discriminate | intros H; destruct (Hnn H)]|]);
    (split; [intros p s mn; split; [discriminate | intros H; destruct (Hnb _ _ _ H)]|]);
    try discriminate.
  all: intros id Hid; inversion Hid; subst id; clear Hid;
    apply orb_false_iff in Eerr as [_ Eid]; apply negb_false_iff in Eid;
    (split; [|split; [reflexivity | eauto]]);
    destruct orderID as [i |]; [|destruct orderId as [i |]; [|discriminate]];
    simpl in *; apply truthy_nonempty; exact Eid.
Qed.

Lemma afterPolyOrder_keeps (cfg : Config) (price size : number)
      (options : option PlacePolymarketOrderOptions)
      (build : BuildOracle) (net : ClobOutcome) (m : Mem) :
  keeps_done m (afterPolyOrder cfg price size options build net m) /\
  tokenIdsCache (afterPolyOrder cfg price size options build net m) = tokenIdsCache m.
Proof.
  unfold afterPolyOrder. destruct (_ && _); repeat split; reflexivity.
Qed.

(** X4. [placePolymarketOrder] never throws and sends nothing to Kalshi.  Of
    the module state it touches the cached client only: the done-sets and
    the token-id cache stay as they are, a call that finds a client cached
    for the key of the configuration changes nothing, and a call that asks
    for a client and finds none builds one and, when the build succeeds,
    stores it with the key; after a call that posted, a client is cached.
    The call asks for a client when both credentials are set, the run is live
    or the caller forces the order, the notional [price * size] is not below
    the minimum and the CLOB library could be imported.  It posts an order
    exactly when it asks for a client and gets one, from the cache or from a
    build; the order is for the given token and size, at the price rounded
    to the tick, with the tick size and the neg-risk flag of the options or
    else of the configuration.  It sends the [createOrDeriveApiKey] request
    exactly when it asks for a client, none is cached, the set-up of the
    build does not throw and the credentials are not read from a file.  It
    returns null exactly when a credential is missing or the dry run holds
    it back; the error of an order below the minimum exactly when that is
    the case, made of the price, the size and the minimum in force; and an
    order id it returns is never empty and comes from an answer to a posted
    order. *)
Theorem polymarket_order_is_conditional
        (cfg : Config) (tokenId : string) (price size : number)
        (options : option PlacePolymarketOrderOptions)
        (build : BuildOracle) (net : ClobOutcome) (m : Mem) :
  exists r tr,
    placePolymarketOrder cfg tokenId price size options build net m
    = (Ok r, afterPolyOrder cfg price size options build net m, tr) /\
    keeps_done m (afterPolyOrder cfg price size options build net m) /\
    tokenIdsCache (afterPolyOrder cfg price size options build net m) = tokenIdsCache m /\
    (clientCached cfg m = true ->
     afterPolyOrder cfg price size options build net m = m) /\
    (polyPosts cfg price size options build net m = true ->
     clientCached cfg (afterPolyOrder cfg price size options build net m) = true) /\
    List.filter isPolyOrder tr
    = (if polyPosts cfg price size options build net m
       then [entry (EvClobPost tokenId
                               (roundPriceToTickSize price (polyTick cfg options))
                               size (polyTick cfg options) (polyNegRisk cfg options))]
       else []) /\
    List.filter isDeriveRequest tr
    = (if asksForClient cfg price size options net
          && negb (clientCached cfg m) && buildDerives cfg build
       then [entry EvClobDeriveApiKey] else []) /\
    nKalshi tr = 0%nat /\
    (r = None <->
     polyConfigured cfg = false \/ (ARB_DRY_RUN cfg = true /\ forcePlace options = false)) /\
    (forall p s mn,
        r = Some (PolyBelowMin p s mn) <->
        (polyConfigured cfg = true /\
         (ARB_DRY_RUN cfg = false \/ forcePlace options = true) /\
         lt (mul price size) (polyMinUsd cfg) = true) /\
        p = price /\ s = size /\ mn = polyMinUsd cfg) /\
    (forall id, r = Some (PolyOrderId id) ->
                id <> ""%string /\ polyPosts cfg price size options build net m = true /\
                exists orderID orderId error, net = ClobResp orderID orderId error).
Proof.
  destruct (placePolymarketOrder_run cfg tokenId price size options build net m)
    as (r & tr & E & Hrest).
  exists r, tr. split; [exact E|].
  split; [apply afterPolyOrder_keeps|].
  split; [apply afterPolyOrder_keeps|].
  split.
  { intros Hc. unfold afterPolyOrder. rewrite Hc, andb_false_r. reflexivity. }
  split; [|exact Hrest].
  unfold polyPosts, afterPolyOrder, clientReady. intros H.
  apply andb_prop in H as [Ha Hr]. rewrite Ha. simpl.
  destruct (clientCached cfg m) eqn:Ec; simpl; [exact Ec|].
  simpl in Hr. rewrite Hr. apply clientCached_set_client.
Qed.

(* ===================================================================== *)
(** * The token-id cache over successive calls *)
(* ===================================================================== *)

Lemma lookups_cons (s : string) (net : GammaOutcome) (rest : list (string * GammaOutcome))
      (m : Mem) :
  lookups ((s, net) :: rest) m
  = (let '(r, m1, t1) := getTokenIdsForSlugCached s net m in
     let '(rs, m2, t2) := lookups rest m1 in
     (r :: rs, m2, t1 ++ t2)).
Proof. reflexivity. Qed.

Lemma getTokenIdsForSlugCached_hit (slug : string) (net : GammaOutcome) (m : Mem)
      (c : CacheEntry) :
  cache_hit (tokenIdsCache m) slug = Some c ->
  getTokenIdsForSlugCached slug net m
  = (Ok {| upTokenId := c_upTokenId c; downTokenId := c_downTokenId c |}, m, []).
Proof.
  intros H. unfold getTokenIdsForSlugCached. rewrite bind_get, H. reflexivity.
Qed.

Lemma getTokenIdsForSlugCached_miss (slug : string) (net : GammaOutcome) (m : Mem) :
  cache_hit (tokenIdsCache m) slug = None ->
  (exists fresh,
      getTokenIdsForSlugCached slug net m
      = (Ok {| upTokenId := f_upTokenId fresh; downTokenId := f_downTokenId fresh |},
         set_tokenIdsCache (Some (cache_of slug fresh)) m,
         [entry (EvGammaFetch slug)])) \/
  (exists e,
      getTokenIdsForSlugCached slug net m = (Throw e, m, [entry (EvGammaFetch slug)])).
Proof.
  intros H. unfold getTokenIdsForSlugCached. rewrite bind_get, H.
  destruct (fetchTokenIdsForSlug_run slug net m) as [[fresh | e] Er].
  - left. exists fresh. rewrite (bind_Ok _ _ _ _ _ _ Er). reflexivity.
  - right. exists e. rewrite (bind_Throw _ _ _ _ _ _ Er). reflexivity.
Qed.

Lemma cache_hit_cache_of (slug : string) (fresh : FreshIds) (m : Mem) :
  cache_hit (tokenIdsCache (set_tokenIdsCache (Some (cache_of slug fresh)) m)) slug
  = Some (cache_of slug fresh).
Proof. unfold cache_hit. simpl. rewrite String.eqb_refl. reflexivity. Qed.

(** Once the cache holds the slug every call is answered from it. *)
Lemma lookups_hit (slug : string) (c : CacheEntry) (nets : list GammaOutcome) (m : Mem) :
  cache_hit (tokenIdsCache m) slug = Some c ->
  lookups (map (pair slug) nets) m
  = (map (fun _ => Ok {| upTokenId := c_upTokenId c; downTokenId := c_downTokenId c |}) nets,
     m, []).
Proof.
  intros H. induction nets as [|net nets IH]; [reflexivity|].
  cbn [map]. rewrite lookups_cons, (getTokenIdsForSlugCached_hit _ _ _ _ H), IH.
  reflexivity.
Qed.

Lemma nThrow_all_Ok {A B} (a : A) (l : list B) : nThrow (map (fun _ => Ok a) l) = 0%nat.
Proof. induction l as [|x l IH]; [reflexivity | exact IH]. Qed.

Lemma lookup_map_const {A B} (a : A) (l : list B) (j : nat) :
  (j < length l)%nat -> map (fun _ => a) l !! j = Some a.
Proof.
  revert j. induction l as [|x l IH]; intros j Hj; simpl in Hj; [lia|].
  destruct j as [|j]; [reflexivity|]. simpl. apply IH. lia.
Qed.

(** X5. Calls of [getTokenIdsForSlugCached] for one slug, one after the
    other and whatever Gamma answers: every request sent is for that slug;
    nothing is sent when the cache held the slug at the start; otherwise each
    failed call costs one request (a failure is not remembered) and the
    first success costs one more, after which no request is sent; and every
    call from the first success on returns the same token ids. *)
Theorem one_successful_gamma_request_per_slug
        (slug : string) (nets : list GammaOutcome) (m : Mem) :
  let run := lookups (map (pair slug) nets) m in
  length run.1.1 = length nets /\
  Forall (fun e => e = entry (EvGammaFetch slug)) run.2 /\
  length run.2
  = (nThrow run.1.1
     + match cache_hit (tokenIdsCache m) slug with
       | Some _ => 0
       | None => if existsb is_Ok run.1.1 then 1 else 0
       end)%nat /\
  (forall i j ids, (i <= j < length nets)%nat ->
                   run.1.1 !! i = Some (Ok ids) -> run.1.1 !! j = Some (Ok ids)).
Proof.
  cbv zeta.
  assert (Hhit : forall c nets m,
             cache_hit (tokenIdsCache m) slug = Some c ->
             length (lookups (map (pair slug) nets) m).1.1 = length nets /\
             (lookups (map (pair slug) nets) m).2 = [] /\
             nThrow (lookups (map (pair slug) nets) m).1.1 = 0%nat /\
             (forall i j ids, (i <= j < length nets)%nat ->
                (lookups (map (pair slug) nets) m).1.1 !! i = Some (Ok ids) ->
                (lookups (map (pair slug) nets) m).1.1 !! j = Some (Ok ids))).
  { clear. intros c nets m H. rewrite (lookups_hit _ _ _ _ H). cbn [fst snd].
    split; [apply length_map|]. split; [reflexivity|]. split; [apply nThrow_all_Ok|].
    intros i j ids [Hij Hj] Hi.
    rewrite lookup_map_const in Hi by lia. rewrite lookup_map_const by lia. exact Hi. }
  revert m. induction nets as [|net nets IH]; intros m.
  { simpl. split; [reflexivity|]. split; [constructor|].
    split; [destruct (cache_hit _ _); reflexivity | intros i j ids [_ H]; simpl in H; lia]. }
  destruct (cache_hit (tokenIdsCache m) slug) as [c|] eqn:Ec.
  { destruct (Hhit c (net :: nets) m Ec) as (H1 & H2 & H3 & H4).
    split; [exact H1|]. split; [rewrite H2; constructor|].
    split; [rewrite H2, H3; reflexivity | exact H4]. }
  cbn [map]. rewrite lookups_cons.
  destruct (getTokenIdsForSlugCached_miss slug net m Ec) as [[fresh E] | [e E]]; rewrite E.
  - pose proof (cache_hit_cache_of slug fresh m) as Hc.
    rewrite (lookups_hit _ _ _ _ Hc). cbn [fst snd c_upTokenId c_downTokenId cache_of].
    set (ids0 := {| upTokenId := f_upTokenId fresh; downTokenId := f_downTokenId fresh |}).
    change (Ok ids0 :: map (fun _ => Ok ids0) nets)
      with (map (fun _ : GammaOutcome => @Ok TokenIds ids0) (net :: nets)).
    split; [apply length_map|]. split; [repeat constructor|].
    split; [rewrite nThrow_all_Ok; reflexivity|].
    intros i j ids [Hij Hj] Hi.
    rewrite lookup_map_const in Hi by lia. rewrite lookup_map_const by lia. exact Hi.
  - specialize (IH m). rewrite Ec in IH.
    destruct (lookups (map (pair slug) nets) m) as [[rs m2] t2]. cbn [fst snd] in *.
    destruct IH as (H1 & H2 & H3 & H4).
    split; [simpl; congruence|]. split; [constructor; [reflexivity | exact H2]|].
    split; [unfold nThrow in *; simpl; rewrite H3; lia|].
    intros i j ids [Hij Hj] Hi. simpl in Hj.
    destruct i as [|i], j as [|j]; simpl in *; try lia; try discriminate.
    apply (H4 i j ids); [lia | exact Hi].
Qed.

(* ===================================================================== *)
(** * One call of the detector, dry and live *)
(* ===================================================================== *)

(** A call does nothing, or it is the block of one leg whose sum is in
    range. *)
Lemma checkArb_leg (cfg : Config) (p : DualMarketPrices) (o : ArbOracle) (m : Mem) :
  checkArbAndPlaceOrders cfg p o m = (Ok tt, m, []) \/
  (exists l k pm,
      kalshi p = Some k /\ polymarket p = Some pm /\
      inRange cfg (legSum l k pm) = true /\
      checkArbAndPlaceOrders cfg p o m
      = arbLeg cfg l (kalshiTicker p) (legSum l k pm) (legKalshiAsk l k) (legPolyAsk l pm)
               (slug pm) (kalshiContracts cfg) (polySize cfg) o m).
Proof.
  unfold checkArbAndPlaceOrders.
  destruct (kalshi p) as [k|]; [|left; reflexivity].
  destruct (polymarket p) as [pm|]; [|left; reflexivity].
  cbv zeta. fold (sumUp k pm) (sumDown k pm).
  destruct (inRange cfg (sumUp k pm)) eqn:Eu.
  { right. exists UpLeg, k, pm. repeat split; try reflexivity. exact Eu. }
  destruct (inRange cfg (sumDown k pm)) eqn:Ed.
  { right. exists DownLeg, k, pm. repeat split; try reflexivity. exact Ed. }
  left. reflexivity.
Qed.

Lemma arbLegOrders_dry cfg l t sum kAsk polyAsk sl kc ps o m :
  ARB_DRY_RUN cfg = true ->
  arbLegOrders cfg l t sum kAsk polyAsk sl kc ps o m
  = (Ok tt, m,
     [entry (EvConsole (MsgArbOpportunity l sum kAsk polyAsk true
                                          (kalshiLimitCents cfg kAsk) (polyLimit cfg polyAsk)));
      entry (EvLogFile (MsgArbOpportunity l sum kAsk polyAsk true
                                          (kalshiLimitCents cfg kAsk) (polyLimit cfg polyAsk)))]).
Proof. intros H. unfold arbLegOrders. rewrite H. reflexivity. Qed.

(** X6. With [ARB_DRY_RUN] set, a call of [checkArbAndPlaceOrders] sends
    nothing to any venue whatever the snapshot: it returns normally, and
    either it does nothing at all or it marks the market for the one leg
    whose sum is in range and writes the opportunity line to the console and
    to the log.  The token-id cache is not touched.  The dry run therefore
    uses up the market's one shot for that leg. *)
Theorem dry_run_sends_nothing
        (cfg : Config) (p : DualMarketPrices) (o : ArbOracle) (m : Mem)
        (Hdry : ARB_DRY_RUN cfg = true) :
  (checkArbAndPlaceOrders cfg p o m = (Ok tt, m, []) \/
   (exists l k pm,
       kalshi p = Some k /\ polymarket p = Some pm /\
       inRange cfg (legSum l k pm) = true /\
       (kalshiTicker p ∉ doneTickers l m) /\
       checkArbAndPlaceOrders cfg p o m
       = (Ok tt, markDone l (kalshiTicker p) m,
          mark (kalshiTicker p) l
               :: tag (kalshiTicker p) l
                      [entry (EvConsole (opportunity cfg l k pm));
                       entry (EvLogFile (opportunity cfg l k pm))]))) /\
  List.filter isRequest (checkArbAndPlaceOrders cfg p o m).2 = [] /\
  tokenIdsCache (checkArbAndPlaceOrders cfg p o m).1.2 = tokenIdsCache m.
Proof.
  destruct (checkArb_leg cfg p o m) as [E | (l & k & pm & Hk & Hpm & Hin & E)].
  { rewrite E. split; [left; reflexivity | split; reflexivity]. }
  destruct (decide (kalshiTicker p ∈ doneTickers l m)) as [Hdone | Hnot].
  { rewrite E, arbLeg_done by assumption.
    split; [left; reflexivity | split; reflexivity]. }
  destruct (arbLeg_fresh cfg l (kalshiTicker p) (legSum l k pm) (legKalshiAsk l k)
                         (legPolyAsk l pm) (slug pm) (kalshiContracts cfg) (polySize cfg)
                         o m Hnot) as (r & m' & rest & Ho & Ea).
  rewrite arbLegOrders_dry in Ho by assumption. inversion Ho; subst r m' rest; clear Ho.
  rewrite E, Ea. unfold opportunity. rewrite Hdry.
  split; [|split; [reflexivity | destruct l; reflexivity]].
  right. exists l, k, pm. repeat split; try assumption.
Qed.

Lemma dry_run_sends_nothing_witness :
  map e_ev (checkArbAndPlaceOrders cfg_dry snap_up oracle_ok mem0).2
  = [EvMarkDone UpLeg "KXBTC15M-A";
     EvConsole (opportunity cfg_dry UpLeg
                            {| ticker := "KXBTC15M-A"; upAskCents := of_Z 40;
                               downAskCents := of_Z 55; lastPriceCents := of_Z 41;
                               mp_fetchedAt := 1000 |}
                            {| slug := "btc-updown-15m-900"; upAsk := parseFloat "0.38";
                               downAsk := parseFloat "0.48"; pp_fetchedAt := 1000 |});
     EvLogFile (opportunity cfg_dry UpLeg
                            {| ticker := "KXBTC15M-A"; upAskCents := of_Z 40;
                               downAskCents := of_Z 55; lastPriceCents := of_Z 41;
                               mp_fetchedAt := 1000 |}
                            {| slug := "btc-updown-15m-900"; upAsk := parseFloat "0.38";
                               downAsk := parseFloat "0.48"; pp_fetchedAt := 1000 |})] /\
  List.filter isRequest (checkArbAndPlaceOrders cfg_dry snap_up oracle_ok mem0).2 = [].
Proof.
  destruct (dry_run_sends_nothing cfg_dry snap_up oracle_ok mem0 eq_refl)
    as (_ & Hreq & _).
  split; [vm_compute; reflexivity | exact Hreq].
Defined.

Lemma placeOrder_live_run cfg t s c pc net m :
  exists r tr,
    placeOrder cfg t s c pc true net m = (Ok r, m, tr) /\
    List.filter isKalshiOrder tr
    = [entry (EvKalshiCreateOrder t s c (Math_max (of_Z 1) (Math_min (of_Z 99) pc)))] /\
    List.filter isPolyOrder tr = [].
Proof. unfold placeOrder. destruct net; simpl; eauto. Qed.

Lemma getTokenIdsForSlugCached_quiet slug net m :
  List.filter isKalshiOrder (getTokenIdsForSlugCached slug net m).2 = [] /\
  List.filter isPolyOrder (getTokenIdsForSlugCached slug net m).2 = [].
Proof.
  destruct (cache_hit (tokenIdsCache m) slug) as [c|] eqn:Ec.
  - rewrite (getTokenIdsForSlugCached_hit _ _ _ _ Ec). split; reflexivity.
  - destruct (getTokenIdsForSlugCached_miss slug net m Ec) as [[fresh E] | [e E]];
      rewrite E; split; reflexivity.
Qed.

Lemma events_filter_tag (f : Entry -> bool) t l tr :
  (forall e c, f {| e_ctx := c; e_ev := e_ev e |} = f e) ->
  map e_ev (List.filter f (tag t l tr)) = map e_ev (List.filter f tr).
Proof.
  intros Hf. induction tr as [|e tr IH]; [reflexivity|].
  simpl. rewrite Hf. destruct (f e); simpl; rewrite IH; reflexivity.
Qed.

(** The token lookup leaves the cached client alone. *)
Lemma getTokenIdsForSlugCached_client slug net m :
  cachedClient (getTokenIdsForSlugCached slug net m).1.2 = cachedClient m /\
  cachedClientKey (getTokenIdsForSlugCached slug net m).1.2 = cachedClientKey m.
Proof.
  destruct (cache_hit (tokenIdsCache m) slug) as [c|] eqn:Ec.
  - rewrite (getTokenIdsForSlugCached_hit _ _ _ _ Ec). split; reflexivity.
  - destruct (getTokenIdsForSlugCached_miss slug net m Ec) as [[fresh E] | [e E]];
      rewrite E; split; reflexivity.
Qed.

(** Whether a call posts depends on the module state through the cached
    client only. *)
Lemma polyPosts_same_client cfg price size options build net m1 m2 :
  cachedClient m1 = cachedClient m2 -> cachedClientKey m1 = cachedClientKey m2 ->
  polyPosts cfg price size options build net m1
  = polyPosts cfg price size options build net m2.
Proof.
  intros H1 H2. unfold polyPosts, clientReady, clientCached. rewrite H1, H2. reflexivity.
Qed.

(** The live part of a leg block: the Kalshi order is always sent; the
    Polymarket order depends on the token lookup and on the conditions of
    [placePolymarketOrder] alone. *)
Lemma arbLegOrders_live_run cfg l t sum kAsk polyAsk sl kc ps o m :
  ARB_DRY_RUN cfg = false ->
  exists tr,
    arbLegOrders cfg l t sum kAsk polyAsk sl kc ps o m
    = (match (getTokenIdsForSlugCached sl (o_gamma o) m).1.1 with
       | Ok _ => Ok tt
       | Throw e => Throw e
       end,
       match (getTokenIdsForSlugCached sl (o_gamma o) m).1.1 with
       | Ok _ =>
           afterPolyOrder cfg (polyLimit cfg polyAsk) ps None (o_build o) (o_clob o)
                          (getTokenIdsForSlugCached sl (o_gamma o) m).1.2
       | Throw _ => (getTokenIdsForSlugCached sl (o_gamma o) m).1.2
       end, tr) /\
    map e_ev (List.filter isKalshiOrder tr)
    = [EvKalshiCreateOrder t (legSide l) kc (kalshiSubmitted cfg kAsk)] /\
    map e_ev (List.filter isPolyOrder tr)
    = match (getTokenIdsForSlugCached sl (o_gamma o) m).1.1 with
      | Ok ids =>
          if polyPosts cfg (polyLimit cfg polyAsk) ps None (o_build o) (o_clob o) m
          then [EvClobPost (legToken l ids)
                           (roundPriceToTickSize (polyLimit cfg polyAsk)
                                                 (POLYMARKET_TICK_SIZE cfg))
                           ps (POLYMARKET_TICK_SIZE cfg) (POLYMARKET_NEG_RISK cfg)]
          else []
      | Throw _ => []
      end.
Proof.
  intros Hlive. unfold arbLegOrders. rewrite Hlive. cbn [negb].
  fold (kalshiLimitCents cfg kAsk) (polyLimit cfg polyAsk).
  destruct (placeOrder_live_run cfg t (legSide l) kc (kalshiLimitCents cfg kAsk)
                                (o_createOrder o) m) as (kr & tk & Ek & Fk & Fp).
  fold (kalshiSubmitted cfg kAsk) in Fk.
  destruct (getTokenIdsForSlugCached_quiet sl (o_gamma o) m) as [Qk Qp].
  destruct (getTokenIdsForSlugCached_client sl (o_gamma o) m) as [Qc Qy].
  destruct (getTokenIdsForSlugCached sl (o_gamma o) m) as [[rl m1] tl] eqn:El.
  cbn [fst snd] in *.
  rewrite <- (polyPosts_same_client _ _ _ _ _ _ _ _ Qc Qy).
  unfold bind at 1. rewrite say_run.
  unfold bind at 1. unfold promise_all2. rewrite Ek, El.
  destruct rl as [ids | e].
  - destruct (placePolymarketOrder_run cfg (legToken l ids) (polyLimit cfg polyAsk) ps None
                                       (o_build o) (o_clob o) m1)
      as (pr & tp & Ep & Fpp & _ & Fpk & _).
    set (m2 := afterPolyOrder cfg (polyLimit cfg polyAsk) ps None (o_build o) (o_clob o) m1)
      in *.
    assert (Hlog : exists tlog,
               (match kr with
                | OrderError e => appendMonitorLogWithTimestamp (MsgArbKalshiFailed e)
                | OrderId _ => ret tt
                end) m1 = (Ok tt, m1, tlog) /\
               List.filter isKalshiOrder tlog = [] /\ List.filter isPolyOrder tlog = []).
    { destruct kr; eexists; (split; [reflexivity|]); split; reflexivity. }
    destruct Hlog as (tlog & Elog & Lk & Lp).
    assert (Hend : exists tend,
               (match pr with
                | Some (PolyError e) => appendMonitorLogWithTimestamp (MsgArbPolyFailed e)
                | Some (PolyBelowMin price size minUsd) =>
                    appendMonitorLogWithTimestamp (MsgArbPolyBelowMin price size minUsd)
                | _ => ret tt
                end) m2 = (Ok tt, m2, tend) /\
               List.filter isKalshiOrder tend = [] /\ List.filter isPolyOrder tend = []).
    { destruct pr as [[| |]|]; eexists; (split; [reflexivity|]); split; reflexivity. }
    destruct Hend as (tend & Eend & Ek' & Ep').
    unfold bind. rewrite Elog, Ep, Eend.
    eexists. split; [reflexivity|].
    unfold nKalshi in Fpk. apply length_zero_iff_nil in Fpk.
    rewrite !List.filter_app, !map_app, Fk, Fp, Qk, Qp, Lk, Lp, Fpp, Fpk, Ek', Ep'.
    split; [reflexivity|].
    unfold polyTick, polyNegRisk. simpl.
    destruct (polyPosts _ _ _ _ _ _ _); reflexivity.
  - eexists. split; [reflexivity|].
    rewrite !List.filter_app, !map_app, Fk, Fp, Qk, Qp.
    split; reflexivity.
Qed.

(** X7. A call of [checkArbAndPlaceOrders] that enters a leg block in a live
    run ([ARB_DRY_RUN] unset): exactly one Kalshi order is sent, for the
    leg's side, the configured contracts and the clamped limit, whatever the
    bot's own dry-run flag says and whatever Gamma and the CLOB answer.  The
    Polymarket order does not depend on what Kalshi answered: when the token
    lookup succeeds the call returns normally and the order is posted,
    on the leg's token, exactly when the conditions of [placePolymarketOrder]
    let it through; when the lookup throws, the call throws that error after
    the Kalshi order went out and no Polymarket order is posted.  The
    conditions include that a client is at hand: one cached when the call
    begins, or one that can be built. *)
Theorem live_legs_are_sent_independently
        (cfg : Config) (p : DualMarketPrices) (o : ArbOracle) (m : Mem)
        (l : leg) (rest : list Entry)
        (Hlive : ARB_DRY_RUN cfg = false)
        (Hfire : (checkArbAndPlaceOrders cfg p o m).2 = mark (kalshiTicker p) l :: rest) :
  exists k pm,
    kalshi p = Some k /\ polymarket p = Some pm /\
    map e_ev (List.filter isKalshiOrder rest)
    = [EvKalshiCreateOrder (kalshiTicker p) (legSide l) (kalshiContracts cfg)
                           (kalshiSubmitted cfg (legKalshiAsk l k))] /\
    match (getTokenIdsForSlugCached (slug pm) (o_gamma o)
                                    (markDone l (kalshiTicker p) m)).1.1 with
    | Ok ids =>
        (checkArbAndPlaceOrders cfg p o m).1.1 = Ok tt /\
        map e_ev (List.filter isPolyOrder rest)
        = (if polyPosts cfg (polyLimit cfg (legPolyAsk l pm)) (polySize cfg) None
                        (o_build o) (o_clob o) m
           then [EvClobPost (legToken l ids)
                            (roundPriceToTickSize (polyLimit cfg (legPolyAsk l pm))
                                                  (POLYMARKET_TICK_SIZE cfg))
                            (polySize cfg) (POLYMARKET_TICK_SIZE cfg)
                            (POLYMARKET_NEG_RISK cfg)]
           else [])
    | Throw e =>
        (checkArbAndPlaceOrders cfg p o m).1.1 = Throw e /\
        List.filter isPolyOrder rest = []
    end.
Proof.
  destruct (checkArb_leg cfg p o m) as [E | (l0 & k & pm & Hk & Hpm & Hin & E)].
  { rewrite E in Hfire. discriminate. }
  destruct (decide (kalshiTicker p ∈ doneTickers l0 m)) as [Hdone | Hnot].
  { rewrite E, arbLeg_done in Hfire by assumption. discriminate. }
  destruct (arbLeg_fresh cfg l0 (kalshiTicker p) (legSum l0 k pm) (legKalshiAsk l0 k)
                         (legPolyAsk l0 pm) (slug pm) (kalshiContracts cfg) (polySize cfg)
                         o m Hnot) as (r & m' & rest0 & Ho & Ea).
  rewrite E, Ea in Hfire. cbn [snd] in Hfire.
  injection Hfire as Hl Hrest. subst l0 rest.
  destruct (arbLegOrders_live_run cfg l (kalshiTicker p) (legSum l k pm) (legKalshiAsk l k)
                                  (legPolyAsk l pm) (slug pm) (kalshiContracts cfg)
                                  (polySize cfg) o (markDone l (kalshiTicker p) m) Hlive)
    as (tr & Etr & Hkal & Hpoly).
  rewrite Etr in Ho. inversion Ho; subst r m' rest0; clear Ho.
  exists k, pm. split; [exact Hk|]. split; [exact Hpm|].
  rewrite E, Ea. cbn [fst snd].
  rewrite (events_filter_tag isKalshiOrder) by reflexivity.
  split; [exact Hkal|].
  rewrite (polyPosts_same_client _ _ _ _ _ _ (markDone l (kalshiTicker p) m) m) in Hpoly
    by (destruct l; reflexivity).
  destruct (getTokenIdsForSlugCached _ _ _).1.1 as [ids | e].
  - split; [reflexivity|].
    rewrite (events_filter_tag isPolyOrder) by reflexivity. exact Hpoly.
  - split; [reflexivity|].
    apply map_eq_nil with (f := e_ev).
    rewrite (events_filter_tag isPolyOrder) by reflexivity. exact Hpoly.
Qed.

Lemma live_legs_are_sent_independently_witness :
  map e_ev (List.filter isKalshiOrder
              (tl (checkArbAndPlaceOrders cfg_live snap_up oracle_fail mem0).2))
  = [EvKalshiCreateOrder "KXBTC15M-A" yes (of_Z 5) (of_Z 41)] /\
  map e_ev (List.filter isPolyOrder
              (tl (checkArbAndPlaceOrders cfg_live snap_up oracle_fail mem0).2))
  = [EvClobPost "token-down" (parseFloat "0.49") (of_Z 5) "0.01" false].
Proof.
  destruct (live_legs_are_sent_independently
              cfg_live snap_up oracle_fail mem0 UpLeg
              (tl (checkArbAndPlaceOrders cfg_live snap_up oracle_fail mem0).2)
              eq_refl ltac:(vm_compute; reflexivity))
    as (k & pm & Hk & Hpm & Hkal & Hrest).
  split.
  - rewrite Hkal. injection Hk as <-. vm_compute. reflexivity.
  - vm_compute. reflexivity.
Defined.

(* ===================================================================== *)
(** * The poll loop: stopping, skipping, and staying alive *)
(* ===================================================================== *)

Module LoopFacts.
Import Monitor.

Section Runs.

Variable c : Consts.

(** ** After the stop function *)

Lemma length_delete_le {A} (i : nat) (l : list A) : (length (delete i l) <= length l)%nat.
Proof.
  revert i. induction l as [|x l IH]; intros [|i]; simpl; try lia.
  specialize (IH i). simpl in IH. lia.
Qed.

Lemma step_halted l s :
  stopped s = true \/ exited s = true ->
  (stopped (step c l s).1 = true \/ exited (step c l s).1 = true) /\
  Forall (fun e => acts e = false) (step c l s).2 /\
  (length (timers (step c l s).1) <= length (timers s))%nat.
Proof.
  intros H. unfold step. destruct (exited s) eqn:Ex.
  { simpl. split; [right; exact Ex | split; [constructor | lia]]. }
  destruct H as [Hs | Hx]; [|discriminate].
  destruct l as [i now slot now' | now slot now' | i res now | i dual thr stp now |].
  - destruct (timers s !! i) as [d|]; [|simpl; split; [auto | split; [constructor | lia]]].
    unfold poll_enter. simpl. destruct (pollInProgress s); simpl; rewrite ?Hs; simpl.
    + split; [auto|]. split; [repeat constructor | apply length_delete_le].
    + split; [auto|]. split; [constructor | apply length_delete_le].
  - unfold poll_enter. destruct (pollInProgress s); simpl; rewrite ?Hs; simpl.
    + split; [auto|]. split; [repeat constructor | lia].
    + split; [auto|]. split; [constructor | lia].
  - destruct (awaiting s !! i) as [[t0 | t0]|];
      try (simpl; split; [auto | split; [constructor | lia]]).
    unfold poll_resume_markets, poll_fetch, scheduleNext.
    destruct res as [[|t ms]|]; simpl; rewrite ?Hs; simpl;
      (split; [auto | split; [constructor | lia]]).
  - destruct (awaiting s !! i) as [[t0 | t0]|];
      try (simpl; split; [auto | split; [constructor | lia]]).
    unfold poll_resume_dual. simpl. rewrite Hs. simpl.
    split; [auto | split; [constructor | lia]].
  - simpl. split; [auto | split; [constructor | lia]].
Qed.

Lemma run_halted ls :
  forall s, stopped s = true \/ exited s = true ->
    Forall (fun e => acts e = false) (run c ls s).2 /\
    (length (timers (run c ls s).1) <= length (timers s))%nat.
Proof.
  induction ls as [|l ls IH]; intros s H; [simpl; split; [constructor | lia]|].
  rewrite MonitorFacts.run_cons. cbn [fst snd].
  destruct (step_halted l s H) as (H1 & H2 & H3).
  destruct (IH _ H1) as [H4 H5].
  split; [apply Forall_app; split; assumption | lia].
Qed.

(** ** No tick is skipped *)

Lemma poll_fetch_busy startedAt now s :
  busy_only_suspended (poll_fetch c startedAt now s).1.
Proof.
  unfold poll_fetch, busy_only_suspended.
  destruct (stopped s || ticker_falsy (kalshiTicker s)); simpl.
  - right. discriminate.
  - right. intros _. destruct (awaiting s); discriminate.
Qed.

Lemma poll_enter_idle now slot now' s :
  pollInProgress s = false ->
  ~ In Skipped (poll_enter c now slot now' s).2 /\
  busy_only_suspended (poll_enter c now slot now' s).1.
Proof.
  intros Hp. unfold poll_enter. rewrite Hp. simpl.
  destruct (stopped s); [split; [intros [] | right; simpl; discriminate]|].
  destruct (useAutoRefresh c && negb (String.eqb slot (lastSlot s))).
  - destruct (restartOnQuarterHour c); simpl.
    + split; [intros [H | []]; discriminate | left; reflexivity].
    + split; [intros [H | []]; discriminate|].
      right. simpl. intros _. destruct (awaiting s); discriminate.
  - split; [|apply poll_fetch_busy].
    unfold poll_fetch, poll_finally, scheduleNext. simpl.
    destruct (stopped s || ticker_falsy (kalshiTicker s)); simpl.
    + destruct (stopped s); simpl; [intros [] | intros [H | []]; discriminate].
    + intros [H | []]; discriminate.
Qed.

Lemma step_never_skips l s :
  scheduled l = true -> chained s -> busy_only_suspended s ->
  ~ In Skipped (step c l s).2 /\ busy_only_suspended (step c l s).1.
Proof.
  intros Hl Hc Hb. unfold step. destruct (exited s) eqn:Ex.
  { simpl. split; [intros [] | exact Hb]. }
  destruct Hb as [Hb | Hb]; [congruence|].
  unfold chained in Hc.
  destruct l as [i now slot now' | now slot now' | i res now | i dual thr stp now |];
    try discriminate.
  - destruct (timers s !! i) as [d|] eqn:Ei; [|simpl; split; [intros [] | right; exact Hb]].
    apply poll_enter_idle. simpl.
    destruct (pollInProgress s); [|reflexivity].
    exfalso. apply Hb; [reflexivity|].
    apply lookup_lt_Some in Ei.
    destruct (awaiting s); [reflexivity | simpl in Hc; lia].
  - destruct (awaiting s !! i) as [[t0 | t0]|] eqn:Ei;
      try (simpl; split; [intros [] | right; exact Hb]).
    unfold poll_resume_markets. destruct res as [markets|].
    + split; [|apply poll_fetch_busy].
      unfold poll_fetch, poll_finally, scheduleNext.
      destruct markets; simpl;
        (destruct (stopped s || _); simpl;
         [destruct (stopped s); simpl; [intros [] | intros [H | []]; discriminate]
         | intros [H | []]; discriminate]).
    + simpl. split; [intros [] | right; simpl; discriminate].
  - destruct (awaiting s !! i) as [[t0 | t0]|] eqn:Ei;
      try (simpl; split; [intros [] | right; exact Hb]).
    split.
    + unfold poll_resume_dual, scheduleNext, poll_finally. simpl.
      destruct (stopped s) eqn:Es; simpl; [intros []|].
      destruct stp; simpl; rewrite ?Es; simpl; destruct thr; simpl;
        intros H; repeat (destruct H as [H | H]; [discriminate|]); exact H.
    + right. intros H.
      destruct (MonitorFacts.poll_resume_dual_keeps c t0 dual thr stp now
                  (set_awaiting (delete i (awaiting s)) s)) as [_ E].
      congruence.
  - simpl. split; [intros [] | right; exact Hb].
Qed.

Lemma run_never_skips ls :
  forall s, forallb scheduled ls = true -> chained s -> busy_only_suspended s ->
            ~ In Skipped (run c ls s).2.
Proof.
  induction ls as [|l ls IH]; intros s Hs Hc Hb; [intros []|].
  simpl in Hs. apply andb_prop in Hs as [Hl Hls].
  rewrite MonitorFacts.run_cons. cbn [snd].
  destruct (step_never_skips l s Hl Hc Hb) as [H1 H2].
  intros H. apply in_app_or in H as [H | H]; [exact (H1 H)|].
  apply (IH (step c l s).1 Hls); [|exact H2 | exact H].
  apply MonitorFacts.step_sets; assumption.
Qed.

(** ** Staying alive *)

Lemma lookup_singleton_total {A} (l : list A) (l' : list Await) (i : nat) (x : A) :
  (length l + length l' = 1)%nat -> l !! i = Some x ->
  l = [x] /\ l' = [] /\ i = 0%nat.
Proof.
  intros Hlen Hi. destruct l as [|y [|z l]]; simpl in *; try discriminate; try lia.
  destruct i as [|i]; simpl in Hi; [|discriminate].
  inversion Hi; subst. destruct l'; [auto | simpl in Hlen; lia].
Qed.

Lemma lookup_singleton_awaiting (l : list Z) (l' : list Await) (i : nat) (x : Await) :
  (length l + length l' = 1)%nat -> l' !! i = Some x ->
  l = [] /\ l' = [x] /\ i = 0%nat.
Proof.
  intros Hlen Hi. destruct l' as [|y [|z l']]; simpl in *; try discriminate; try lia.
  destruct i as [|i]; simpl in Hi; [|discriminate].
  inversion Hi; subst. destruct l; [auto | simpl in Hlen; lia].
Qed.

Lemma poll_fetch_alive startedAt now s :
  stopped s = false -> timers s = [] -> awaiting s = [] ->
  alive (poll_fetch c startedAt now s).1.
Proof.
  intros Hs Ht Ha. unfold poll_fetch, poll_finally, scheduleNext, alive.
  rewrite Hs. simpl. destruct (ticker_falsy (kalshiTicker s)); simpl; rewrite ?Hs.
  - split; [reflexivity|]. right. rewrite Ht, Ha. simpl. split; [reflexivity | discriminate].
  - split; [reflexivity|]. right. rewrite Ht, Ha. simpl. split; [reflexivity | discriminate].
Qed.

Lemma step_alive l s : keeps_going l = true -> alive s -> alive (step c l s).1.
Proof.
  intros Hl [Hs Hrun]. unfold step. destruct (exited s) eqn:Ex; [split; auto|].
  destruct Hrun as [Hx | [Hlen Hbusy]]; [congruence|].
  destruct l as [i now slot now' | now slot now' | i res now | i dual thr stp now |];
    try discriminate.
  - destruct (timers s !! i) as [d|] eqn:Ei; [|split; auto].
    destruct (lookup_singleton_total _ _ _ _ Hlen Ei) as (Ht & Ha & ->).
    assert (Hp : pollInProgress s = false).
    { destruct (pollInProgress s); [|reflexivity]. exfalso. apply Hbusy; auto. }
    unfold poll_enter. simpl. rewrite Hp, Hs, Ht. simpl.
    destruct (useAutoRefresh c && negb (String.eqb slot (lastSlot s))).
    + destruct (restartOnQuarterHour c); unfold alive; simpl; rewrite ?Hs, ?Ha; simpl.
      * split; [reflexivity | left; reflexivity].
      * split; [reflexivity|]. right. split; [reflexivity | discriminate].
    + apply poll_fetch_alive; simpl; first [reflexivity | assumption].
  - destruct (awaiting s !! i) as [[t0 | t0]|] eqn:Ei; try (split; auto; fail).
    destruct res as [markets|]; [|discriminate].
    destruct (lookup_singleton_awaiting _ _ _ _ Hlen Ei) as (Ht & Ha & ->).
    unfold poll_resume_markets. rewrite Ha. simpl.
    destruct markets; apply poll_fetch_alive; simpl; first [reflexivity | assumption].
  - destruct (awaiting s !! i) as [[t0 | t0]|] eqn:Ei; try (split; auto; fail).
    destruct (lookup_singleton_awaiting _ _ _ _ Hlen Ei) as (Ht & Ha & ->).
    destruct thr, stp; try discriminate;
      unfold poll_resume_dual, scheduleNext, poll_finally, alive; rewrite Ha; simpl;
      rewrite Hs; simpl; rewrite Hs, Ht; simpl;
      (split; [reflexivity|]); right; (split; [reflexivity | discriminate]).
Qed.

Lemma run_alive ls : forall s, forallb keeps_going ls = true -> alive s -> alive (run c ls s).1.
Proof.
  induction ls as [|l ls IH]; intros s Hls Ha; [exact Ha|].
  simpl in Hls. apply andb_prop in Hls as [Hl Hls].
  rewrite MonitorFacts.run_cons. cbn [fst]. apply IH; [exact Hls|].
  apply step_alive; assumption.
Qed.

(** ** A market refresh that fails *)

Lemma step_dead l s :
  scheduled l = true -> dead s -> (step c l s).2 = [] /\ dead (step c l s).1.
Proof.
  intros Hl [Ht Ha]. unfold step. destruct (exited s); [split; [reflexivity | split; assumption]|].
  destruct l as [i now slot now' | now slot now' | i res now | i dual thr stp now |];
    try discriminate; rewrite ?Ht, ?Ha; simpl;
    (split; [reflexivity | split; assumption]).
Qed.

Lemma run_dead ls :
  forall s, forallb scheduled ls = true -> dead s -> (run c ls s).2 = [] /\ dead (run c ls s).1.
Proof.
  induction ls as [|l ls IH]; intros s Hls Hd; [split; [reflexivity | exact Hd]|].
  simpl in Hls. apply andb_prop in Hls as [Hl Hls].
  rewrite MonitorFacts.run_cons. cbn [fst snd].
  destruct (step_dead l s Hl Hd) as [E Hd'].
  destruct (IH _ Hls Hd') as [E' Hd''].
  rewrite E, E'. split; [reflexivity | exact Hd''].
Qed.

(** An exception that leaves the callback part of a tick ends the loop:
    the tick sets no timer, and nothing is pending after it. *)
Lemma escape_is_fatal i t0 dual stp now ls s :
  alive s -> exited s = false -> awaiting s !! i = Some (AwaitDual t0) ->
  forallb scheduled ls = true ->
  (run c (DualSettles i dual CbEscapes stp now :: ls) s).2 = [OnPrices dual; OnError] /\
  dead (run c (DualSettles i dual CbEscapes stp now :: ls) s).1.
Proof.
  intros [Hs [Hx | [Hlen _]]] Ex Ei Hls; [congruence|].
  destruct (lookup_singleton_awaiting _ _ _ _ Hlen Ei) as (Ht & Ha & ->).
  assert (Estep : exists s', step c (DualSettles 0 dual CbEscapes stp now) s
                             = (s', [OnPrices dual; OnError]) /\ dead s').
  { unfold step. rewrite Ex, Ha. simpl. unfold poll_resume_dual. simpl. rewrite Hs.
    destruct stp; (eexists; split; [reflexivity|]); split; simpl; auto. }
  destruct Estep as (s' & Estep & Hd).
  rewrite MonitorFacts.run_cons, Estep. cbn [fst snd].
  destruct (run_dead ls s' Hls Hd) as [E Hd'].
  rewrite E. split; [reflexivity | exact Hd'].
Qed.

(** ** A fixed ticker *)

Lemma step_fixed t l s :
  useAutoRefresh c = false -> truthy t = true -> fixed_on t s ->
  fixed_on t (step c l s).1 /\
  Forall (fixed_event t (polymarketMarket c)) (step c l s).2.
Proof.
  intros Hauto Ht (Hk & Hx & Hd). unfold step. rewrite Hx.
  assert (Hfetch : forall startedAt now s,
             fixed_on t s ->
             fixed_on t (poll_fetch c startedAt now s).1 /\
             Forall (fixed_event t (polymarketMarket c)) (poll_fetch c startedAt now s).2).
  { clear - Ht. intros startedAt now s (Hk & Hx & Hd).
    unfold poll_fetch, poll_finally, scheduleNext, fixed_on.
    rewrite Hk. simpl. rewrite Ht. simpl. rewrite orb_false_r.
    destruct (stopped s); simpl.
    - repeat split; try assumption. constructor.
    - rewrite Hk. repeat split; try assumption.
      + apply Forall_app. split; [exact Hd | repeat constructor].
      + repeat constructor. }
  destruct l as [i now slot now' | now slot now' | i res now | i dual thr stp now |].
  - destruct (timers s !! i) as [d|]; [|split; [repeat split; assumption | constructor]].
    unfold poll_enter. simpl. rewrite Hauto. simpl.
    destruct (pollInProgress s); [split; [repeat split; assumption | repeat constructor]|].
    destruct (stopped s) eqn:Es; [split; [repeat split; assumption | constructor]|].
    apply Hfetch. repeat split; assumption.
  - unfold poll_enter. rewrite Hauto. simpl.
    destruct (pollInProgress s); [split; [repeat split; assumption | repeat constructor]|].
    simpl. destruct (stopped s) eqn:Es; [split; [repeat split; assumption | constructor]|].
    apply Hfetch. repeat split; assumption.
  - destruct (awaiting s !! i) as [[t0 | t0]|] eqn:Ei;
      try (split; [repeat split; assumption | constructor]).
    exfalso. rewrite List.Forall_forall in Hd.
    assert (Hin : In (AwaitMarkets t0) (awaiting s)).
    { apply list_elem_of_In. eapply list_elem_of_lookup_2, Ei. }
    specialize (Hd _ Hin). discriminate.
  - destruct (awaiting s !! i) as [[t0 | t0]|] eqn:Ei;
      try (split; [repeat split; assumption | constructor]).
    assert (Hd' : Forall (fun a => is_dual a = true) (delete i (awaiting s))).
    { rewrite List.Forall_forall in *. intros a Ha. apply Hd.
      eapply MonitorFacts.In_delete, Ha. }
    unfold poll_resume_dual, poll_finally, scheduleNext. simpl.
    destruct (stopped s) eqn:Es; simpl; [split; [repeat split; assumption | constructor]|].
    destruct stp, thr; simpl; rewrite ?Es; simpl;
      (split; [repeat split; assumption | repeat constructor]).
  - simpl. split; [repeat split; assumption | constructor].
Qed.

Lemma run_fixed t ls :
  forall s, useAutoRefresh c = false -> truthy t = true -> fixed_on t s ->
            fixed_on t (run c ls s).1 /\
            Forall (fixed_event t (polymarketMarket c)) (run c ls s).2.
Proof.
  induction ls as [|l ls IH]; intros s Hauto Ht Hf; [split; [exact Hf | constructor]|].
  rewrite MonitorFacts.run_cons. cbn [fst snd].
  destruct (step_fixed t l s Hauto Ht Hf) as [Hf' He].
  destruct (IH _ Hauto Ht Hf') as [Hf'' He'].
  split; [exact Hf'' | apply Forall_app; split; assumption].
Qed.

End Runs.

Lemma start_busy options slot markets c0 s0 :
  startDualPriceMonitor options slot markets = Some (c0, s0) ->
  busy_only_suspended s0.
Proof.
  unfold startDualPriceMonitor. intros H. right.
  destruct (ticker_falsy (opt_kalshiTicker options)).
  - destruct markets as [[|t ms]|]; try discriminate. inversion H; subst. discriminate.
  - inversion H; subst. discriminate.
Qed.

(** X8. Once the stop function has been called the loop does nothing more,
    whatever happens next: no read is started, no snapshot is handed to the
    callback (a read in flight is dropped when it settles), no error is
    reported, the markets are not listed anew, the process is not restarted
    and no timer is set; the timers still pending only run out. *)
Theorem stop_is_final (c : Consts) (ls : list Label) (s : State) :
  Forall (fun e => acts e = false) (run c (StopCalled :: ls) s).2 /\
  (length (timers (run c (StopCalled :: ls) s).1) <= length (timers s))%nat.
Proof.
  rewrite MonitorFacts.run_cons. cbn [fst snd].
  assert (H : stopped (step c StopCalled s).1 = true \/ exited (step c StopCalled s).1 = true).
  { unfold step. destruct (exited s) eqn:Ex; simpl; auto. }
  destruct (run_halted c ls _ H) as [H1 H2].
  split.
  - apply Forall_app. split; [|exact H1].
    unfold step. destruct (exited s); constructor.
  - etransitivity; [exact H2|]. unfold step. destruct (exited s); simpl; lia.
Qed.

(** X9. From the state [startDualPriceMonitor] sets up, the loop never
    skips one of its own ticks: as long as [poll] is only entered from the
    timers the loop sets, a timer never expires while a tick is under way, so
    the in-flight guard never turns a tick away. *)
Theorem own_ticks_are_never_skipped
        (options : Options) (slot : string) (markets : option (list string))
        (c0 : Consts) (s0 : State) (ls : list Label)
        (Hstart : startDualPriceMonitor options slot markets = Some (c0, s0))
        (Hown : forallb scheduled ls = true) :
  ~ In Skipped (run c0 ls s0).2.
Proof.
  apply run_never_skips; [exact Hown | | exact (start_busy _ _ _ _ _ Hstart)].
  exact (proj1 (MonitorFacts.start_chained _ _ _ _ _ Hstart)).
Qed.

Lemma start_alive options slot markets c0 s0 :
  startDualPriceMonitor options slot markets = Some (c0, s0) -> alive s0.
Proof.
  unfold startDualPriceMonitor, alive. intros H.
  destruct (ticker_falsy (opt_kalshiTicker options)).
  - destruct markets as [[|t ms]|]; try discriminate. inversion H; subst. simpl.
    split; [reflexivity|]. right. split; [reflexivity | discriminate].
  - inversion H; subst. simpl.
    split; [reflexivity|]. right. split; [reflexivity | discriminate].
Qed.

(** X10. From the state [startDualPriceMonitor] sets up, as long as the
    loop is driven by its own timers, the market refresh does not fail,
    nobody calls the stop function and no exception leaves the callback part
    of a tick (the snapshot callback returns, or it throws and [onError] is
    absent or returns), the loop stays alive: after every run either the
    process has been restarted for a new slot, or exactly one thing is
    pending, the timer of the next tick or the tick under way.  An exception
    that does leave the callback part (the callback throws, and [onError]
    throws too) ends the loop: the tick hands over the snapshot, reports
    the error and sets no timer, and from then on nothing is pending and
    nothing happens any more. *)
Theorem loop_stays_alive
        (options : Options) (slot : string) (markets : option (list string))
        (c0 : Consts) (s0 : State) (ls : list Label)
        (Hstart : startDualPriceMonitor options slot markets = Some (c0, s0))
        (Hgoing : forallb keeps_going ls = true) :
  stopped (run c0 ls s0).1 = false /\
  (exited (run c0 ls s0).1 = true \/
   (length (timers (run c0 ls s0).1) + length (awaiting (run c0 ls s0).1) = 1)%nat) /\
  (forall i t0 dual stp now ls',
      exited (run c0 ls s0).1 = false ->
      awaiting (run c0 ls s0).1 !! i = Some (AwaitDual t0) ->
      forallb scheduled ls' = true ->
      (run c0 (DualSettles i dual CbEscapes stp now :: ls') (run c0 ls s0).1).2
      = [OnPrices dual; OnError] /\
      timers (run c0 (DualSettles i dual CbEscapes stp now :: ls') (run c0 ls s0).1).1 = [] /\
      awaiting (run c0 (DualSettles i dual CbEscapes stp now :: ls') (run c0 ls s0).1).1 = []).
Proof.
  pose proof (run_alive c0 ls s0 Hgoing (start_alive _ _ _ _ _ Hstart)) as Halive.
  split; [apply Halive|]. split.
  { destruct Halive as [Hs [Hx | [Hl _]]]; auto. }
  intros i t0 dual stp now ls' Hx Hi Hls.
  destruct (escape_is_fatal c0 i t0 dual stp now ls' _ Halive Hx Hi Hls) as [E [Ht Ha]].
  auto.
Qed.

(** X11. A market refresh that fails ends the loop for good: when the
    listing awaited by a tick is rejected, the tick ends without setting a
    timer, so nothing is pending any more; whatever the loop's own timers and
    settlements could still bring, nothing happens, although the stop
    function was never called. *)
Theorem failed_refresh_ends_the_loop
        (c : Consts) (s : State) (i : nat) (t0 now : Z) (ls : list Label)
        (Hchain : chained s) (Hrun : exited s = false)
        (Hwait : awaiting s !! i = Some (AwaitMarkets t0))
        (Hown : forallb scheduled ls = true) :
  (run c (MarketsSettle i None now :: ls) s).2 = [] /\
  timers (run c (MarketsSettle i None now :: ls) s).1 = [] /\
  awaiting (run c (MarketsSettle i None now :: ls) s).1 = [] /\
  stopped (step c (MarketsSettle i None now) s).1 = stopped s.
Proof.
  unfold chained in Hchain.
  assert (Hlen : (length (timers s) + length (awaiting s) = 1)%nat).
  { apply lookup_lt_Some in Hwait. lia. }
  destruct (lookup_singleton_awaiting _ _ _ _ Hlen Hwait) as (Ht & Ha & ->).
  assert (Estep : step c (MarketsSettle 0 None now) s
                  = (set_pollInProgress false (set_awaiting [] s), [])).
  { unfold step. rewrite Hrun, Ha. reflexivity. }
  rewrite MonitorFacts.run_cons, Estep. cbn [fst snd].
  destruct (run_dead c ls (set_pollInProgress false (set_awaiting [] s)) Hown)
    as (E & Hd1 & Hd2); [split; [exact Ht | reflexivity]|].
  rewrite E. auto.
Qed.

(** X12. A monitor started with a ticker of its own keeps to it: whatever
    happens, every read it starts is for that ticker and for the configured
    Polymarket market, it never lists the markets anew and never restarts
    the process. *)
Theorem fixed_ticker_is_kept
        (options : Options) (slot : string) (markets : option (list string))
        (c0 : Consts) (s0 : State) (t : string) (ls : list Label)
        (Hstart : startDualPriceMonitor options slot markets = Some (c0, s0))
        (Hticker : opt_kalshiTicker options = Some t)
        (Hset : t <> ""%string) :
  Forall (fixed_event t (nullish (opt_polymarketMarket options) "btc"%string))
         (run c0 ls s0).2 /\
  kalshiTicker (run c0 ls s0).1 = Some t /\
  exited (run c0 ls s0).1 = false.
Proof.
  apply truthy_nonempty in Hset.
  unfold startDualPriceMonitor in Hstart. rewrite Hticker in Hstart.
  simpl in Hstart. rewrite Hset in Hstart. simpl in Hstart.
  inversion Hstart; subst c0 s0; clear Hstart.
  match goal with
  | |- context [run ?c ls ?s] =>
      destruct (run_fixed c t ls s eq_refl Hset) as [(Hk & Hx & _) He];
      [repeat split; constructor|]
  end.
  split; [exact He | split; assumption].
Qed.

End LoopFacts.

Lemma own_ticks_are_never_skipped_witness :
  ~ In Monitor.Skipped
       (Monitor.run monitor_consts
          [Monitor.TimerFires 0 1000 "2026-01-01_00-00" 1000;
           Monitor.DualSettles 0 snap_up Monitor.CbReturns false 1450;
           Monitor.TimerFires 0 1450 "2026-01-01_00-00" 1450]
          monitor_init).2.
Proof.
  apply (LoopFacts.own_ticks_are_never_skipped
           monitor_options "2026-01-01_00-00"%string None);
    reflexivity.
Defined.

Lemma loop_stays_alive_witness :
  (length (Monitor.timers
             (Monitor.run monitor_consts
                [Monitor.TimerFires 0 1000 "2026-01-01_00-00" 1000;
                 Monitor.DualSettles 0 snap_up Monitor.CbHandled false 1450]
                monitor_init).1)
   + length (Monitor.awaiting
               (Monitor.run monitor_consts
                  [Monitor.TimerFires 0 1000 "2026-01-01_00-00" 1000;
                   Monitor.DualSettles 0 snap_up Monitor.CbHandled false 1450]
                  monitor_init).1) = 1)%nat /\
  (Monitor.run monitor_consts
     [Monitor.TimerFires 0 1000 "2026-01-01_00-00" 1000;
      Monitor.DualSettles 0 snap_up Monitor.CbEscapes false 1450;
      Monitor.TimerFires 0 1650 "2026-01-01_00-00" 1650]
     monitor_init).2
  = [Monitor.FetchStart "KXBTC15M-A" "btc"; Monitor.OnPrices snap_up; Monitor.OnError].
Proof.
  split.
  - destruct (LoopFacts.loop_stays_alive
                monitor_options "2026-01-01_00-00"%string None monitor_consts monitor_init
                [Monitor.TimerFires 0 1000 "2026-01-01_00-00" 1000;
                 Monitor.DualSettles 0 snap_up Monitor.CbHandled false 1450]
                eq_refl eq_refl) as (_ & [Hx | Hl] & _); [discriminate | exact Hl].
  - destruct (LoopFacts.loop_stays_alive
                monitor_options "2026-01-01_00-00"%string None monitor_consts monitor_init
                [Monitor.TimerFires 0 1000 "2026-01-01_00-00" 1000]
                eq_refl eq_refl) as (_ & _ & Hesc).
    destruct (Hesc 0%nat 1000 snap_up false 1450
                   [Monitor.TimerFires 0 1650 "2026-01-01_00-00" 1650]
                   eq_refl eq_refl eq_refl) as (E & _ & _).
    change (Monitor.run monitor_consts
              [Monitor.TimerFires 0 1000 "2026-01-01_00-00" 1000;
               Monitor.DualSettles 0 snap_up Monitor.CbEscapes false 1450;
               Monitor.TimerFires 0 1650 "2026-01-01_00-00" 1650] monitor_init).2
      with ([Monitor.FetchStart "KXBTC15M-A" "btc"]
              ++ (Monitor.run monitor_consts
                    [Monitor.DualSettles 0 snap_up Monitor.CbEscapes false 1450;
                     Monitor.TimerFires 0 1650 "2026-01-01_00-00" 1650]
                    (Monitor.run monitor_consts
                       [Monitor.TimerFires 0 1000 "2026-01-01_00-00" 1000]
                       monitor_init).1).2).
    rewrite E. reflexivity.
Defined.

Lemma failed_refresh_ends_the_loop_witness :
  Monitor.startDualPriceMonitor refresh_options "2026-01-01_00-00"
                                (Some ["KXBTC15M-A"%string])
  = Some (refresh_consts, refresh_init) /\
  (Monitor.run refresh_consts
     [Monitor.TimerFires 0 900000 "2026-01-01_00-15" 900000] refresh_init).2
  = [Monitor.RefreshMarkets] /\
  (Monitor.run refresh_consts
     [Monitor.MarketsSettle 0 None 900400;
      Monitor.TimerFires 0 900600 "2026-01-01_00-15" 900600]
     (Monitor.run refresh_consts
        [Monitor.TimerFires 0 900000 "2026-01-01_00-15" 900000] refresh_init).1).2
  = [].
Proof.
  split; [reflexivity|]. split; [reflexivity|].
  apply (LoopFacts.failed_refresh_ends_the_loop
           refresh_consts
           (Monitor.run refresh_consts
              [Monitor.TimerFires 0 900000 "2026-01-01_00-15" 900000] refresh_init).1
           0%nat 900000 900400
           [Monitor.TimerFires 0 900600 "2026-01-01_00-15" 900600]).
  - unfold Monitor.chained. simpl. lia.
  - reflexivity.
  - reflexivity.
  - reflexivity.
Defined.

Lemma fixed_ticker_is_kept_witness :
  Monitor.kalshiTicker
    (Monitor.run monitor_consts
       [Monitor.TimerFires 0 1000 "2026-01-01_00-15" 1000;
        Monitor.MarketsSettle 0 (Some ["KXBTC15M-B"%string]) 1100]
       monitor_init).1
  = Some "KXBTC15M-A"%string.
Proof.
  apply (LoopFacts.fixed_ticker_is_kept
           monitor_options "2026-01-01_00-00"%string None monitor_consts monitor_init
           "KXBTC15M-A"%string
           [Monitor.TimerFires 0 1000 "2026-01-01_00-15" 1000;
            Monitor.MarketsSettle 0 (Some ["KXBTC15M-B"%string]) 1100]
           eq_refl eq_refl).
  discriminate.
Defined.

(* ===================================================================== *)
(** * The Polymarket snapshot and the tick *)
(* ===================================================================== *)

(** A lookup that succeeds leaves the cache holding the slug, and returns
    the ids of that entry. *)
Lemma getTokenIdsForSlugCached_Ok slug net m ids m1 lt :
  getTokenIdsForSlugCached slug net m = (Ok ids, m1, lt) ->
  exists c,
    tokenIdsCache m1 = Some c /\ c_slug c = slug /\ ids = ids_of c /\
    keeps_done m m1 /\
    (lt = [] \/ lt = [entry (EvGammaFetch slug)]).
Proof.
  intros E. destruct (cache_hit (tokenIdsCache m) slug) as [c|] eqn:Ec.
  - rewrite (getTokenIdsForSlugCached_hit _ _ _ _ Ec) in E. inversion E; subst.
    apply cache_hit_Some in Ec as [Ec Es].
    exists c. repeat split; auto.
  - destruct (getTokenIdsForSlugCached_miss slug net m Ec) as [[fresh E'] | [e E']];
      rewrite E' in E; inversion E; subst.
    exists (cache_of slug fresh). repeat split; auto.
Qed.

(** A Polymarket read that yields a snapshot. *)
Lemma getPolymarketAskPrices_Some market startAt doneAt gamma bookUp bookDown m pm m' tr :
  getPolymarketAskPrices market startAt doneAt gamma bookUp bookDown m
  = (Ok (Some pm), m', tr) ->
  slug pm = slugForCurrent15m market startAt /\
  pp_fetchedAt pm = doneAt /\
  keeps_done m m' /\
  (exists c lt,
      tokenIdsCache m' = Some c /\ c_slug c = slug pm /\
      (lt = [] \/ lt = [entry (EvGammaFetch (slug pm))]) /\
      tr = lt ++ [entry (EvClobBook (c_upTokenId c)); entry (EvClobBook (c_downTokenId c))]) /\
  (exists asksUp asksDown,
      bookUp = BookData (Some asksUp) /\ bookDown = BookData (Some asksDown) /\
      bestAsk asksUp = Some (upAsk pm) /\ bestAsk asksDown = Some (downAsk pm)).
Proof.
  unfold getPolymarketAskPrices, try_catch.
  set (sl := slugForCurrent15m market startAt).
  destruct (getTokenIdsForSlugCached sl gamma m) as [[[ids | e] m1] lt] eqn:El.
  2:{ rewrite (bind_Throw _ _ _ _ _ _ El). simpl. intros H. inversion H. }
  destruct (getTokenIdsForSlugCached_Ok _ _ _ _ _ _ El) as (c & Hc & Hs & -> & Hk & Hlt).
  rewrite (bind_Ok _ _ _ _ _ _ El).
  destruct (getBestAskForToken_run (upTokenId (ids_of c)) bookUp m1) as (ru & Eu & Hu).
  destruct (getBestAskForToken_run (downTokenId (ids_of c)) bookDown m1) as (rd & Ed & Hd).
  unfold bind, promise_all2. rewrite Eu, Ed.
  destruct ru as [[u|]| eu]; destruct rd as [[d|]| ed]; simpl;
    intros H; inversion H; subst; clear H.
  destruct (Hu u eq_refl) as (asksUp & -> & Bu).
  destruct (Hd d eq_refl) as (asksDown & -> & Bd).
  simpl. repeat split; try apply Hk.
  - exists c, lt. repeat split; assumption.
  - exists asksUp, asksDown. repeat split; assumption.
Qed.

(** ** The slug and the local time of the host *)

Lemma quarter_of_minutes (x : Z) :
  x / 3600000 * 3600000 + (x / 60000) mod 60 / 15 * 15 * 60000 = x / 900000 * 900000.
Proof.
  assert (H1 : x / 3600000 = x / 60000 / 60) by (rewrite Z.div_div by lia; reflexivity).
  assert (H2 : x / 900000 = x / 60000 / 15) by (rewrite Z.div_div by lia; reflexivity).
  rewrite H1, H2. set (y := x / 60000).
  rewrite (Z.mod_eq y 60) by lia.
  replace (y - 60 * (y / 60)) with (y + (- 4 * (y / 60)) * 15) by lia.
  rewrite Z.div_add by lia. lia.
Qed.

(** Where the zone is steady, the slug is that of the quarter hour of the
    epoch. *)
Lemma slugForCurrent15m_steady (market : string) (d : Date.t) (off : Z) :
  steady (Date.zone d) off (Date.getTime d) ->
  slugForCurrent15m market d
  = (market ++ "-updown-15m-" ++ pretty (quarter_of_epoch (Date.getTime d)))%string.
Proof.
  intros [Hoff Hz]. destruct d as [now z]. simpl in *.
  unfold slugForCurrent15m, quarter_of_epoch. do 2 f_equal. f_equal.
  apply Z.mod_divide in Hoff; [|lia]. destruct Hoff as [k ->].
  set (q := now / 900000 * 900000) in *.
  set (u := now / 60000 * 60000).
  assert (Hq : q <= u <= now).
  { unfold q, u. pose proof (Z.mul_div_le now 60000 ltac:(lia)).
    assert (now / 900000 * 15 <= now / 60000).
    { apply Z.div_le_lower_bound; [lia|].
      pose proof (Z.mul_div_le now 900000 ltac:(lia)). lia. }
    lia. }
  assert (Hqq : q <= q <= now).
  { unfold q. pose proof (Z.mul_div_le now 900000 ltac:(lia)). lia. }
  assert (Hnn : q <= now <= now) by lia.
  destruct (Hz _ Hnn) as [Hn1 _]. destruct (Hz _ Hq) as [Hu1 Hu2].
  destruct (Hz _ Hqq) as [_ Hq2].
  unfold Date.setMinutes, Date.getMinutes, Date.setMilliseconds, Date.setSeconds,
    Date.LocalTime, Date.UTC, Date.msPerMinute, Date.msPerSecond, Date.msPerHour.
  cbn [Date.getTime Date.zone].
  rewrite Hn1.
  assert (E1 : (now + k * 900000) / 60000 * 60000 + 0 * 1000 + 0 = u + k * 900000).
  { unfold u. replace (now + k * 900000) with (now + (k * 15) * 60000) by lia.
    rewrite Z.div_add by lia. lia. }
  rewrite E1, Hu2.
  replace (u + k * 900000 - k * 900000) with u by lia.
  rewrite Hu1.
  assert (E2 : (u + k * 900000) / 1000 * 1000 + 0 = u + k * 900000).
  { unfold u. replace (now / 60000 * 60000 + k * 900000)
      with ((now / 60000 * 60 + k * 900) * 1000) by lia.
    rewrite Z.div_mul by lia. lia. }
  rewrite E2, Hu2.
  replace (u + k * 900000 - k * 900000) with u by lia.
  rewrite Hu1.
  assert (E3 : (u + k * 900000) / 3600000 * 3600000
               + (u + k * 900000) / 60000 mod 60 / 15 * 15 * 60000 + 0 * 1000 + 0
               = q + k * 900000).
  { pose proof (quarter_of_minutes (u + k * 900000)) as Hm.
    rewrite (Z.div_add u k 900000) in Hm by lia.
    assert (Hu : u / 900000 = now / 900000).
    { unfold u. change 900000 with (60000 * 15).
      rewrite <- !Z.div_div by lia. rewrite Z.div_mul by lia. reflexivity. }
    rewrite Hu in Hm. unfold q. lia. }
  rewrite E3, Hq2.
  replace (q + k * 900000 - k * 900000) with q by lia.
  unfold q. replace (now / 900000 * 900000) with (now / 900000 * 900 * 1000) by lia.
  apply Z.div_mul. lia.
Qed.

Lemma steady_fixed_zone (off now : Z) : off mod 900000 = 0 -> steady (fixed_zone off) off now.
Proof. intros H. split; [exact H | intros t _; split; reflexivity]. Qed.

(** X13. When [getPolymarketAskPrices] yields a snapshot, the snapshot is
    for the slug that [slugForCurrent15m] computes from the local time of the
    host at the start of the read.  Where the zone has kept one offset, a
    multiple of fifteen minutes, over the quarter hour so far, that slug
    names the start of the quarter hour of the epoch.  It does not in the
    local hour that a zone repeats: in New York at 06:55 UTC on the first of
    November 2026 the slug is btc-updown-15m-1793511900, which names the
    quarter hour from 05:45 UTC, an hour before the current one.  Both asks
    of the snapshot are finite numbers, each the lowest finite price of the
    book it was read from; the cache then holds the token ids of the slug of
    the snapshot; and the requests sent were at most one Gamma request
    followed by the two book requests, for the UP and the DOWN token of the
    cached entry. *)
Theorem polymarket_snapshot_is_sound
        (market : string) (startAt : Date.t) (doneAt : Z) (gamma : GammaOutcome)
        (bookUp bookDown : BookOutcome) (m : Mem)
        (pm : PolymarketPrices) (m' : Mem) (tr : list Entry)
        (Hread : getPolymarketAskPrices market startAt doneAt gamma bookUp bookDown m
                 = (Ok (Some pm), m', tr)) :
  slug pm = slugForCurrent15m market startAt /\
  (forall off,
      steady (Date.zone startAt) off (Date.getTime startAt) ->
      slug pm
      = (market ++ "-updown-15m-" ++ pretty (quarter_of_epoch (Date.getTime startAt)))%string) /\
  (slugForCurrent15m "btc" (at_new_york 1793516100000) = "btc-updown-15m-1793511900"%string /\
   quarter_of_epoch 1793516100000 = 1793515500 /\
   quarter_of_epoch 1793516100000 - 3600 = 1793511900) /\
  isFinite (upAsk pm) = true /\ isFinite (downAsk pm) = true /\
  (exists asksUp asksDown,
      bookUp = BookData (Some asksUp) /\ bookDown = BookData (Some asksDown) /\
      (exists s, In s asksUp /\ parseFloat s = upAsk pm) /\
      (exists s, In s asksDown /\ parseFloat s = downAsk pm) /\
      (forall s, In s asksUp -> isFinite (parseFloat s) = true ->
                 lt (parseFloat s) (upAsk pm) = false) /\
      (forall s, In s asksDown -> isFinite (parseFloat s) = true ->
                 lt (parseFloat s) (downAsk pm) = false)) /\
  (exists c lt,
      tokenIdsCache m' = Some c /\ c_slug c = slug pm /\
      (lt = [] \/ lt = [entry (EvGammaFetch (slug pm))]) /\
      tr = lt ++ [entry (EvClobBook (c_upTokenId c)); entry (EvClobBook (c_downTokenId c))]).
Proof.
  destruct (getPolymarketAskPrices_Some _ _ _ _ _ _ _ _ _ _ Hread)
    as (Hs & _ & _ & Hc & asksUp & asksDown & Eu & Ed & Bu & Bd).
  destruct (proj1 (bestAsk_spec asksUp) _ Bu) as (Fu & Iu & Mu).
  destruct (proj1 (bestAsk_spec asksDown) _ Bd) as (Fd & Id & Md).
  split; [exact Hs|].
  split; [intros off Hoff; rewrite Hs; apply (slugForCurrent15m_steady _ _ off Hoff)|].
  split; [vm_compute; repeat split; reflexivity|].
  split; [exact Fu|]. split; [exact Fd|].
  split; [|exact Hc].
  exists asksUp, asksDown. repeat split; assumption.
Qed.

Lemma polymarket_snapshot_is_sound_witness :
  upAsk {| slug := "btc-updown-15m-0"; upAsk := parseFloat "0.38";
           downAsk := parseFloat "0.48"; pp_fetchedAt := 1060 |} = parseFloat "0.38" /\
  isFinite (parseFloat "0.38") = true.
Proof.
  split; [reflexivity|].
  apply (polymarket_snapshot_is_sound
           "btc" (at_utc 1001) 1060 gamma_ok (f_bookUp fetch_ok) (f_bookDown fetch_ok) mem0
           {| slug := "btc-updown-15m-0"; upAsk := parseFloat "0.38";
              downAsk := parseFloat "0.48"; pp_fetchedAt := 1060 |}
           (set_tokenIdsCache
              (Some {| c_slug := "btc-updown-15m-0"; c_upTokenId := "token-up";
                       c_downTokenId := "token-down" |}) mem0)
           [entry (EvGammaFetch "btc-updown-15m-0"); entry (EvClobBook "token-up");
            entry (EvClobBook "token-down")]).
  vm_compute. reflexivity.
Defined.

(** ** The order step after the price read *)

Lemma placePolymarketOrder_events cfg tokenId price size options build net m :
  Forall (fun e => match e_ev e with
                   | EvGammaFetch _ => False
                   | EvClobPost tok _ _ _ _ => tok = tokenId
                   | _ => True
                   end)
         (placePolymarketOrder cfg tokenId price size options build net m).2.
Proof.
  unfold placePolymarketOrder, getClobClient, buildClobClient.
  unfold say, bind, emit, ret, get, put.
  repeat case_match; simplify_eq; simpl; repeat constructor.
Qed.

(** A leg block that finds the slug in the cache: it returns normally,
    leaves the done-sets and the token-id cache alone, sends no Gamma
    request and posts on the leg's token of the cached entry only. *)
Lemma arbLegOrders_cached cfg l t sum kAsk polyAsk sl kc ps o m c :
  cache_hit (tokenIdsCache m) sl = Some c ->
  exists m' tr,
    arbLegOrders cfg l t sum kAsk polyAsk sl kc ps o m = (Ok tt, m', tr) /\
    keeps_done m m' /\ tokenIdsCache m' = tokenIdsCache m /\
    Forall (fun e => match e_ev e with
                     | EvGammaFetch _ => False
                     | EvClobPost tok _ _ _ _ => tok = legToken l (ids_of c)
                     | _ => True
                     end) tr.
Proof.
  intros Hc. unfold arbLegOrders.
  unfold bind at 1. rewrite say_run.
  destruct (ARB_DRY_RUN cfg); cbn [negb].
  { eexists _, _. split; [reflexivity|]. split; [apply keeps_done_refl|].
    split; [reflexivity | repeat constructor]. }
  destruct (placeOrder_live_run cfg t (legSide l) kc
              (Math_round (mul (add kAsk (ARB_PRICE_BUFFER cfg)) (of_Z 100)))
              (o_createOrder o) m) as (kr & tk & Ek & Fk & Fp).
  assert (Htk : Forall (fun e => match e_ev e with
                                 | EvGammaFetch _ => False
                                 | EvClobPost tok _ _ _ _ => tok = legToken l (ids_of c)
                                 | _ => True
                                 end) tk).
  { revert Ek. unfold placeOrder. destruct (o_createOrder o); simpl;
      intros H; inversion H; subst; repeat constructor. }
  unfold bind at 1. unfold promise_all2.
  rewrite Ek, (getTokenIdsForSlugCached_hit _ _ _ _ Hc).
  fold (ids_of c).
  pose proof (placePolymarketOrder_events cfg (legToken l (ids_of c))
                (Math_min (of_Z 1) (add polyAsk (ARB_PRICE_BUFFER cfg))) ps None
                (o_build o) (o_clob o) m) as Hp.
  destruct (placePolymarketOrder_run cfg (legToken l (ids_of c))
              (Math_min (of_Z 1) (add polyAsk (ARB_PRICE_BUFFER cfg))) ps None
              (o_build o) (o_clob o) m) as (pr & tp & Ep & _).
  destruct (afterPolyOrder_keeps cfg (Math_min (of_Z 1) (add polyAsk (ARB_PRICE_BUFFER cfg)))
                                 ps None (o_build o) (o_clob o) m) as [Hkd Htc].
  rewrite Ep in Hp. cbn [snd] in Hp.
  unfold bind.
  destruct kr as [kid | kerr]; unfold ret, appendMonitorLogWithTimestamp, emit;
    rewrite Ep; destruct pr as [[pid | perr | pp ps' pmin]|]; cbv beta iota zeta;
    (eexists _, _; split; [reflexivity|]);
    (split; [exact Hkd|]); (split; [exact Htc|]);
    repeat (apply Forall_app; split); repeat constructor; assumption.
Qed.

Lemma cache_hit_markDone l t m sl : 
  cache_hit (tokenIdsCache (markDone l t m)) sl = cache_hit (tokenIdsCache m) sl.
Proof. destruct l; reflexivity. Qed.

Lemma Forall_tag (P : Event -> Prop) t l tr :
  Forall (fun e => P (e_ev e)) tr -> Forall (fun e => P (e_ev e)) (tag t l tr).
Proof.
  intros H. unfold tag. apply List.Forall_map. simpl. exact H.
Qed.

(** X14. A tick of the monitor, the price read followed by the order step
    on the snapshot it returned: the order step never throws, it sends no
    Gamma request (the read has left the token ids of the snapshot's slug in
    the cache), it leaves the cache as the read left it, and every
    Polymarket order it posts is for a token whose book was read in this
    tick. *)
Theorem tick_orders_use_the_tokens_just_read
        (cfg : Config) (t : string) (market : option string)
        (fo : FetchOracle) (ao : ArbOracle) (m : Mem) :
  exists p m1 tr1 m2 tr2,
    getDualPrices t market fo m = (Ok p, m1, tr1) /\
    checkArbAndPlaceOrders cfg p ao m1 = (Ok tt, m2, tr2) /\
    tick cfg t market fo ao m = (Ok tt, m2, tr1 ++ tr2) /\
    Forall (uses_tokens_read tr1) tr2 /\
    tokenIdsCache m2 = tokenIdsCache m1.
Proof.
  destruct (getMarketPrices_run t (f_kalshiDoneAt fo) (f_getMarket fo) m) as (k & Ek & _).
  destruct (try_catch_total
              (ids <- getTokenIdsForSlugCached
                        (slugForCurrent15m (nullish market "btc"%string) (f_polyStartAt fo))
                        (f_gamma fo) ;;
               r <- promise_all2 (getBestAskForToken (upTokenId ids) (f_bookUp fo))
                                 (getBestAskForToken (downTokenId ids) (f_bookDown fo)) ;;
               match r with
               | (Some upAsk, Some downAsk) =>
                   ret (Some {| slug := slugForCurrent15m (nullish market "btc"%string)
                                                          (f_polyStartAt fo);
                                upAsk := upAsk; downAsk := downAsk;
                                pp_fetchedAt := f_polyDoneAt fo |})
               | _ => ret None
               end) None m) as (pmr & m1 & trp & Ep).
  change (getPolymarketAskPrices (nullish market "btc"%string) (f_polyStartAt fo)
                                 (f_polyDoneAt fo) (f_gamma fo) (f_bookUp fo)
                                 (f_bookDown fo) m = (Ok pmr, m1, trp)) in Ep.
  assert (Ed : getDualPrices t market fo m
               = (Ok {| kalshiTicker := t; kalshi := k; polymarket := pmr;
                        fetchedAt := f_startAt fo |},
                  m1, entry (EvKalshiGetMarket t) :: trp)).
  { unfold getDualPrices.
    rewrite (bind_Ok _ _ _ _ _ _ (promise_all2_Ok _ _ _ _ _ _ _ _ _ Ek Ep)).
    simpl. rewrite app_nil_r. reflexivity. }
  set (p := {| kalshiTicker := t; kalshi := k; polymarket := pmr;
               fetchedAt := f_startAt fo |}) in *.
  assert (Harb : exists m2 tr2,
             checkArbAndPlaceOrders cfg p ao m1 = (Ok tt, m2, tr2) /\
             Forall (uses_tokens_read (entry (EvKalshiGetMarket t) :: trp)) tr2 /\
             tokenIdsCache m2 = tokenIdsCache m1).
  { destruct (checkArb_leg cfg p ao m1) as [E | (l & k0 & pm & Hk & Hpm & Hin & E)].
    { exists m1, []. split; [exact E | split; [constructor | reflexivity]]. }
    destruct (decide (kalshiTicker p ∈ doneTickers l m1)) as [Hdone | Hnot].
    { exists m1, []. rewrite E, arbLeg_done by assumption.
      split; [reflexivity | split; [constructor | reflexivity]]. }
    simpl in Hpm. subst pmr.
    destruct (getPolymarketAskPrices_Some _ _ _ _ _ _ _ _ _ _ Ep)
      as (_ & _ & _ & (c & lt & Hc & Hs & _ & Htr) & _).
    assert (Hhit : cache_hit (tokenIdsCache (markDone l (kalshiTicker p) m1)) (slug pm)
                   = Some c).
    { rewrite cache_hit_markDone. apply cache_hit_Some. auto. }
    destruct (arbLegOrders_cached cfg l (kalshiTicker p) (legSum l k0 pm)
                (legKalshiAsk l k0) (legPolyAsk l pm) (slug pm) (kalshiContracts cfg)
                (polySize cfg) ao _ c Hhit) as (m2 & tr & Eo & _ & Hm2 & Hev).
    destruct (arbLeg_fresh cfg l (kalshiTicker p) (legSum l k0 pm) (legKalshiAsk l k0)
                (legPolyAsk l pm) (slug pm) (kalshiContracts cfg) (polySize cfg)
                ao m1 Hnot) as (r & m' & rest & Ho & Ea).
    rewrite Eo in Ho. inversion Ho; subst r m' rest; clear Ho.
    eexists _, _. rewrite E, Ea. split; [reflexivity|].
    split; [|rewrite Hm2; destruct l; reflexivity].
    constructor; [exact I|].
    apply (Forall_tag (fun ev => match ev with
                                 | EvGammaFetch _ => False
                                 | EvClobPost tokenId _ _ _ _ =>
                                     In (entry (EvClobBook tokenId))
                                        (entry (EvKalshiGetMarket t) :: trp)
                                 | _ => True
                                 end)).
    eapply Forall_impl; [exact Hev|].
    intros e. simpl. destruct (e_ev e); auto.
    intros ->. right. rewrite Htr. apply in_or_app. right.
    destruct l; simpl; auto. }
  destruct Harb as (m2 & tr2 & Ea & Hev & Hcache).
  exists p, m1, (entry (EvKalshiGetMarket t) :: trp), m2, tr2.
  split; [exact Ed|]. split; [exact Ea|].
  split; [|split; assumption].
  unfold tick. rewrite (bind_Ok _ _ _ _ _ _ Ed), Ea. reflexivity.
Qed.

(* ===================================================================== *)
(** * The slug of the quarter hour and the Gamma requests *)
(* ===================================================================== *)

(** Where the zone is steady, two instants have the same slug exactly when
    they lie in the same window of 900 seconds. *)
Lemma slugForCurrent15m_inj (market : string) (d d' : Date.t) (off off' : Z) :
  steady (Date.zone d) off (Date.getTime d) ->
  steady (Date.zone d') off' (Date.getTime d') ->
  slugForCurrent15m market d = slugForCurrent15m market d'
  <-> Date.getTime d / 900000 = Date.getTime d' / 900000.
Proof.
  intros H H'.
  rewrite (slugForCurrent15m_steady market d off H),
    (slugForCurrent15m_steady market d' off' H').
  unfold quarter_of_epoch. split.
  - intros E. apply String.app_inj, String.app_inj, pretty_Z_inj in E. lia.
  - intros ->. reflexivity.
Qed.

(** The requests of a Polymarket read: those of the token lookup, then the
    two book requests when the lookup succeeded. *)
Lemma getPolymarketAskPrices_trace market startAt doneAt gamma bookUp bookDown m :
  (getPolymarketAskPrices market startAt doneAt gamma bookUp bookDown m).2
  = (getTokenIdsForSlugCached (slugForCurrent15m market startAt) gamma m).2
    ++ match (getTokenIdsForSlugCached (slugForCurrent15m market startAt) gamma m).1.1 with
       | Ok ids => [entry (EvClobBook (upTokenId ids)); entry (EvClobBook (downTokenId ids))]
       | Throw _ => []
       end.
Proof.
  unfold getPolymarketAskPrices, try_catch.
  destruct (getTokenIdsForSlugCached (slugForCurrent15m market startAt) gamma m)
    as [[[ids | e] m1] lt] eqn:El.
  2:{ rewrite (bind_Throw _ _ _ _ _ _ El). reflexivity. }
  rewrite (bind_Ok _ _ _ _ _ _ El).
  destruct (getBestAskForToken_run (upTokenId ids) bookUp m1) as (ru & Eu & _).
  destruct (getBestAskForToken_run (downTokenId ids) bookDown m1) as (rd & Ed & _).
  unfold bind, promise_all2. rewrite Eu, Ed. cbn [fst snd].
  destruct ru as [[u|]| eu]; destruct rd as [[d|]| ed]; simpl;
    rewrite ?app_nil_r; reflexivity.
Qed.

(** X15. After a Polymarket read that yielded a snapshot, a second read
    that computes the same slug sends no Gamma request, whatever Gamma would
    answer: it asks only for the two books, of the tokens in the cache; a
    second read that computes another slug begins with a Gamma request for
    the slug it computes.  Where the zone of the host is steady at both
    reads (one offset, a multiple of fifteen minutes, over the quarter hour
    so far), the two reads compute the same slug exactly when they fall into
    the same window of 900 seconds, and the slug of the second names the
    start of its window, so that Gamma is asked once per quarter hour.  In
    the local hour that a zone repeats, a read can compute the slug of a
    quarter hour that is over and be answered from the cache: in New York
    on the first of November 2026, a read at 06:55 UTC computes the slug of
    the quarter hour from 05:45 UTC and, after a read at 05:50 UTC, asks
    for the books of the tokens cached then. *)
Theorem gamma_is_asked_once_per_quarter_hour
        (market : string) (t1 : Date.t) (d1 : Z) (g1 : GammaOutcome) (bu1 bd1 : BookOutcome)
        (m : Mem) (pm : PolymarketPrices) (m1 : Mem) (tr1 : list Entry)
        (t2 : Date.t) (d2 : Z) (g2 : GammaOutcome) (bu2 bd2 : BookOutcome)
        (Hfirst : getPolymarketAskPrices market t1 d1 g1 bu1 bd1 m = (Ok (Some pm), m1, tr1)) :
  (slugForCurrent15m market t1 = slugForCurrent15m market t2 ->
   exists c,
     tokenIdsCache m1 = Some c /\
     (getPolymarketAskPrices market t2 d2 g2 bu2 bd2 m1).2
     = [entry (EvClobBook (c_upTokenId c)); entry (EvClobBook (c_downTokenId c))]) /\
  (slugForCurrent15m market t1 <> slugForCurrent15m market t2 ->
   exists rest,
     (getPolymarketAskPrices market t2 d2 g2 bu2 bd2 m1).2
     = entry (EvGammaFetch (slugForCurrent15m market t2)) :: rest) /\
  (forall off1 off2,
      steady (Date.zone t1) off1 (Date.getTime t1) ->
      steady (Date.zone t2) off2 (Date.getTime t2) ->
      (slugForCurrent15m market t1 = slugForCurrent15m market t2
       <-> Date.getTime t1 / 900000 = Date.getTime t2 / 900000) /\
      slugForCurrent15m market t2
      = (market ++ "-updown-15m-" ++ pretty (quarter_of_epoch (Date.getTime t2)))%string) /\
  (exists c,
      tokenIdsCache
        (getPolymarketAskPrices "btc" (at_new_york 1793512200000) 1793512200060 gamma_ok
                                (f_bookUp fetch_ok) (f_bookDown fetch_ok) mem0).1.2
      = Some c /\
      c_slug c = "btc-updown-15m-1793511900"%string /\
      quarter_of_epoch 1793516100000 = 1793515500 /\
      (getPolymarketAskPrices "btc" (at_new_york 1793516100000) 1793516100060
                              (GammaFetchThrows "offline") BookNotOk BookNotOk
                              (getPolymarketAskPrices "btc" (at_new_york 1793512200000)
                                 1793512200060 gamma_ok
                                 (f_bookUp fetch_ok) (f_bookDown fetch_ok) mem0).1.2).2
      = [entry (EvClobBook (c_upTokenId c)); entry (EvClobBook (c_downTokenId c))]).
Proof.
  destruct (getPolymarketAskPrices_Some _ _ _ _ _ _ _ _ _ _ Hfirst)
    as (Hs & _ & _ & (c & lt & Hc & Hcs & _ & _) & _).
  rewrite getPolymarketAskPrices_trace. split; [|split; [|split]].
  4:{ eexists. split; [vm_compute; reflexivity|]. vm_compute. repeat split; reflexivity. }
  - intros Hw.
    assert (Hhit : cache_hit (tokenIdsCache m1) (slugForCurrent15m market t2) = Some c).
    { apply cache_hit_Some. split; [exact Hc | congruence]. }
    rewrite (getTokenIdsForSlugCached_hit _ _ _ _ Hhit). exists c. auto.
  - intros Hw.
    assert (Hmiss : cache_hit (tokenIdsCache m1) (slugForCurrent15m market t2) = None).
    { apply cache_hit_None. intros c' Hc' Hs'. apply Hw. congruence. }
    destruct (getTokenIdsForSlugCached_miss _ g2 _ Hmiss) as [[fresh E] | [e E]];
      rewrite E; simpl; eauto.
  - intros off1 off2 H1 H2.
    split; [apply (slugForCurrent15m_inj market t1 t2 off1 off2 H1 H2)|].
    apply (slugForCurrent15m_steady market t2 off2 H2).
Qed.

Lemma gamma_is_asked_once_per_quarter_hour_witness :
  (getPolymarketAskPrices "btc" (at_utc 1001) 1060 gamma_ok (f_bookUp fetch_ok)
                          (f_bookDown fetch_ok) mem0).2
  = [entry (EvGammaFetch "btc-updown-15m-0"); entry (EvClobBook "token-up");
     entry (EvClobBook "token-down")] /\
  (exists c,
      tokenIdsCache
        (getPolymarketAskPrices "btc" (at_utc 1001) 1060 gamma_ok (f_bookUp fetch_ok)
                                (f_bookDown fetch_ok) mem0).1.2 = Some c /\
      (getPolymarketAskPrices "btc" (at_utc 899999) 900050 (GammaFetchThrows "offline")
                              BookNotOk BookNotOk
                              (getPolymarketAskPrices "btc" (at_utc 1001) 1060 gamma_ok
                                 (f_bookUp fetch_ok) (f_bookDown fetch_ok) mem0).1.2).2
      = [entry (EvClobBook (c_upTokenId c)); entry (EvClobBook (c_downTokenId c))]).
Proof.
  split; [vm_compute; reflexivity|].
  - apply (proj1 (gamma_is_asked_once_per_quarter_hour
                    "btc" (at_utc 1001) 1060 gamma_ok (f_bookUp fetch_ok)
                    (f_bookDown fetch_ok) mem0
                    {| slug := "btc-updown-15m-0"; upAsk := parseFloat "0.38";
                       downAsk := parseFloat "0.48"; pp_fetchedAt := 1060 |}
                    _ _ (at_utc 899999) 900050 (GammaFetchThrows "offline") BookNotOk BookNotOk
                    ltac:(vm_compute; reflexivity))).
    vm_compute. reflexivity.
Defined.

(* ===================================================================== *)
(** * Prices in whole cents: what the arithmetic of numbers does *)
(* ===================================================================== *)

Lemma all_below_spec (n : Z) (f : Z -> bool) :
  all_below n f = true -> forall k, 0 <= k < n -> f k = true.
Proof.
  unfold all_below. rewrite forallb_forall. intros H k Hk. apply H.
  apply list_elem_of_In, elem_of_seqZ. lia.
Qed.

Lemma inRange_default_band (cfg : Config) (s : number) :
  ARB_SUM_LOW cfg = parseFloat "0.75" -> ARB_SUM_THRESHOLD cfg = parseFloat "0.92" ->
  inRange cfg s = inRange cfg_default s.
Proof. intros Hl Hh. unfold inRange. rewrite Hl, Hh. reflexivity. Qed.

Lemma band_in_cents_checked :
  all_below 101 (fun a =>
    all_below 101 (fun b =>
      if a + b =? 92 then true
      else Bool.eqb (inBand_cents a b) ((75 <=? a + b) && (a + b <? 92)))) = true.
Proof. vm_compute. reflexivity. Qed.

Lemma decimal2_checked :
  all_below 101 (fun k => bool_decide (parseFloat (decimal2 k) = cents k)) = true.
Proof. vm_compute. reflexivity. Qed.

(** X16. The band test on asks of whole cents, for the default band from
    0.75 up to 0.92.  A Kalshi ask of [a] cents and a Polymarket ask of [b]
    cents (the number that [parseFloat] reads from the two-decimal string)
    pass the test exactly when [75 <= a + b < 92], as long as [a + b] is not
    92.  When the asks add up to exactly 92 cents the outcome depends on the
    rounding of the sum: 47 + 45 passes, since the sum computed is below
    0.92, while 46 + 46 does not; 46 of the pairs pass. *)
Theorem band_in_whole_cents
        (cfg : Config) (a b : Z)
        (Hlow : ARB_SUM_LOW cfg = parseFloat "0.75")
        (Hhigh : ARB_SUM_THRESHOLD cfg = parseFloat "0.92")
        (Ha : 0 <= a <= 100) (Hb : 0 <= b <= 100) :
  parseFloat (decimal2 b) = cents b /\
  (a + b <> 92 ->
   inRange cfg (add (cents a) (cents b)) = (75 <=? a + b) && (a + b <? 92)) /\
  (a + b = 92 -> (inRange cfg (add (cents a) (cents b)) = true <-> In (a, b) leaky_pairs)) /\
  In (47, 45) leaky_pairs /\ ~ In (46, 46) leaky_pairs /\ length leaky_pairs = 46%nat.
Proof.
  split; [|split; [|split; [|split; [|split; [|vm_compute; reflexivity]]]]].
  - pose proof (all_below_spec _ _ decimal2_checked b ltac:(lia)) as H.
    apply bool_decide_eq_true in H. exact H.
  - intros Hne. rewrite (inRange_default_band cfg _ Hlow Hhigh).
    pose proof (all_below_spec _ _ band_in_cents_checked a ltac:(lia)) as H.
    pose proof (all_below_spec _ _ H b ltac:(lia)) as H'. cbv beta in H'.
    destruct (Z.eqb_spec (a + b) 92) as [|_]; [contradiction|].
    apply Bool.eqb_prop in H'. exact H'.
  - intros Hsum. rewrite (inRange_default_band cfg _ Hlow Hhigh).
    unfold leaky_pairs. rewrite filter_In, in_map_iff. fold (inBand_cents a b). split.
    + intros H. split; [|exact H]. exists a. split; [f_equal; lia|].
      apply list_elem_of_In, elem_of_seqZ. lia.
    + intros [_ H]. exact H.
  - vm_compute. tauto.
  - vm_compute. intros H. repeat (destruct H as [H | H]; [discriminate|]). exact H.
Qed.

Lemma band_in_whole_cents_witness :
  inRange cfg_default (add (cents 47) (cents 45)) = true /\
  inRange cfg_default (add (cents 46) (cents 46)) = false.
Proof.
  destruct (band_in_whole_cents cfg_default 47 45 eq_refl eq_refl ltac:(lia) ltac:(lia))
    as (_ & _ & H & Hin & _ & _).
  split; [apply (H eq_refl); exact Hin | vm_compute; reflexivity].
Defined.

Lemma default_buffer_checked :
  all_below 100 (fun k =>
    bool_decide (kalshiSubmitted cfg_default (cents k) = of_Z (Z.min 99 (k + 1)))
    && bool_decide (roundPriceToTickSize (polyLimit cfg_default (cents k)) "0.01"
                    = cents (k + 1))) = true.
Proof. vm_compute. reflexivity. Qed.

(** X17. With the default price buffer of 0.01 the limit prices are exactly
    one cent above the asks, for every ask of whole cents from 0 to 99: the
    Kalshi order goes out at [k + 1] cents, capped at 99, and the Polymarket
    order, rounded to a tick of 0.01, at [(k + 1) / 100]; the rounding of the
    sums and products never moves a limit by a cent. *)
Theorem default_buffer_is_one_cent
        (cfg : Config) (k : Z)
        (Hbuf : ARB_PRICE_BUFFER cfg = parseFloat "0.01")
        (Hk : 0 <= k <= 99) :
  kalshiSubmitted cfg (cents k) = of_Z (Z.min 99 (k + 1)) /\
  roundPriceToTickSize (polyLimit cfg (cents k)) "0.01" = cents (k + 1).
Proof.
  pose proof (all_below_spec _ _ default_buffer_checked k ltac:(lia)) as H.
  cbv beta in H. apply andb_prop in H as [H1 H2].
  apply bool_decide_eq_true in H1, H2.
  unfold kalshiSubmitted, kalshiLimitCents, polyLimit in *. rewrite Hbuf.
  split; [exact H1 | exact H2].
Qed.

Lemma default_buffer_is_one_cent_witness :
  kalshiSubmitted cfg_default (cents 57) = of_Z 58 /\
  roundPriceToTickSize (polyLimit cfg_default (cents 57)) "0.01" = cents 58.
Proof.
  apply (default_buffer_is_one_cent cfg_default 57 eq_refl). lia.
Defined.

Lemma dollarsToCents_checked :
  all_below 10001 (fun n =>
    bool_decide (dollarsToCents (Some (decimal4 n))
                 = of_Z (if bool_decide (n ∈ half_cents_rounded_down)
                         then n / 100 else (n + 50) / 100))) = true.
Proof. vm_compute. reflexivity. Qed.

(** X18. [dollarsToCents] on the dollar strings of four decimals from
    "0.0000" to "1.0000": a whole number of cents is read back exactly, and
    any other amount is rounded to the nearest cent, a half cent upwards,
    except that the four amounts 0.1450, 0.2850, 0.5650 and 0.5750 are
    rounded down, the product by 100 falling just below the half. *)
Theorem dollars_to_cents_on_four_decimals (n : Z) (Hn : 0 <= n <= 10000) :
  dollarsToCents (Some (decimal4 n))
  = of_Z (if bool_decide (n ∈ half_cents_rounded_down) then n / 100 else (n + 50) / 100) /\
  (n mod 100 = 0 -> dollarsToCents (Some (decimal4 n)) = of_Z (n / 100)).
Proof.
  pose proof (all_below_spec _ _ dollarsToCents_checked n ltac:(lia)) as H.
  apply bool_decide_eq_true in H. split; [exact H|].
  intros Hw. rewrite H. f_equal. case_bool_decide as Hin; [reflexivity|].
  pose proof (Z_div_mod_eq_full n 100) as Hdm.
  symmetry. apply Z.div_unique with (r := 50); lia.
Qed.

Lemma dollars_to_cents_on_four_decimals_witness :
  dollarsToCents (Some "0.5600"%string) = of_Z 56 /\
  dollarsToCents (Some "0.1450"%string) = of_Z 14.
Proof.
  split.
  - apply (proj2 (dollars_to_cents_on_four_decimals 5600 ltac:(lia))). reflexivity.
  - apply (proj1 (dollars_to_cents_on_four_decimals 1450 ltac:(lia))).
Defined.

(* ===================================================================== *)
(** * The market listing and the one-order bot *)
(* ===================================================================== *)

Lemma slice0_prefix {A} (l : list A) (n : Z) :
  0 <= n ->
  slice0 l (Some n) `prefix_of` l /\ Z.of_nat (length (slice0 l (Some n))) <= n.
Proof.
  intros Hn. unfold slice0. destruct (Z.ltb_spec n 0) as [|_]; [lia|].
  split; [apply prefix_take|]. rewrite length_take. lia.
Qed.

Lemma getMarketsLoop_spec (n : Z) (answers : list GetMarketsOutcome) :
  0 <= n ->
  forall (all : list KalshiMarket) (cursor : option string),
    (exists rest, listingRequests (getMarketsLoop (Some n) all cursor answers).2
                  = cursor :: rest) /\
    Z.of_nat (length (listingRequests (getMarketsLoop (Some n) all cursor answers).2))
    <= Z.max 1 ((n - Z.of_nat (length all) + 199) / 200) /\
    (forall ms, (getMarketsLoop (Some n) all cursor answers).1 = Returned ms ->
                ms `prefix_of` (all ++ offered answers) /\ Z.of_nat (length ms) <= n).
Proof.
  intros Hn. induction answers as [|[msg | page] answers IH]; intros all cursor.
  - simpl. split; [eauto|]. split; [lia | discriminate].
  - simpl. split; [eauto|]. split; [lia | discriminate].
  - cbn [getMarketsLoop offered].
    set (markets := nullish (pg_markets page) []).
    assert (Hdone : forall P : list KalshiMarket -> Prop,
               (forall ms, ms `prefix_of` (all ++ markets ++ offered answers) ->
                           Z.of_nat (length ms) <= n -> P ms) ->
               P (slice0 (all ++ markets) (Some n))).
    { intros P HP. destruct (slice0_prefix (all ++ markets) n Hn) as [Hp Hl].
      apply HP; [|exact Hl].
      remember (slice0 (all ++ markets) (Some n)) as sl eqn:Esl. clear Esl.
      destruct Hp as [k Hk]. exists (k ++ offered answers).
      rewrite (app_assoc all), Hk, <- app_assoc. reflexivity. }
    destruct (cursor_falsy (pg_cursor page) || reached (length (all ++ markets)) (Some n))
      eqn:Estop.
    { simpl. split; [eauto|]. split; [lia|].
      intros ms Hms. inversion Hms; subst ms.
      apply (Hdone (fun ms => ms `prefix_of` (all ++ markets ++ offered answers) /\
                               Z.of_nat (length ms) <= n)).
      intros; split; assumption. }
    destruct (length markets =? 200)%nat eqn:Efull.
    2:{ simpl. split; [eauto|]. split; [lia|].
        intros ms Hms. inversion Hms; subst ms.
        apply (Hdone (fun ms => ms `prefix_of` (all ++ markets ++ offered answers) /\
                               Z.of_nat (length ms) <= n)).
      intros; split; assumption. }
    apply orb_false_iff in Estop as [_ Hreach]. unfold reached in Hreach.
    apply Z.leb_gt in Hreach. apply Nat.eqb_eq in Efull.
    rewrite length_app, Efull in Hreach.
    destruct (IH (all ++ markets) (pg_cursor page)) as ((rest & Hreq) & Hcount & Hres).
    destruct (getMarketsLoop (Some n) (all ++ markets) (pg_cursor page) answers)
      as [r tr]. cbn [fst snd] in *.
    split; [simpl; eauto|]. split.
    + simpl listingRequests. rewrite length_app, Efull in Hcount.
      change (length (cursor :: listingRequests tr)) with (S (length (listingRequests tr))).
      assert (H1 : (n - Z.of_nat (length all) + 199) / 200
                   = (n - Z.of_nat (length all + 200) + 199) / 200 + 1).
      { rewrite <- Z.div_add by lia. f_equal. lia. }
      assert (H2 : 1 <= (n - Z.of_nat (length all + 200) + 199) / 200).
      { apply Z.div_le_lower_bound; lia. }
      lia.
    + intros ms Hms. rewrite <- app_assoc in Hres. apply Hres. exact Hms.
Qed.

(** X19. [getBitcoinUpDownMarkets] with a limit [BOT_MAX_MARKETS] that is a
    number not below zero: it sends at most [max(1, ceil(limit / 200))]
    listing requests, the first without a cursor; and what it returns is a
    prefix of the markets the server offers, in the server's order, of at
    most [limit] markets. *)
Theorem listing_is_a_bounded_prefix
        (bc : BotConfig) (answers : list GetMarketsOutcome) (n : Z)
        (Hmax : BOT_MAX_MARKETS bc = Some n) (Hn : 0 <= n) :
  (exists rest, listingRequests (getBitcoinUpDownMarkets bc answers).2 = None :: rest) /\
  Z.of_nat (length (listingRequests (getBitcoinUpDownMarkets bc answers).2))
  <= Z.max 1 ((n + 199) / 200) /\
  (forall ms, (getBitcoinUpDownMarkets bc answers).1 = Returned ms ->
              ms `prefix_of` offered answers /\ Z.of_nat (length ms) <= n).
Proof.
  unfold getBitcoinUpDownMarkets. rewrite Hmax.
  destruct (getMarketsLoop_spec n answers Hn [] None) as (Hreq & Hcount & Hres).
  destruct (getMarketsLoop (Some n) [] None answers) as [r tr]. cbn [fst snd] in *.
  simpl listingRequests. simpl length in Hcount. rewrite Z.sub_0_r in Hcount.
  split; [exact Hreq|]. split; [exact Hcount | exact Hres].
Qed.

Lemma listing_is_a_bounded_prefix_witness :
  listingRequests (getBitcoinUpDownMarkets bot_250 three_full_pages).2
  = [None; Some "next"%string] /\
  (forall ms, (getBitcoinUpDownMarkets bot_250 three_full_pages).1 = Returned ms ->
              Z.of_nat (length ms) <= 250).
Proof.
  split; [vm_compute; reflexivity|].
  assert (Hmax : BOT_MAX_MARKETS bot_250 = Some 250) by (vm_compute; reflexivity).
  intros ms Hms.
  apply (proj2 (proj2 (listing_is_a_bounded_prefix bot_250 three_full_pages 250 Hmax
                                                   ltac:(lia))) ms Hms).
Defined.

Lemma getMarketsLoop_nan (answers : list GetMarketsOutcome) :
  forall all cursor ms,
    (getMarketsLoop None all cursor answers).1 = Returned ms -> ms = [].
Proof.
  induction answers as [|[msg | page] answers IH]; intros all cursor ms; simpl;
    try discriminate.
  destruct (cursor_falsy (pg_cursor page) || false);
    [intros H; inversion H; reflexivity|].
  destruct (length (nullish (pg_markets page) []) =? 200)%nat;
    [|intros H; inversion H; reflexivity].
  specialize (IH (all ++ nullish (pg_markets page) []) (pg_cursor page) ms).
  destruct (getMarketsLoop None _ _ answers) as [r tr]. exact IH.
Qed.

(** X20. When [BOT_MAX_MARKETS] is not a number (the environment value does
    not begin with an integer), [getBitcoinUpDownMarkets] never returns a
    market, whatever the server offers: if it returns, the list is empty. *)
Theorem unparsable_limit_lists_nothing
        (bc : BotConfig) (answers : list GetMarketsOutcome)
        (Hnan : BOT_MAX_MARKETS bc = None) :
  match (getBitcoinUpDownMarkets bc answers).1 with
  | Returned ms => ms = []
  | _ => True
  end.
Proof.
  unfold getBitcoinUpDownMarkets. rewrite Hnan.
  pose proof (getMarketsLoop_nan answers [] None) as H.
  destruct (getMarketsLoop None [] None answers) as [[ms | e |] tr]; cbn [fst] in *;
    [exact (H ms eq_refl) | exact I | exact I].
Qed.

Lemma unparsable_limit_lists_nothing_witness :
  (getBitcoinUpDownMarkets bot_nan one_market).1 = Returned [] /\
  match (getBitcoinUpDownMarkets bot_nan one_market).1 with
  | Returned ms => ms = []
  | _ => True
  end.
Proof.
  split; [vm_compute; reflexivity|].
  apply (unparsable_limit_lists_nothing bot_nan one_market).
  vm_compute. reflexivity.
Defined.

Lemma botOrders_app (a b : list BotEvent) : botOrders (a ++ b) = botOrders a ++ botOrders b.
Proof.
  induction a as [|e a IH]; [reflexivity|].
  destruct e; simpl; rewrite IH; try reflexivity. apply app_assoc.
Qed.

Lemma botOrders_map (tr : list Entry) :
  botOrders (map BotOrder tr) = map e_ev (List.filter isKalshiOrder tr).
Proof.
  induction tr as [|e tr IH]; [reflexivity|].
  simpl. rewrite IH. destruct (isKalshiOrder e); reflexivity.
Qed.

Lemma botOrders_listing (bc : BotConfig) (answers : list GetMarketsOutcome) :
  botOrders (getBitcoinUpDownMarkets bc answers).2 = [].
Proof.
  unfold getBitcoinUpDownMarkets.
  assert (H : forall max all cursor,
             botOrders (getMarketsLoop max all cursor answers).2 = []).
  { induction answers as [|[msg | page] answers IH]; intros max all cursor; simpl;
      try reflexivity.
    destruct (_ || _); [reflexivity|].
    destruct (_ =? _)%nat; [|reflexivity].
    specialize (IH max (all ++ nullish (pg_markets page) []) (pg_cursor page)).
    destruct (getMarketsLoop max _ _ answers) as [r tr]. exact IH. }
  specialize (H (BOT_MAX_MARKETS bc) [] None).
  destruct (getMarketsLoop _ [] None answers) as [r tr]. exact H.
Qed.

(** X21. [run]: the bot sends at most one order.  It sends one exactly
    when the listing returns at least one market and the bot is not in a dry
    run; the order is for the first market listed, with the configured side
    and count, at the configured price clamped to 1..99.  When the listing
    throws so does [run], and nothing is ordered; when no market is listed
    it returns without an order.  The exit code is set, to 1, exactly when
    the order request failed. *)
Theorem run_places_one_order_on_the_first_market
        (cfg : Config) (bc : BotConfig) (answers : list GetMarketsOutcome)
        (net : CreateOrderOutcome) (m : Mem) :
  botOrders (run cfg bc answers net m).2
  = match (getBitcoinUpDownMarkets bc answers).1 with
    | Returned (market :: _) =>
        if BOT_DRY_RUN cfg then []
        else [EvKalshiCreateOrder (m_ticker market) (BOT_SIDE bc) (BOT_CONTRACTS bc)
                                  (Math_max (of_Z 1) (Math_min (of_Z 99) (BOT_PRICE_CENTS bc)))]
    | _ => []
    end /\
  (run cfg bc answers net m).1
  = match (getBitcoinUpDownMarkets bc answers).1 with
    | Returned (_ :: _) =>
        match net with
        | CreateOrderThrows _ => if BOT_DRY_RUN cfg then Returned None else Returned (Some 1)
        | CreateOrderResp _ => Returned None
        end
    | Returned [] => Returned None
    | Thrown e => Thrown e
    | Pending => Pending
    end.
Proof.
  unfold run. pose proof (botOrders_listing bc answers) as Hl.
  destruct (getBitcoinUpDownMarkets bc answers) as [[[|market others] | e |] tr];
    cbn [fst snd] in *.
  - rewrite !botOrders_app, Hl. split; reflexivity.
  - unfold placeOrder. destruct (BOT_DRY_RUN cfg); simpl.
    + rewrite !botOrders_app, Hl. destruct net; split; reflexivity.
    + destruct net as [msg | id]; simpl; rewrite !botOrders_app, Hl; split; reflexivity.
  - rewrite !botOrders_app, Hl. split; reflexivity.
  - rewrite !botOrders_app, Hl. split; reflexivity.
Qed.

(* ===================================================================== *)
(** * Settings that are not numbers, and the sizes of the orders *)
(* ===================================================================== *)

Lemma le_lt_trans (x y z : number) : le x y = true -> lt y z = true -> lt x z = true.
Proof.
  unfold le, lt, SFleb, SFltb.
  destruct x as [s1 | s1 | | s1 m1 e1], y as [s2 | s2 | | s2 m2 e2],
           z as [s3 | s3 | | s3 m3 e3]; simpl;
    repeat match goal with b : bool |- _ => destruct b end;
    try discriminate; try reflexivity;
    fold_pos_compare;
    destruct (Z.compare_spec e1 e2), (Z.compare_spec e2 e3), (Z.compare_spec e1 e3);
    try discriminate; try reflexivity; try lia; subst;
    destruct (Pos.compare_spec m1 m2), (Pos.compare_spec m2 m3), (Pos.compare_spec m1 m3);
    simpl; try discriminate; try reflexivity; try lia.
Qed.

Lemma lt_not_le (x y : number) : lt x y = true -> le y x = false.
Proof.
  unfold lt, le, SFltb, SFleb. rewrite (SFcompare_antisym x y).
  destruct (SFcompare x y) as [[| |]|]; simpl; try discriminate; reflexivity.
Qed.

Lemma lt_NaN_r (x : number) : lt x NaN = false.
Proof. destruct x as [s | s | | s m e]; reflexivity. Qed.

Lemma le_NaN_l (x : number) : le NaN x = false.
Proof. reflexivity. Qed.

(** The band is empty when a limit is not a number or the limits are not in
    order. *)
Lemma inRange_empty_band (cfg : Config) (s : number) :
  ARB_SUM_LOW cfg = NaN \/ ARB_SUM_THRESHOLD cfg = NaN \/
  le (ARB_SUM_THRESHOLD cfg) (ARB_SUM_LOW cfg) = true ->
  inRange cfg s = false.
Proof.
  intros H. unfold inRange.
  destruct (isFinite s); [|reflexivity]. simpl.
  destruct (ge s (ARB_SUM_LOW cfg)) eqn:Elo; [|reflexivity].
  change (le (ARB_SUM_LOW cfg) s = true) in Elo. simpl.
  destruct (lt s (ARB_SUM_THRESHOLD cfg)) eqn:Ehi; [|reflexivity].
  exfalso. destruct H as [H | [H | H]].
  - rewrite H in Elo. discriminate.
  - rewrite H, lt_NaN_r in Ehi. discriminate.
  - pose proof (lt_not_le _ _ (le_lt_trans _ _ _ Elo Ehi)) as Hc. congruence.
Qed.

(** X22. When a limit of the band is not a number (its environment value
    cannot be parsed), or when the upper limit is not above the lower one,
    the detector never acts: every call of [checkArbAndPlaceOrders] returns
    with the state unchanged and without an event, whatever the snapshot. *)
Theorem empty_band_never_fires
        (cfg : Config) (p : DualMarketPrices) (o : ArbOracle) (m : Mem)
        (Hband : ARB_SUM_LOW cfg = NaN \/ ARB_SUM_THRESHOLD cfg = NaN \/
                 le (ARB_SUM_THRESHOLD cfg) (ARB_SUM_LOW cfg) = true) :
  checkArbAndPlaceOrders cfg p o m = (Ok tt, m, []).
Proof.
  destruct (checkArb_leg cfg p o m) as [E | (l & k & pm & _ & _ & Hin & _)]; [exact E|].
  rewrite (inRange_empty_band cfg _ Hband) in Hin. discriminate.
Qed.

Lemma empty_band_never_fires_witness :
  ARB_SUM_LOW cfg_bad_band = NaN /\
  checkArbAndPlaceOrders cfg_bad_band snap_up oracle_ok mem0 = (Ok tt, mem0, []).
Proof.
  assert (H : ARB_SUM_LOW cfg_bad_band = NaN) by (vm_compute; reflexivity).
  split; [exact H|].
  apply (empty_band_never_fires cfg_bad_band snap_up oracle_ok mem0). left. exact H.
Defined.

Lemma add_NaN_r (x : number) : add x NaN = NaN.
Proof. destruct x as [s | s | | s m e]; reflexivity. Qed.

Lemma roundPriceToTickSize_NaN (tick : string) : roundPriceToTickSize NaN tick = NaN.
Proof.
  unfold roundPriceToTickSize.
  destruct (String.eqb tick "0.01"); [reflexivity|].
  destruct (String.eqb tick "0.001"); [reflexivity|].
  destruct (String.eqb tick "0.0001"); reflexivity.
Qed.

(** X23. When the price buffer is not a number, every limit price is NaN:
    the price [placeOrder] submits to Kalshi, and the price posted on
    Polymarket, for which the test on the minimal notional lets every size
    through (a comparison with NaN is false), so that the order is posted
    whenever the credentials are set, the run is live or forced, the CLOB
    library is imported and a client is at hand. *)
Theorem unparsable_buffer_makes_limits_nan
        (cfg : Config) (Hbuf : ARB_PRICE_BUFFER cfg = NaN) :
  (forall kAsk, kalshiSubmitted cfg kAsk = NaN) /\
  (forall polyAsk tick, roundPriceToTickSize (polyLimit cfg polyAsk) tick = NaN) /\
  (forall polyAsk size options build net m,
      polyPosts cfg (polyLimit cfg polyAsk) size options build net m
      = polyConfigured cfg && (negb (ARB_DRY_RUN cfg) || forcePlace options)
        && clobImported net && clientReady cfg build m).
Proof.
  assert (Hlim : forall polyAsk, polyLimit cfg polyAsk = NaN).
  { intros polyAsk. unfold polyLimit. rewrite Hbuf, add_NaN_r. reflexivity. }
  split; [|split].
  - intros kAsk. unfold kalshiSubmitted, kalshiLimitCents.
    rewrite Hbuf, add_NaN_r. reflexivity.
  - intros polyAsk tick. rewrite Hlim. apply roundPriceToTickSize_NaN.
  - intros polyAsk size options build net m. unfold polyPosts, asksForClient.
    rewrite Hlim.
    replace (lt (mul NaN size) (polyMinUsd cfg)) with false; [|reflexivity].
    simpl. rewrite andb_true_r. reflexivity.
Qed.

Lemma unparsable_buffer_makes_limits_nan_witness :
  map e_ev (List.filter isKalshiOrder
              (checkArbAndPlaceOrders cfg_bad_buffer snap_up oracle_ok mem0).2)
  = [EvKalshiCreateOrder "KXBTC15M-A" yes (of_Z 1) (kalshiSubmitted cfg_bad_buffer (cents 40))] /\
  kalshiSubmitted cfg_bad_buffer (cents 40) = NaN.
Proof.
  split; [vm_compute; reflexivity|].
  apply (proj1 (unparsable_buffer_makes_limits_nan cfg_bad_buffer
                  ltac:(vm_compute; reflexivity))).
Defined.

Lemma Math_max_one (x : number) :
  Math_max (of_Z 1) x = NaN \/ le (of_Z 1) (Math_max (of_Z 1) x) = true.
Proof.
  unfold Math_max. destruct (SFcompare (of_Z 1) x) as [[| |]|] eqn:C; [| | |left; reflexivity];
    right.
  - reflexivity.
  - apply SFcompare_Lt_le. exact C.
  - reflexivity.
Qed.

Lemma Math_max_one_NaN (x : number) : Math_max (of_Z 1) x = NaN <-> x = NaN.
Proof.
  split; [|intros ->; reflexivity].
  unfold Math_max. destruct (SFcompare (of_Z 1) x) as [[| |]|] eqn:C.
  - discriminate.
  - intros ->. vm_compute in C. discriminate.
  - discriminate.
  - intros _. apply SFcompare_None in C as [C | C]; [discriminate | exact C].
Qed.

Lemma whole_sizes_checked :
  all_below 1001 (fun n =>
    (n =? 0) || (bool_decide (kalshiContracts_of (of_Z n) = of_Z n)
                 && bool_decide (Math_max ARB_POLY_MIN (of_Z n) = of_Z n))) = true.
Proof. vm_compute. reflexivity. Qed.

(** X24. The sizes of the orders respect the platform minimum of one: the
    number of Kalshi contracts and the number of Polymarket shares are each
    at least 1 or else NaN, and the shares are NaN only when [ARB_SIZE] is.
    For a whole [ARB_SIZE] from 1 to 1000 both venues get exactly that
    amount. *)
Theorem sizes_respect_the_minimum (cfg : Config) :
  (kalshiContracts cfg = NaN \/ le (of_Z 1) (kalshiContracts cfg) = true) /\
  (polySize cfg = NaN \/ le (of_Z 1) (polySize cfg) = true) /\
  (polySize cfg = NaN <-> ARB_SIZE cfg = NaN) /\
  (forall n, 1 <= n <= 1000 -> ARB_SIZE cfg = of_Z n ->
             kalshiContracts cfg = of_Z n /\ polySize cfg = of_Z n).
Proof.
  split; [apply Math_max_one|]. split; [apply Math_max_one|].
  split; [apply Math_max_one_NaN|].
  intros n Hn Hsize.
  pose proof (all_below_spec _ _ whole_sizes_checked n ltac:(lia)) as H. cbv beta in H.
  destruct (Z.eqb_spec n 0) as [|_]; [lia|]. simpl in H.
  apply andb_prop in H as [H1 H2]. apply bool_decide_eq_true in H1, H2.
  unfold kalshiContracts, polySize. rewrite Hsize. split; [exact H1 | exact H2].
Qed.

(* ===================================================================== *)
(** * The key of the quarter hour *)
(* ===================================================================== *)

Lemma string_app_nil (t : string) : ("" ++ t)%string = t.
Proof. reflexivity. Qed.

Lemma string_app_cons (c : ascii) (s t : string) :
  (String c s ++ t)%string = String c (s ++ t).
Proof. reflexivity. Qed.

Lemma string_length_app (s t : string) :
  String.length (s ++ t) = (String.length s + String.length t)%nat.
Proof.
  induction s as [|c s IH]; [reflexivity|].
  rewrite string_app_cons. simpl. rewrite IH. reflexivity.
Qed.

Lemma string_app_assoc (s t u : string) : ((s ++ t) ++ u = s ++ t ++ u)%string.
Proof.
  induction s as [|c s IH]; [reflexivity|].
  rewrite !string_app_cons, IH. reflexivity.
Qed.

(** Two concatenations with tails of the same length agree part by part. *)
Lemma string_app_inj_tail (s1 s2 t1 t2 : string) :
  String.length t1 = String.length t2 ->
  (s1 ++ t1 = s2 ++ t2)%string -> s1 = s2 /\ t1 = t2.
Proof.
  revert s2. induction s1 as [|c s1 IH]; intros [|c' s2] Hlen H;
    rewrite ?string_app_nil, ?string_app_cons in H.
  - auto.
  - exfalso. rewrite H in Hlen. simpl in Hlen. rewrite string_length_app in Hlen. lia.
  - exfalso. rewrite <- H in Hlen. simpl in Hlen. rewrite string_length_app in Hlen. lia.
  - injection H as -> H. destruct (IH s2 Hlen H) as [-> ->]. auto.
Qed.

Lemma two_digits_checked :
  all_below 100 (fun v =>
    (String.length (two_digits v) =? 2)%nat
    && all_below 100 (fun w => implb (String.eqb (two_digits v) (two_digits w)) (v =? w)))
  = true.
Proof. vm_compute. reflexivity. Qed.

Lemma two_digits_length (v : Z) : 0 <= v < 100 -> String.length (two_digits v) = 2%nat.
Proof.
  intros Hv. pose proof (all_below_spec _ _ two_digits_checked v Hv) as H. cbv beta in H.
  apply andb_prop in H as [H _]. apply Nat.eqb_eq. exact H.
Qed.

Lemma two_digits_inj (v w : Z) :
  0 <= v < 100 -> 0 <= w < 100 -> two_digits v = two_digits w -> v = w.
Proof.
  intros Hv Hw E. pose proof (all_below_spec _ _ two_digits_checked v Hv) as H.
  cbv beta in H. apply andb_prop in H as [_ H].
  pose proof (all_below_spec _ _ H w Hw) as H'. cbv beta in H'.
  rewrite E, String.eqb_refl in H'. simpl in H'. apply Z.eqb_eq. exact H'.
Qed.

Lemma quarter_minutes (d : LocalDate) :
  0 <= getMinutes d <= 59 -> 0 <= getMinutes d / 15 * 15 < 100.
Proof.
  intros H. pose proof (Z.div_pos (getMinutes d) 15 ltac:(lia) ltac:(lia)).
  pose proof (Z.mul_div_le (getMinutes d) 15 ltac:(lia)). lia.
Qed.

Ltac string_lengths :=
  repeat first [ rewrite string_app_cons | rewrite string_app_nil
               | rewrite string_length_app | rewrite two_digits_length by lia
               | progress cbn [String.length] ];
  try reflexivity.

Lemma key_tail_length (d : LocalDate) : valid_date d -> String.length (key_tail d) = 12%nat.
Proof.
  intros (Hm & Hd & Hh & Hmin). pose proof (quarter_minutes d Hmin) as Hq.
  unfold key_tail. string_lengths.
Qed.

Lemma key_tail_inj (d d' : LocalDate) :
  valid_date d -> valid_date d' -> key_tail d = key_tail d' ->
  getMonth d = getMonth d' /\ getDate d = getDate d' /\ getHours d = getHours d' /\
  getMinutes d / 15 = getMinutes d' / 15.
Proof.
  intros (Hm & Hd & Hh & Hmin) (Hm' & Hd' & Hh' & Hmin') E. unfold key_tail in E.
  pose proof (quarter_minutes d Hmin) as Hq.
  pose proof (quarter_minutes d' Hmin') as Hq'.
  rewrite ?string_app_cons, ?string_app_nil in E. injection E as E.
  apply string_app_inj_tail in E as [E1 E]; [|string_lengths].
  rewrite ?string_app_cons, ?string_app_nil in E. injection E as E.
  apply string_app_inj_tail in E as [E2 E]; [|string_lengths].
  rewrite ?string_app_cons, ?string_app_nil in E. injection E as E.
  apply string_app_inj_tail in E as [E3 E]; [|string_lengths].
  rewrite ?string_app_cons, ?string_app_nil in E. injection E as E4.
  apply two_digits_inj in E1, E2, E3, E4; try lia.
Qed.

(** X25. The key of the quarter hour.  [current15mSlot] of monitor.ts and
    [timeBucket15m] of monitor-logger.ts give the same key for the same
    date, so the monitor log file changes exactly when the monitor sees a
    new slot.  For dates with fields in range, two dates have the same key
    exactly when they lie in the same quarter of the same hour of the same
    day; and the key ends in the minutes of the start of the quarter, one of
    00, 15, 30 and 45. *)
Theorem slot_key_names_the_quarter_hour
        (d d' : LocalDate) (Hd : valid_date d) (Hd' : valid_date d') :
  current15mSlot d = timeBucket15m d /\
  monitorLogFile d = ("logs/monitor_" ++ current15mSlot d ++ ".log")%string /\
  (current15mSlot d = current15mSlot d' <-> same_quarter d d') /\
  (exists front q, In q ["00"; "15"; "30"; "45"]%string /\
                   current15mSlot d = (front ++ "-" ++ q)%string).
Proof.
  split; [reflexivity|]. split; [reflexivity|]. split.
  - change (current15mSlot d) with (pretty (getFullYear d) ++ key_tail d)%string.
    change (current15mSlot d') with (pretty (getFullYear d') ++ key_tail d')%string.
    split.
    + intros E. apply string_app_inj_tail in E as [Ey Et].
      2:{ rewrite !key_tail_length by assumption. reflexivity. }
      apply pretty_Z_inj in Ey.
      destruct (key_tail_inj d d' Hd Hd' Et) as (H1 & H2 & H3 & H4).
      repeat split; assumption.
    + intros (H1 & H2 & H3 & H4 & H5). unfold key_tail.
      rewrite H1, H2, H3, H4, H5. reflexivity.
  - destruct Hd as (_ & _ & _ & Hmin).
    exists (pretty (getFullYear d) ++ "-" ++ two_digits (getMonth d + 1) ++ "-"
              ++ two_digits (getDate d) ++ "_" ++ two_digits (getHours d))%string,
           (two_digits (getMinutes d / 15 * 15)).
    split.
    + assert (Hq : getMinutes d / 15 = 0 \/ getMinutes d / 15 = 1 \/
                   getMinutes d / 15 = 2 \/ getMinutes d / 15 = 3).
      { pose proof (Z.div_pos (getMinutes d) 15 ltac:(lia) ltac:(lia)).
        pose proof (Z.div_lt_upper_bound (getMinutes d) 15 4 ltac:(lia) ltac:(lia)). lia. }
      destruct Hq as [-> | [-> | [-> | ->]]]; vm_compute; tauto.
    + unfold current15mSlot. cbv zeta.
      rewrite !string_app_assoc. reflexivity.
Qed.

Lemma slot_key_names_the_quarter_hour_witness :
  current15mSlot half_past_nine = "2026-01-05_09-30"%string /\
  current15mSlot quarter_to_ten = current15mSlot half_past_nine.
Proof.
  split; [vm_compute; reflexivity|].
  apply (proj1 (proj2 (proj2 (slot_key_names_the_quarter_hour
                                quarter_to_ten half_past_nine
                                ltac:(vm_compute; intuition discriminate)
                                ltac:(vm_compute; intuition discriminate))))).
  vm_compute. repeat split.
Defined.
